(** * Anonymous Diffie-Hellman key exchange of GnuTLS (lib/auth_anon.c)

    A shallow embedding of the four key-exchange operations
    [gen_anon_server_kx], [proc_anon_server_kx], [gen_anon_client_kx] and
    [proc_anon_client_kx], together with [_gnutls_generate_key], and the
    properties of the wire codec, of the session state and of the big-integer
    life cycle that the specification states about them, followed by what
    the code itself shows: its success and failure paths, memory safety, the
    bytes the decoders read, what each operation leaves alone and what it
    returns.

    Conventions of the embedding:
    - an [opaque] buffer is a [list byte]; reading it outside its bounds is
      undefined behaviour in C and is the outcome [Fault] here;
    - an [MPI] is a handle into a store of live big integers ([mpis]); a
      [NULL] handle is [None];
    - the functions run in a state-and-error monad over the session and the
      store: an early [return] of an error code keeps the state reached so
      far, exactly as the C code does;
    - [data_size] is an [int]: decrementing it below [INT_MIN] wraps around;
    - what lies outside auth_anon.c - the allocators, the parameter source,
      the big-integer library, the Diffie-Hellman helpers - is a field of
      the environment [Env], among them whether a helper handed a [NULL]
      operand reports a failure or has undefined behaviour. *)

From Stdlib Require Import ZArith Zpow_facts Lia List.
From Stdlib Require Import Strings.Byte.
From stdpp Require Import base option list gmap.
Import ListNotations.

Local Open Scope Z_scope.

(** ** Bytes and fixed-width integers *)

(** [opaque] is [unsigned char]. *)
Abbreviation opaque := byte (only parsing).

Definition Z_of_byte (b : opaque) : Z := Z.of_N (Byte.to_N b).

(** Conversion of an integer to [uint8]: the value is reduced modulo 256. *)
Definition byte_of_Z (z : Z) : opaque :=
  match Byte.of_N (Z.to_N (z mod 256)) with
  | Some b => b
  | None => x00
  end.

(** Conversion to [uint16], as on assignment to a [uint16] variable. *)
Definition to_uint16 (z : Z) : Z := z mod 65536.

(** [WRITEuint16 (num, data)]: the two bytes stored, most significant first. *)
Definition uint16_bytes (num : Z) : list opaque :=
  [byte_of_Z (Z.shiftr (to_uint16 num) 8); byte_of_Z (to_uint16 num)].

(** ** Big integers and their unsigned big-endian form *)

(** [gcry_mpi_get_nbits]: number of significant bits, 0 for the value 0. *)
Definition gcry_mpi_get_nbits (v : Z) : Z :=
  if v <=? 0 then 0 else Z.log2 v + 1.

(** The length [_gnutls_mpi_print (NULL, &n, a)] reports: the minimal number
    of bytes of the value. *)
Definition mpi_nbytes (v : Z) : nat := Z.to_nat ((gcry_mpi_get_nbits v + 7) / 8).

(** The [n] low-order bytes of [v], most significant first. *)
Fixpoint be_bytes (n : nat) (v : Z) : list opaque :=
  match n with
  | O => []
  | S n' => byte_of_Z (Z.shiftr v (8 * Z.of_nat n')) :: be_bytes n' v
  end.

(** The bytes [_gnutls_mpi_print (buf, &n, a)] stores: the minimal unsigned
    big-endian form. *)
Definition mpi_bytes (v : Z) : list opaque := be_bytes (mpi_nbytes v) v.

(** The value of an unsigned big-endian byte run. *)
Definition be_value (bs : list opaque) : Z :=
  fold_left (fun acc b => acc * 256 + Z_of_byte b) bs 0.

(** ** Error codes, credential types and the session state *)

Inductive gnutls_error : Set :=
  | GNUTLS_E_MEMORY_ERROR
  | GNUTLS_E_UNEXPECTED_PACKET_LENGTH
  | GNUTLS_E_MPI_SCAN_FAILED
  | GNUTLS_E_INVALID_REQUEST.

Inductive CredType : Set := GNUTLS_X509PKI | GNUTLS_ANON | GNUTLS_SRP.

#[global] Instance CredType_eq_dec : EqDecision CredType.
Proof. solve_decision. Defined.

(** The outcome of a call: a value ([return v]), an error code
    ([return GNUTLS_E_...]) or undefined behaviour (a read or write outside a
    buffer, the use of a released big integer). *)
Inductive result (A : Type) : Type :=
  | Ok (a : A)
  | Err (e : gnutls_error)
  | Fault.
Arguments Ok {A} a.
Arguments Err {A} e.
Arguments Fault {A}.

(** A big integer is held through a handle; [None] is the [NULL] pointer. *)
Definition MPI := nat.

(** [ANON_SERVER_AUTH_INFO_INT] and [ANON_CLIENT_AUTH_INFO_INT]. *)
Record ANON_AUTH_INFO_INT : Set := { dh_bits : Z }.

(** Modelled from the spec: the size of the negotiated-info record, whose type
    declaration (one [int]) is in auth_anon.h. *)
Definition sizeof_ANON_AUTH_INFO_INT : Z := 4.

Record gnutls_datum : Set := { data : option (list opaque); size : Z }.

(** The session: the fields of [state->gnutls_key] that the exchange uses,
    the anonymous credentials that [_gnutls_get_cred] finds
    ([anon_cred] is [cred->dh_bits], [None] when there are none) and the
    credential type of the negotiated key exchange, which
    [gnutls_auth_get_type] reports. *)
Record GNUTLS_STATE_INT : Type := {
  key : gnutls_datum;
  KEY : option MPI;
  client_Y : option MPI;
  client_g : option MPI;
  client_p : option MPI;
  dh_secret : option MPI;
  auth_info : option ANON_AUTH_INFO_INT;
  auth_info_type : option CredType;
  auth_info_size : Z;
  anon_cred : option Z;
  kx_cred_type : CredType
}.

Definition set_key v (s : GNUTLS_STATE_INT) : GNUTLS_STATE_INT :=
  {| key := v; KEY := KEY s; client_Y := client_Y s; client_g := client_g s;
     client_p := client_p s; dh_secret := dh_secret s; auth_info := auth_info s;
     auth_info_type := auth_info_type s; auth_info_size := auth_info_size s;
     anon_cred := anon_cred s; kx_cred_type := kx_cred_type s |}.

Definition set_KEY v (s : GNUTLS_STATE_INT) : GNUTLS_STATE_INT :=
  {| key := key s; KEY := v; client_Y := client_Y s; client_g := client_g s;
     client_p := client_p s; dh_secret := dh_secret s; auth_info := auth_info s;
     auth_info_type := auth_info_type s; auth_info_size := auth_info_size s;
     anon_cred := anon_cred s; kx_cred_type := kx_cred_type s |}.

Definition set_client_Y v (s : GNUTLS_STATE_INT) : GNUTLS_STATE_INT :=
  {| key := key s; KEY := KEY s; client_Y := v; client_g := client_g s;
     client_p := client_p s; dh_secret := dh_secret s; auth_info := auth_info s;
     auth_info_type := auth_info_type s; auth_info_size := auth_info_size s;
     anon_cred := anon_cred s; kx_cred_type := kx_cred_type s |}.

Definition set_client_g v (s : GNUTLS_STATE_INT) : GNUTLS_STATE_INT :=
  {| key := key s; KEY := KEY s; client_Y := client_Y s; client_g := v;
     client_p := client_p s; dh_secret := dh_secret s; auth_info := auth_info s;
     auth_info_type := auth_info_type s; auth_info_size := auth_info_size s;
     anon_cred := anon_cred s; kx_cred_type := kx_cred_type s |}.

Definition set_client_p v (s : GNUTLS_STATE_INT) : GNUTLS_STATE_INT :=
  {| key := key s; KEY := KEY s; client_Y := client_Y s; client_g := client_g s;
     client_p := v; dh_secret := dh_secret s; auth_info := auth_info s;
     auth_info_type := auth_info_type s; auth_info_size := auth_info_size s;
     anon_cred := anon_cred s; kx_cred_type := kx_cred_type s |}.

Definition set_dh_secret v (s : GNUTLS_STATE_INT) : GNUTLS_STATE_INT :=
  {| key := key s; KEY := KEY s; client_Y := client_Y s; client_g := client_g s;
     client_p := client_p s; dh_secret := v; auth_info := auth_info s;
     auth_info_type := auth_info_type s; auth_info_size := auth_info_size s;
     anon_cred := anon_cred s; kx_cred_type := kx_cred_type s |}.

Definition set_auth_info v (s : GNUTLS_STATE_INT) : GNUTLS_STATE_INT :=
  {| key := key s; KEY := KEY s; client_Y := client_Y s; client_g := client_g s;
     client_p := client_p s; dh_secret := dh_secret s; auth_info := v;
     auth_info_type := auth_info_type s; auth_info_size := auth_info_size s;
     anon_cred := anon_cred s; kx_cred_type := kx_cred_type s |}.

Definition set_auth_info_type v (s : GNUTLS_STATE_INT) : GNUTLS_STATE_INT :=
  {| key := key s; KEY := KEY s; client_Y := client_Y s; client_g := client_g s;
     client_p := client_p s; dh_secret := dh_secret s; auth_info := auth_info s;
     auth_info_type := v; auth_info_size := auth_info_size s;
     anon_cred := anon_cred s; kx_cred_type := kx_cred_type s |}.

Definition set_auth_info_size v (s : GNUTLS_STATE_INT) : GNUTLS_STATE_INT :=
  {| key := key s; KEY := KEY s; client_Y := client_Y s; client_g := client_g s;
     client_p := client_p s; dh_secret := dh_secret s; auth_info := auth_info s;
     auth_info_type := auth_info_type s; auth_info_size := v;
     anon_cred := anon_cred s; kx_cred_type := kx_cred_type s |}.

(** What a call runs on: the session, the store of live big integers, and the
    caller's variable that [opaque **data] points to. *)
Record world : Type := {
  state : GNUTLS_STATE_INT;
  mpis : gmap nat Z;
  data_out : option (list opaque)
}.

Definition set_state v (w : world) : world :=
  {| state := v; mpis := mpis w; data_out := data_out w |}.
Definition set_mpis v (w : world) : world :=
  {| state := state w; mpis := v; data_out := data_out w |}.
Definition set_data_out v (w : world) : world :=
  {| state := state w; mpis := mpis w; data_out := v |}.

(** ** The collaborators outside auth_anon.c

    Everything the four operations obtain from elsewhere: the allocator, the
    parameter source, the random exponent and the limits of the big-integer
    library. *)
Record Env : Type := {
  (** [DEFAULT_BITS], used when no credentials are configured *)
  DEFAULT_BITS : Z;
  (** [gnutls_get_dh_params]: the values of (g, p) for a bit size, each
      [None] when the pointer returned is [NULL] *)
  dh_params : Z -> option Z * option Z;
  (** the private exponent drawn by [gnutls_calc_dh_secret]; [None] when the
      generation fails *)
  rand_x : option Z;
  (** whether [gnutls_calc_dh_key] can produce its result *)
  dh_key_ok : bool;
  (** whether [gnutls_calc_dh_secret] and [gnutls_calc_dh_key] report a
      [NULL] operand as a failure, by returning [NULL]; when they do not,
      handing them one is undefined behaviour *)
  dh_null_is_failure : bool;
  (** the longest byte run [_gnutls_mpi_scan] accepts *)
  mpi_scan_limit : nat;
  (** whether [gnutls_malloc] of the negotiated-info record succeeds *)
  malloc_info_ok : bool;
  (** whether [gnutls_malloc] of the outbound message succeeds *)
  malloc_data_ok : bool;
  (** whether [gnutls_secure_malloc] of the key bytes succeeds *)
  secure_malloc_ok : bool;
  (** the content of memory fresh from the allocator *)
  junk : opaque
}.

(** ** The monad: state passing with early return *)

Definition M (A : Type) : Type := world -> result A * world.

#[global] Instance M_ret : MRet M := fun A a w => (Ok a, w).
#[global] Instance M_bind : MBind M := fun A B f m w =>
  match m w with
  | (Ok a, w') => f a w'
  | (Err e, w') => (Err e, w')
  | (Fault, w') => (Fault, w')
  end.

(** [return e] with an error code. *)
Definition throw {A} (e : gnutls_error) : M A := fun w => (Err e, w).
Definition fault {A} : M A := fun w => (Fault, w).
Definition gets {A} (f : GNUTLS_STATE_INT -> A) : M A := fun w => (Ok (f (state w)), w).
Definition modify (f : GNUTLS_STATE_INT -> GNUTLS_STATE_INT) : M unit :=
  fun w => (Ok tt, set_state (f (state w)) w).

(** ** The store of big integers *)

Definition mpi_new (v : Z) : M MPI := fun w =>
  let h := fresh (dom (mpis w)) in
  (Ok h, set_mpis (<[h:=v]> (mpis w)) w).

(** The value behind a pointer; [NULL] and released integers have none. *)
Definition mpi_val (a : option MPI) : M Z := fun w =>
  match a with
  | Some h => match mpis w !! h with
              | Some v => (Ok v, w)
              | None => (Fault, w)
              end
  | None => (Fault, w)
  end.

(** [_gnutls_mpi_release (&x)] does nothing on [NULL]; the caller's variable is
    [NULL] afterwards. *)
Definition _gnutls_mpi_release (x : option MPI) : M unit := fun w =>
  match x with
  | None => (Ok tt, w)
  | Some h => match mpis w !! h with
              | Some _ => (Ok tt, set_mpis (delete h (mpis w)) w)
              | None => (Fault, w)
              end
  end.

(** [_gnutls_mpi_release (&state->gnutls_key->f)]. *)
Definition release_field (get : GNUTLS_STATE_INT -> option MPI)
    (set : option MPI -> GNUTLS_STATE_INT -> GNUTLS_STATE_INT) : M unit :=
  x ← gets get; _gnutls_mpi_release x;; modify (set None).

(** [_gnutls_mpi_alloc]-like helper: a [NULL] result allocates nothing. *)
Definition mpi_new_opt (v : option Z) : M (option MPI) :=
  match v with
  | Some v => h ← mpi_new v; mret (Some h)
  | None => mret None
  end.

(** ** Buffers *)

(** Modelled from the spec: [READuint16] of gnutls_num.h, a 2-byte big-endian
    unsigned integer read at [&data[i]]. *)
Definition READuint16 (data : list opaque) (i : Z) : M Z :=
  match data !! Z.to_nat i, data !! S (Z.to_nat i) with
  | Some hi, Some lo => mret (Z_of_byte hi * 256 + Z_of_byte lo)
  | _, _ => fault
  end.

(** The range of [int], the type of [data_size]. *)
Abbreviation INT_MIN := (-2147483648) (only parsing).
Abbreviation INT_MAX := 2147483647 (only parsing).

(** [len -= x] on an [int] [len]. What the callers subtract is 2 or a
    [uint16], never a negative number, so the difference of two values of
    the program leaves the range of [int] only below [INT_MIN]: a signed
    overflow, on which the two's-complement [int] of the compiled code wraps
    around. *)
Definition int_sub (len x : Z) : Z :=
  if len - x <? INT_MIN then len - x + 4294967296 else len - x.

(** Modelled from the spec: [DECR_LEN] of gnutls_int.h, the remaining-length
    check that precedes every read. It subtracts, on the [int] [data_size],
    and returns [GNUTLS_E_UNEXPECTED_PACKET_LENGTH] when the result is
    negative. *)
Definition DECR_LEN (len x : Z) : M Z :=
  let len := int_sub len x in
  if len <? 0 then throw GNUTLS_E_UNEXPECTED_PACKET_LENGTH else mret len.

(** Modelled from the spec: [_gnutls_mpi_scan (&r, &data[off], &n)] of
    gnutls_gcry.h. It reads [n] bytes as an unsigned big-endian value; a run
    of length 0 is the value 0; a run above the library's limit is refused.
    The result is the new big integer, [None] on refusal. *)
Definition _gnutls_mpi_scan (E : Env) (data : list opaque) (off n : Z) : M (option MPI) :=
  if decide (Z.to_nat off + Z.to_nat n ≤ length data)%nat then
    let bs := take (Z.to_nat n) (drop (Z.to_nat off) data) in
    if decide (length bs ≤ mpi_scan_limit E)%nat
    then h ← mpi_new (be_value bs); mret (Some h)
    else mret None
  else fault.

(** [gnutls_malloc (n)] of a byte buffer. *)
Definition gnutls_malloc (E : Env) (n : Z) : option (list opaque) :=
  if malloc_data_ok E then Some (replicate (Z.to_nat n) (junk E)) else None.

(** Bytes written at [&buf[off]]. *)
Definition store_bytes (buf : list opaque) (off : nat) (bs : list opaque)
    : option (list opaque) :=
  if decide (off + length bs ≤ length buf)%nat
  then Some (take off buf ++ bs ++ drop (off + length bs) buf)
  else None.

(** The assignment to the caller's pointer, and its value. *)
Definition put_data_out (v : option (list opaque)) : M unit :=
  fun w => (Ok tt, set_data_out v w).
Definition get_data_out : M (option (list opaque)) :=
  fun w => (Ok (data_out w), w).

(** A write through the pointer that [data] points to. *)
Definition store_out (off : Z) (bs : list opaque) : M unit := fun w =>
  match data_out w with
  | Some buf => match store_bytes buf (Z.to_nat off) bs with
                | Some buf' => (Ok tt, set_data_out (Some buf') w)
                | None => (Fault, w)
                end
  | None => (Fault, w)
  end.

(** [_gnutls_mpi_print (NULL, &n, a)]: the length only. *)
Definition mpi_print_size (a : option MPI) : M Z :=
  v ← mpi_val a; mret (Z.of_nat (mpi_nbytes v)).

(** [_gnutls_mpi_print (&buf[off], &n, a)] on the outbound buffer. *)
Definition mpi_print_out (off : Z) (a : option MPI) : M unit :=
  v ← mpi_val a; store_out off (mpi_bytes v).

(** [WRITEuint16 (num, &buf[off])] on the outbound buffer. *)
Definition WRITEuint16 (num : Z) (off : Z) : M unit :=
  store_out off (uint16_bytes num).

(** ** The Diffie-Hellman collaborators (gnutls_dh.c) *)

(** Modelled from the spec: [gnutls_get_dh_params (&p, bits)], the parameter
    source. It returns g and stores p, both fresh big integers. *)
Definition gnutls_get_dh_params (E : Env) (bits : Z) : M (option MPI * option MPI) :=
  p ← mpi_new_opt (snd (dh_params E bits));
  g ← mpi_new_opt (fst (dh_params E bits));
  mret (g, p).

(** A collaborator handed a [NULL] operand. The operations pass their
    operands on unchecked, and what the collaborator then does is not in
    auth_anon.c: it reports a failure or the call is undefined behaviour, as
    the environment says. *)
Definition null_operand {A} (E : Env) (failure : A) : M A :=
  if dh_null_is_failure E then mret failure else fault.

(** Modelled from the spec: [gnutls_calc_dh_secret (&x, g, p)], the key-pair
    generator: a private exponent x and the public value g^x mod p, both set
    or, when the generation fails, both [NULL]. The result is (X, x). *)
Definition gnutls_calc_dh_secret (E : Env) (g p : option MPI)
    : M (option MPI * option MPI) :=
  match g, p with
  | Some _, Some _ =>
      match rand_x E with
      | Some xv =>
          gv ← mpi_val g;
          pv ← mpi_val p;
          x ← mpi_new xv;
          X ← mpi_new (gv ^ xv mod pv);
          mret (Some X, Some x)
      | None => mret (None, None)
      end
  | _, _ => null_operand E (None, None)
  end.

(** Modelled from the spec: [gnutls_calc_dh_key (f, x, prime)], the
    shared-secret deriver: f^x mod prime, [NULL] when the derivation
    fails. *)
Definition gnutls_calc_dh_key (E : Env) (f x prime : option MPI) : M (option MPI) :=
  match f, x, prime with
  | Some _, Some _, Some _ =>
      if dh_key_ok E then
        fv ← mpi_val f;
        xv ← mpi_val x;
        pv ← mpi_val prime;
        k ← mpi_new (fv ^ xv mod pv);
        mret (Some k)
      else mret None
  | _, _, _ => null_operand E None
  end.

(** Modelled from the spec: [gnutls_auth_get_type (state)], the credential
    type of the key exchange the session negotiated. *)
Definition gnutls_auth_get_type : M CredType := gets kx_cred_type.

(** [_gnutls_get_cred (state->gnutls_key, GNUTLS_ANON, NULL)] followed by the
    choice of the bit size. *)
Definition configured_bits (E : Env) : M Z :=
  cred ← gets anon_cred;
  match cred with
  | None => mret (DEFAULT_BITS E)
  | Some dh_bits => mret dh_bits
  end.

(** [gnutls_malloc (sizeof (ANON_..._AUTH_INFO_INT))]: the record comes with
    unspecified content. *)
Definition gnutls_malloc_info (E : Env) : option ANON_AUTH_INFO_INT :=
  if malloc_info_ok E then Some {| dh_bits := Z_of_byte (junk E) |} else None.

(** [gnutls_secure_malloc (n)]. *)
Definition gnutls_secure_malloc (E : Env) (n : Z) : option (list opaque) :=
  if secure_malloc_ok E then Some (replicate (Z.to_nat n) (junk E)) else None.

(** [((ANON_..._AUTH_INFO) state->gnutls_key->auth_info)->dh_bits = bits]. *)
Definition set_dh_bits (bits : Z) : M unit :=
  info ← gets auth_info;
  match info with
  | None => fault
  | Some _ => modify (set_auth_info (Some {| dh_bits := bits |}))
  end.

(** The statement
    [if (_gnutls_mpi_scan (&state->gnutls_key->f, &data[off], &n) != 0 ||
         state->gnutls_key->f == NULL) return GNUTLS_E_MPI_SCAN_FAILED;]. *)
Definition scan_field (set : option MPI -> GNUTLS_STATE_INT -> GNUTLS_STATE_INT)
    (E : Env) (data : list opaque) (off n : Z) : M unit :=
  r ← _gnutls_mpi_scan E data off n;
  match r with
  | None => throw GNUTLS_E_MPI_SCAN_FAILED
  | Some h => modify (set (Some h))
  end.

(** [ret = f (...)]: the callee's return value, error code included, becomes
    a value of the caller. *)
Definition call {A} (m : M A) : M (gnutls_error + A) := fun w =>
  match m w with
  | (Ok a, w') => (Ok (inr a), w')
  | (Err e, w') => (Ok (inl e), w')
  | (Fault, w') => (Fault, w')
  end.

(** ** The operations of auth_anon.c *)

(** [_gnutls_generate_key]: copies the big integer [KEY] to [key]. *)
Definition _gnutls_generate_key (E : Env) : M Z :=
  K ← gets KEY;
  n ← mpi_print_size K;
  modify (fun s => set_key {| data := data (key s); size := n |} s);;
  modify (fun s => set_key {| data := gnutls_secure_malloc E n; size := n |} s);;
  buf ← gets (fun s => data (key s));
  match buf with
  | None => throw GNUTLS_E_MEMORY_ERROR
  | Some buf =>
      v ← mpi_val K;
      match store_bytes buf 0 (mpi_bytes v) with
      | None => fault
      | Some buf' =>
          modify (set_key {| data := Some buf'; size := Z.of_nat (length (mpi_bytes v)) |});;
          mret 0
      end
  end.

Definition gen_anon_server_kx (E : Env) : M Z :=
  bits ← configured_bits E;
  '(g, p) ← gnutls_get_dh_params E bits;
  if bool_decide (g = None) || bool_decide (p = None)
  then throw GNUTLS_E_MEMORY_ERROR
  else
  info ← gets auth_info;
  match info with
  | None =>
      modify (set_auth_info (gnutls_malloc_info E));;
      info ← gets auth_info;
      if bool_decide (info = None) then throw GNUTLS_E_MEMORY_ERROR
      else
        modify (set_auth_info_type (Some GNUTLS_ANON));;
        modify (set_auth_info_size sizeof_ANON_AUTH_INFO_INT)
  | Some _ =>
      ty ← gnutls_auth_get_type;
      stored ← gets auth_info_type;
      if bool_decide (Some ty ≠ stored) then throw GNUTLS_E_INVALID_REQUEST
      else mret tt
  end;;
  pv ← mpi_val p;
  set_dh_bits (gcry_mpi_get_nbits pv);;
  '(X, x) ← gnutls_calc_dh_secret E g p;
  if bool_decide (X = None) || bool_decide (x = None)
  then
    _gnutls_mpi_release g;;
    _gnutls_mpi_release p;;
    _gnutls_mpi_release x;;
    _gnutls_mpi_release X;;
    throw GNUTLS_E_MEMORY_ERROR
  else
  modify (set_dh_secret x);;
  n_g ← mpi_print_size g;
  n_p ← mpi_print_size p;
  n_X ← mpi_print_size X;
  put_data_out (gnutls_malloc E (n_g + n_p + n_X + 6));;
  buf ← get_data_out;
  if bool_decide (buf = None)
  then
    _gnutls_mpi_release X;;
    _gnutls_mpi_release g;;
    _gnutls_mpi_release p;;
    throw GNUTLS_E_MEMORY_ERROR
  else
  let data_p := 0 in
  mpi_print_out (data_p + 2) p;;
  _gnutls_mpi_release p;;
  WRITEuint16 n_p data_p;;
  let data_g := data_p + (2 + n_p) in
  mpi_print_out (data_g + 2) g;;
  _gnutls_mpi_release g;;
  WRITEuint16 n_g data_g;;
  let data_X := data_g + (2 + n_g) in
  mpi_print_out (data_X + 2) X;;
  _gnutls_mpi_release X;;
  WRITEuint16 n_X data_X;;
  mret (n_p + n_g + n_X + 6).

Definition gen_anon_client_kx (E : Env) : M Z :=
  cg ← gets client_g;
  cp ← gets client_p;
  '(X, x) ← gnutls_calc_dh_secret E cg cp;
  if bool_decide (X = None) then throw GNUTLS_E_MEMORY_ERROR
  else
  n_X ← mpi_print_size X;
  put_data_out (gnutls_malloc E (n_X + 2));;
  buf ← get_data_out;
  if bool_decide (buf = None) then throw GNUTLS_E_MEMORY_ERROR
  else
  mpi_print_out 2 X;;
  store_out 0 [byte_of_Z 1];;
  _gnutls_mpi_release X;;
  WRITEuint16 n_X 0;;
  cY ← gets client_Y;
  cp ← gets client_p;
  K ← gnutls_calc_dh_key E cY x cp;
  modify (set_KEY K);;
  if bool_decide (K = None) then throw GNUTLS_E_MEMORY_ERROR
  else
  release_field client_Y set_client_Y;;
  release_field client_p set_client_p;;
  release_field client_g set_client_g;;
  ret ← call (_gnutls_generate_key E);
  release_field KEY set_KEY;;
  match ret with
  | inl e => throw e
  | inr _ => mret (n_X + 2)
  end.

Definition proc_anon_server_kx (E : Env) (data : list opaque) (data_size : Z) : M Z :=
  let i := 0 in
  data_size ← DECR_LEN data_size 2;
  n_p ← READuint16 data i;
  let i := i + 2 in
  data_size ← DECR_LEN data_size n_p;
  let data_p := i in
  let i := i + n_p in
  if i >? data_size then throw GNUTLS_E_UNEXPECTED_PACKET_LENGTH
  else
  data_size ← DECR_LEN data_size 2;
  n_g ← READuint16 data i;
  let i := i + 2 in
  data_size ← DECR_LEN data_size n_g;
  let data_g := i in
  let i := i + n_g in
  data_size ← DECR_LEN data_size 2;
  n_Y ← READuint16 data i;
  let i := i + 2 in
  data_size ← DECR_LEN data_size n_Y;
  let data_Y := i in
  let i := i + n_Y in
  let _n_Y := n_Y in
  let _n_g := n_g in
  let _n_p := n_p in
  scan_field set_client_Y E data data_Y _n_Y;;
  scan_field set_client_g E data data_g _n_g;;
  scan_field set_client_p E data data_p _n_p;;
  info ← gets auth_info;
  match info with
  | None => modify (set_auth_info (gnutls_malloc_info E))
  | Some _ =>
      ty ← gnutls_auth_get_type;
      stored ← gets auth_info_type;
      if bool_decide (Some ty ≠ stored) then throw GNUTLS_E_INVALID_REQUEST
      else mret tt
  end;;
  info ← gets auth_info;
  if bool_decide (info = None) then throw GNUTLS_E_MEMORY_ERROR
  else
  cp ← gets client_p;
  pv ← mpi_val cp;
  set_dh_bits (gcry_mpi_get_nbits pv);;
  modify (set_auth_info_size sizeof_ANON_AUTH_INFO_INT);;
  modify (set_auth_info_type (Some GNUTLS_ANON));;
  mret 0.

Definition proc_anon_client_kx (E : Env) (data : list opaque) (data_size : Z) : M Z :=
  bits ← configured_bits E;
  data_size ← DECR_LEN data_size 2;
  n_Y ← READuint16 data 0;
  let _n_Y := n_Y in
  data_size ← DECR_LEN data_size n_Y;
  scan_field set_client_Y E data 2 _n_Y;;
  '(g, p) ← gnutls_get_dh_params E bits;
  if bool_decide (g = None) then throw GNUTLS_E_MEMORY_ERROR
  else
  cY ← gets client_Y;
  x ← gets dh_secret;
  K ← gnutls_calc_dh_key E cY x p;
  modify (set_KEY K);;
  if bool_decide (K = None) then throw GNUTLS_E_MEMORY_ERROR
  else
  release_field client_Y set_client_Y;;
  release_field dh_secret set_dh_secret;;
  _gnutls_mpi_release p;;
  _gnutls_mpi_release g;;
  ret ← call (_gnutls_generate_key E);
  release_field KEY set_KEY;;
  match ret with
  | inl e => throw e
  | inr _ => mret 0
  end.

(** ** The wire format *)

(** One length-prefixed field: [len | bytes], the length on 2 bytes. *)
Definition wire_field (bs : list opaque) : list opaque :=
  uint16_bytes (Z.of_nat (length bs)) ++ bs.

(** The server exchange message: modulus, generator, public value. *)
Definition server_kx_message (P G Y : list opaque) : list opaque :=
  wire_field P ++ wire_field G ++ wire_field Y.

(** The client exchange message: the public value. *)
Definition client_kx_message (Y : list opaque) : list opaque := wire_field Y.

(** ** A run of the protocol *)

(** The four operations in protocol order: server-generate, client-process of
    the server message, client-generate, server-process of the client message.
    The result is the key material of the client and of the server, [None]
    when an operation fails. *)
Definition anon_kx_exchange (Es Ec : Env) (ws wc : world)
    : option (gnutls_datum * gnutls_datum) :=
  match gen_anon_server_kx Es ws with
  | (Ok n1, ws1) =>
      match data_out ws1 with
      | Some m1 =>
          match proc_anon_server_kx Ec m1 n1 wc with
          | (Ok _, wc1) =>
              match gen_anon_client_kx Ec wc1 with
              | (Ok n2, wc2) =>
                  match data_out wc2 with
                  | Some m2 =>
                      match proc_anon_client_kx Es m2 n2 ws1 with
                      | (Ok _, ws2) => Some (key (state wc2), key (state ws2))
                      | _ => None
                      end
                  | None => None
                  end
              | _ => None
              end
          | _ => None
          end
      | None => None
      end
  | _ => None
  end.

(** ** Outcomes of a run *)

(** [wp m w Q]: running [m] from [w] ends in an outcome and a world that
    satisfy [Q]. *)
Definition wp {A} (m : M A) (w : world) (Q : result A -> world -> Prop) : Prop :=
  Q (m w).1 (m w).2.

(** The bit size that [gen_anon_server_kx] asks the parameter source for. *)
Definition bits_of (E : Env) (w : world) : Z :=
  match anon_cred (state w) with
  | None => DEFAULT_BITS E
  | Some dh_bits => dh_bits
  end.

(** ** Concrete sessions, collaborators and messages *)

(** A session on which no exchange has run yet. *)
Definition fresh_state : GNUTLS_STATE_INT :=
  {| key := {| data := None; size := 0 |}; KEY := None;
     client_Y := None; client_g := None; client_p := None; dh_secret := None;
     auth_info := None; auth_info_type := None; auth_info_size := 0;
     anon_cred := None; kx_cred_type := GNUTLS_ANON |}.

Definition fresh_world : world :=
  {| state := fresh_state; mpis := ∅; data_out := None |}.

(** A session that already carries the negotiated info of a certificate
    exchange while the anonymous exchange is the one negotiated. *)
Definition x509_bound_state : GNUTLS_STATE_INT :=
  set_auth_info_size 4
    (set_auth_info_type (Some GNUTLS_X509PKI)
       (set_auth_info (Some {| dh_bits := 0 |}) fresh_state)).

Definition x509_bound_world : world :=
  {| state := x509_bound_state; mpis := ∅; data_out := None |}.

(** The server after [gen_anon_server_kx]: the private exponent 3 is stored,
    the negotiated info is set. *)
Definition awaiting_peer_world : world :=
  {| state := set_dh_secret (Some 0%nat)
                (set_auth_info_size 4
                   (set_auth_info_type (Some GNUTLS_ANON)
                      (set_auth_info (Some {| dh_bits := 5 |}) fresh_state)));
     mpis := {[ 0%nat := 3 ]};
     data_out := None |}.

(** The client after [proc_anon_server_kx] on [small_message]: p = 23, g = 5
    and the peer value 8 are stored. *)
Definition have_params_world : world :=
  {| state := set_client_p (Some 2%nat)
                (set_client_g (Some 1%nat)
                   (set_client_Y (Some 0%nat)
                      (set_auth_info_size 4
                         (set_auth_info_type (Some GNUTLS_ANON)
                            (set_auth_info (Some {| dh_bits := 5 |}) fresh_state)))));
     mpis := {[ 0%nat := 8; 1%nat := 5; 2%nat := 23 ]};
     data_out := None |}.

(** A parameter source with one (g, p) for every bit size, an exponent, no
    failing allocation, and Diffie-Hellman helpers that report a [NULL]
    operand as a failure. *)
Definition example_env (g p x : Z) : Env :=
  {| DEFAULT_BITS := 1024; dh_params := fun _ => (Some g, Some p);
     rand_x := Some x; dh_key_ok := true; dh_null_is_failure := true;
     mpi_scan_limit := 4096;
     malloc_info_ok := true; malloc_data_ok := true; secure_malloc_ok := true;
     junk := x00 |}.

(** The collaborators of [example_env], except that [gnutls_calc_dh_key]
    returns [NULL]. *)
Definition no_dh_key_env (g p x : Z) : Env :=
  {| DEFAULT_BITS := 1024; dh_params := fun _ => (Some g, Some p);
     rand_x := Some x; dh_key_ok := false; dh_null_is_failure := true;
     mpi_scan_limit := 4096;
     malloc_info_ok := true; malloc_data_ok := true; secure_malloc_ok := true;
     junk := x00 |}.

(** The collaborators of [example_env], except that the parameter source
    returns [NULL]. *)
Definition no_params_env : Env :=
  {| DEFAULT_BITS := 1024; dh_params := fun _ => (None, None);
     rand_x := Some 3; dh_key_ok := true; dh_null_is_failure := true;
     mpi_scan_limit := 4096;
     malloc_info_ok := true; malloc_data_ok := true; secure_malloc_ok := true;
     junk := x00 |}.

(** The Mersenne prime 2^61 - 1, a modulus of 8 bytes. *)
Definition M61 : Z := 2 ^ 61 - 1.

(** The server exchange message for p = 2^61 - 1, g = 2 and the public value
    2^65 mod p = 16. *)
Definition short_Y_message : list opaque :=
  server_kx_message (mpi_bytes M61) (mpi_bytes 2) (mpi_bytes 16).

(** The server exchange message for p = 23, g = 5 and the public value 8. *)
Definition small_message : list opaque :=
  server_kx_message (mpi_bytes 23) (mpi_bytes 5) (mpi_bytes 8).

(** The server exchange message with modulus 23 and a generator and a public
    value of length 0. *)
Definition empty_fields_message : list opaque :=
  server_kx_message (mpi_bytes 23) [] [].

(** The client exchange message for the public value 8. *)
Definition small_client_message : list opaque := client_kx_message (mpi_bytes 8).

(** ** The pointers of the session *)

(** The fields of [state->gnutls_key] that hold a big integer. *)
Inductive mpi_field : Set :=
  f_KEY | f_client_Y | f_client_g | f_client_p | f_dh_secret.

Definition field_of (f : mpi_field) (s : GNUTLS_STATE_INT) : option MPI :=
  match f with
  | f_KEY => KEY s
  | f_client_Y => client_Y s
  | f_client_g => client_g s
  | f_client_p => client_p s
  | f_dh_secret => dh_secret s
  end.

(** No pointer of the session dangles: every field that is not [NULL] points
    to a live big integer, and no two fields point to the same one. *)
Definition no_dangling (w : world) : Prop :=
  (forall f h, field_of f (state w) = Some h -> is_Some (mpis w !! h)) /\
  (forall f1 f2 h, field_of f1 (state w) = Some h ->
                   field_of f2 (state w) = Some h -> f1 = f2).

(** ** Sequences of calls *)

(** A call of one of the four operations, with its arguments. *)
Inductive kx_call : Type :=
  | call_gen_anon_server_kx
  | call_gen_anon_client_kx
  | call_proc_anon_server_kx (data : list opaque) (data_size : Z)
  | call_proc_anon_client_kx (data : list opaque) (data_size : Z).

Definition run_call (E : Env) (c : kx_call) : M Z :=
  match c with
  | call_gen_anon_server_kx => gen_anon_server_kx E
  | call_gen_anon_client_kx => gen_anon_client_kx E
  | call_proc_anon_server_kx data data_size => proc_anon_server_kx E data data_size
  | call_proc_anon_client_kx data data_size => proc_anon_client_kx E data data_size
  end.

(** The calls one after the other on the same session, each with the
    collaborators of its moment; an error code returned by one does not stop
    the next. *)
Fixpoint run_calls (cs : list (Env * kx_call)) : M unit :=
  match cs with
  | [] => mret tt
  | (E, c) :: cs => _ ← call (run_call E c); run_calls cs
  end.

(** The caller's side of a decoder call: [data_size] is an [int] on which
    the first length check does not overflow, and [data] holds at least that
    many bytes. *)
Definition sized (c : kx_call) : Prop :=
  match c with
  | call_proc_anon_server_kx data data_size
  | call_proc_anon_client_kx data data_size =>
      INT_MIN + 2 <= data_size <= INT_MAX /\
      data_size <= Z.of_nat (length data)
  | _ => True
  end.

(** The big integers that a call hands to [gnutls_calc_dh_secret] and
    [gnutls_calc_dh_key] are there: [gen_anon_client_kx] finds g, p and the
    peer's value in the session; [proc_anon_client_kx] finds the private
    exponent there and gets a modulus with the generator.
    [gen_anon_server_kx] checks its operands itself and
    [proc_anon_server_kx] calls neither. *)
Definition operands_present (E : Env) (c : kx_call) (w : world) : Prop :=
  match c with
  | call_gen_anon_client_kx =>
      client_g (state w) <> None /\ client_p (state w) <> None /\
      client_Y (state w) <> None
  | call_proc_anon_client_kx _ _ =>
      dh_secret (state w) <> None /\
      ((dh_params E (bits_of E w)).1 <> None ->
       (dh_params E (bits_of E w)).2 <> None)
  | _ => True
  end.

(** What a sequence of calls asks of its callers, call by call, on the
    session as the calls before have left it: a decoder call is [sized], and
    a call has its operands unless the collaborators of its moment report a
    [NULL] operand as a failure. *)
Fixpoint supplied (cs : list (Env * kx_call)) (w : world) : Prop :=
  match cs with
  | [] => True
  | (E, c) :: cs =>
      sized c /\
      (dh_null_is_failure E = true \/ operands_present E c w) /\
      supplied cs (run_call E c w).2
  end.

(** ** More collaborators and messages *)

(** The collaborators of [example_env], except that handing a [NULL] operand
    to [gnutls_calc_dh_secret] or [gnutls_calc_dh_key] is undefined
    behaviour. *)
Definition strict_env (g p x : Z) : Env :=
  {| DEFAULT_BITS := 1024; dh_params := fun _ => (Some g, Some p);
     rand_x := Some x; dh_key_ok := true; dh_null_is_failure := false;
     mpi_scan_limit := 4096;
     malloc_info_ok := true; malloc_data_ok := true; secure_malloc_ok := true;
     junk := x00 |}.

(** The collaborators of [example_env], except that the key pair cannot be
    generated. *)
Definition no_keypair_env (g p : Z) : Env :=
  {| DEFAULT_BITS := 1024; dh_params := fun _ => (Some g, Some p);
     rand_x := None; dh_key_ok := true; dh_null_is_failure := true;
     mpi_scan_limit := 4096;
     malloc_info_ok := true; malloc_data_ok := true; secure_malloc_ok := true;
     junk := x00 |}.

(** The collaborators of [example_env], except that [gnutls_malloc] of a
    message buffer fails. *)
Definition no_buffer_env (g p x : Z) : Env :=
  {| DEFAULT_BITS := 1024; dh_params := fun _ => (Some g, Some p);
     rand_x := Some x; dh_key_ok := true; dh_null_is_failure := true;
     mpi_scan_limit := 4096;
     malloc_info_ok := true; malloc_data_ok := false; secure_malloc_ok := true;
     junk := x00 |}.

(** The collaborators of [example_env], except that [gnutls_malloc] of the
    negotiated-info record fails. *)
Definition no_info_env (g p x : Z) : Env :=
  {| DEFAULT_BITS := 1024; dh_params := fun _ => (Some g, Some p);
     rand_x := Some x; dh_key_ok := true; dh_null_is_failure := true;
     mpi_scan_limit := 4096;
     malloc_info_ok := false; malloc_data_ok := true; secure_malloc_ok := true;
     junk := x00 |}.

(** The collaborators of [example_env], except that [gnutls_secure_malloc]
    fails. *)
Definition no_secure_env (g p x : Z) : Env :=
  {| DEFAULT_BITS := 1024; dh_params := fun _ => (Some g, Some p);
     rand_x := Some x; dh_key_ok := true; dh_null_is_failure := true;
     mpi_scan_limit := 4096;
     malloc_info_ok := true; malloc_data_ok := true; secure_malloc_ok := false;
     junk := x00 |}.

(** A session whose shared secret 18 is computed and not yet copied out. *)
Definition have_KEY_world : world :=
  {| state := set_KEY (Some 0%nat) fresh_state;
     mpis := {[ 0%nat := 18 ]};
     data_out := None |}.


(** * Properties *)

(** ** Bytes and big-endian values *)

Lemma Z_of_byte_range (b : opaque) : 0 <= Z_of_byte b < 256.
Proof.
  unfold Z_of_byte. pose proof (Byte.to_N_bounded b). lia.
Qed.

Lemma Z_of_byte_of_Z (z : Z) : Z_of_byte (byte_of_Z z) = z mod 256.
Proof.
  unfold Z_of_byte, byte_of_Z.
  assert (Hr : 0 <= z mod 256 < 256) by (apply Z.mod_pos_bound; lia).
  destruct (Byte.of_N (Z.to_N (z mod 256))) as [b|] eqn:Hb.
  - apply Byte.to_of_N in Hb. rewrite Hb. lia.
  - apply Byte.of_N_None_iff in Hb. lia.
Qed.

Lemma byte_of_Z_of_byte (b : opaque) : byte_of_Z (Z_of_byte b) = b.
Proof.
  unfold byte_of_Z. rewrite Z.mod_small by apply Z_of_byte_range.
  unfold Z_of_byte. rewrite N2Z.id, Byte.of_to_N. reflexivity.
Qed.

Lemma length_be_bytes (n : nat) (v : Z) : length (be_bytes n v) = n.
Proof. induction n; simpl; congruence. Qed.

Lemma length_mpi_bytes (v : Z) : length (mpi_bytes v) = mpi_nbytes v.
Proof. apply length_be_bytes. Qed.

Lemma length_uint16_bytes (n : Z) : length (uint16_bytes n) = 2%nat.
Proof. reflexivity. Qed.

Lemma be_value_acc (bs : list opaque) (acc : Z) :
  fold_left (fun a b => a * 256 + Z_of_byte b) bs acc
  = acc * 256 ^ Z.of_nat (length bs) + be_value bs.
Proof.
  unfold be_value. revert acc.
  induction bs as [|b bs IH]; intros acc.
  - simpl. lia.
  - cbn [fold_left length]. rewrite IH, (IH (0 * 256 + Z_of_byte b)).
    rewrite Nat2Z.inj_succ, Z.pow_succ_r by lia. ring.
Qed.

Lemma be_value_cons (b : opaque) (bs : list opaque) :
  be_value (b :: bs) = Z_of_byte b * 256 ^ Z.of_nat (length bs) + be_value bs.
Proof.
  unfold be_value at 1. cbn [fold_left]. rewrite be_value_acc. ring.
Qed.

Lemma be_value_be_bytes (n : nat) (v : Z) :
  0 <= v -> be_value (be_bytes n v) = v mod 256 ^ Z.of_nat n.
Proof.
  intros Hv. induction n as [|n IH].
  - simpl. rewrite Z.mod_1_r. reflexivity.
  - cbn [be_bytes]. rewrite be_value_cons, length_be_bytes, IH, Z_of_byte_of_Z.
    rewrite Z.shiftr_div_pow2 by lia.
    rewrite Nat2Z.inj_succ, Z.pow_succ_r by lia.
    replace (2 ^ (8 * Z.of_nat n)) with (256 ^ Z.of_nat n)
      by (rewrite Z.pow_mul_r by lia; reflexivity).
    assert (Hp : 0 < 256 ^ Z.of_nat n) by (apply Z.pow_pos_nonneg; lia).
    rewrite (Z.mul_comm 256), Z.rem_mul_r by lia. ring.
Qed.

Lemma mpi_nbytes_bound (v : Z) : 0 <= v -> v < 256 ^ Z.of_nat (mpi_nbytes v).
Proof.
  intros Hv. unfold mpi_nbytes, gcry_mpi_get_nbits.
  destruct (v <=? 0) eqn:Hz.
  - apply Z.leb_le in Hz. replace v with 0 by lia. simpl. lia.
  - apply Z.leb_gt in Hz.
    pose proof (Z.log2_nonneg v) as Hl.
    rewrite Z2Nat.id by (apply Z.div_pos; lia).
    replace 256 with (2 ^ 8) by reflexivity.
    rewrite <- Z.pow_mul_r by (try apply Z.div_pos; lia).
    destruct (Z.log2_spec v Hz) as [_ Hlt].
    eapply Z.lt_le_trans; [exact Hlt|].
    apply Z.pow_le_mono_r; [lia|].
    pose proof (Z.mul_div_le (Z.log2 v + 1 + 7) 8).
    pose proof (Z.mod_pos_bound (Z.log2 v + 1 + 7) 8).
    pose proof (Z.div_mod (Z.log2 v + 1 + 7) 8). lia.
Qed.

(** Printing a big integer and scanning the bytes gives the value back. *)
Lemma be_value_mpi_bytes (v : Z) : 0 <= v -> be_value (mpi_bytes v) = v.
Proof.
  intros Hv. unfold mpi_bytes. rewrite be_value_be_bytes by assumption.
  apply Z.mod_small. split; [assumption | apply mpi_nbytes_bound; assumption].
Qed.

Lemma be_value_nil : be_value [] = 0.
Proof. reflexivity. Qed.

Lemma to_uint16_small (n : Z) : 0 <= n < 65536 -> to_uint16 n = n.
Proof. intros H. unfold to_uint16. apply Z.mod_small. exact H. Qed.

(** The two bytes of [WRITEuint16] read back as the number written. *)
Lemma uint16_bytes_value (n : Z) :
  0 <= n < 65536 ->
  Z_of_byte (byte_of_Z (Z.shiftr (to_uint16 n) 8)) * 256
  + Z_of_byte (byte_of_Z (to_uint16 n)) = n.
Proof.
  intros H. rewrite to_uint16_small by exact H.
  rewrite !Z_of_byte_of_Z, Z.shiftr_div_pow2 by lia.
  change (2 ^ 8) with 256.
  rewrite (Z.mod_small (n / 256)).
  - pose proof (Z.div_mod n 256). lia.
  - split; [apply Z.div_pos; lia | apply Z.div_lt_upper_bound; lia].
Qed.

(** ** The wire format *)

Lemma length_wire_field (bs : list opaque) :
  length (wire_field bs) = (2 + length bs)%nat.
Proof. unfold wire_field. rewrite length_app. reflexivity. Qed.

Lemma length_server_kx_message (P G Y : list opaque) :
  length (server_kx_message P G Y) = (6 + length P + length G + length Y)%nat.
Proof.
  unfold server_kx_message. rewrite !length_app, !length_wire_field. lia.
Qed.

(** ** Stepping through the monad *)

Lemma bind_ret {A B} (a : A) (f : A -> M B) (w : world) :
  (mret a ≫= f) w = f a w.
Proof. reflexivity. Qed.

Lemma bind_throw {A B} (e : gnutls_error) (f : A -> M B) (w : world) :
  (throw e ≫= f) w = (Err e, w).
Proof. reflexivity. Qed.

Lemma bind_fault {A B} (f : A -> M B) (w : world) :
  (fault ≫= f) w = (Fault, w).
Proof. reflexivity. Qed.

Lemma bind_gets {A B} (g : GNUTLS_STATE_INT -> A) (f : A -> M B) (w : world) :
  (gets g ≫= f) w = f (g (state w)) w.
Proof. reflexivity. Qed.

Lemma bind_modify {B} (g : GNUTLS_STATE_INT -> GNUTLS_STATE_INT)
    (f : unit -> M B) (w : world) :
  (modify g ≫= f) w = f tt (set_state (g (state w)) w).
Proof. reflexivity. Qed.

Lemma bind_assoc {A B C} (m : M A) (f : A -> M B) (g : B -> M C) (w : world) :
  ((m ≫= f) ≫= g) w = (m ≫= (fun a => f a ≫= g)) w.
Proof.
  unfold mbind, M_bind. destruct (m w) as [[a| |] w']; reflexivity.
Qed.

(** No wrap-around as long as the difference is an [int]. *)
Lemma int_sub_in_range (len x : Z) :
  INT_MIN <= len - x -> int_sub len x = len - x.
Proof.
  intros H. unfold int_sub.
  destruct (len - x <? -2147483648) eqn:Hlt; [apply Z.ltb_lt in Hlt; lia|].
  reflexivity.
Qed.

Lemma int_sub_wraps (len x : Z) :
  len - x < INT_MIN -> int_sub len x = len - x + 4294967296.
Proof.
  intros H. unfold int_sub.
  destruct (len - x <? -2147483648) eqn:Hlt; [reflexivity|].
  apply Z.ltb_ge in Hlt. lia.
Qed.

Lemma bind_DECR_LEN_ok {B} (len x : Z) (f : Z -> M B) (w : world) :
  0 <= len - x -> (DECR_LEN len x ≫= f) w = f (len - x) w.
Proof.
  intros H. unfold DECR_LEN, mbind, M_bind.
  rewrite int_sub_in_range by lia.
  destruct (len - x <? 0) eqn:Hlt; [apply Z.ltb_lt in Hlt; lia | reflexivity].
Qed.

Lemma bind_DECR_LEN_fail {B} (len x : Z) (f : Z -> M B) (w : world) :
  INT_MIN <= len - x < 0 ->
  (DECR_LEN len x ≫= f) w = (Err GNUTLS_E_UNEXPECTED_PACKET_LENGTH, w).
Proof.
  intros H. unfold DECR_LEN, mbind, M_bind.
  rewrite int_sub_in_range by lia.
  destruct (len - x <? 0) eqn:Hlt; [reflexivity | apply Z.ltb_ge in Hlt; lia].
Qed.

(** Reading the length prefix of a field that starts at offset [i]. *)
Lemma READuint16_field (pre bs post : list opaque) (i : Z) :
  i = Z.of_nat (length pre) ->
  Z.of_nat (length bs) < 65536 ->
  READuint16 (pre ++ wire_field bs ++ post) i = mret (Z.of_nat (length bs)).
Proof.
  intros -> Hlen. unfold READuint16. rewrite Nat2Z.id.
  rewrite (lookup_app_r pre) by lia. rewrite Nat.sub_diag.
  rewrite (lookup_app_r pre) by lia.
  replace (S (length pre) - length pre)%nat with 1%nat by lia.
  unfold wire_field, uint16_bytes. cbn [app lookup list_lookup].
  rewrite uint16_bytes_value by lia. reflexivity.
Qed.

(** A read inside a truncated buffer sees the bytes of the whole one. *)
Lemma READuint16_take (data : list opaque) (s : nat) (i : Z) :
  0 <= i -> i + 2 <= Z.of_nat s ->
  READuint16 (take s data) i = READuint16 data i.
Proof.
  intros Hi Hs. unfold READuint16.
  rewrite !lookup_take_lt by lia. reflexivity.
Qed.

Section ServerMessage.
Variables P G Y : list opaque.
Hypothesis HP : Z.of_nat (length P) < 65536.
Hypothesis HG : Z.of_nat (length G) < 65536.
Hypothesis HY : Z.of_nat (length Y) < 65536.

Lemma READ_n_p :
  READuint16 (server_kx_message P G Y) 0 = mret (Z.of_nat (length P)).
Proof.
  unfold server_kx_message.
  apply (READuint16_field [] P (wire_field G ++ wire_field Y)); simpl; lia.
Qed.

Lemma READ_n_g :
  READuint16 (server_kx_message P G Y) (0 + 2 + Z.of_nat (length P))
  = mret (Z.of_nat (length G)).
Proof.
  unfold server_kx_message.
  apply (READuint16_field (wire_field P) G (wire_field Y));
    rewrite ?length_wire_field; lia.
Qed.

Lemma READ_n_Y :
  READuint16 (server_kx_message P G Y)
    (0 + 2 + Z.of_nat (length P) + 2 + Z.of_nat (length G))
  = mret (Z.of_nat (length Y)).
Proof.
  unfold server_kx_message.
  rewrite <- (app_nil_r (wire_field Y)), (app_assoc (wire_field P)).
  apply (READuint16_field (wire_field P ++ wire_field G) Y []);
    rewrite ?length_app, ?length_wire_field; lia.
Qed.

(** The extra check after the modulus field compares the offset reached,
    2 + n_p, with the bytes that remain, and fires on a complete message
    whose remainder is shorter than that. *)
Lemma extra_check_rejects (E : Env) (w : world) :
  (length G + length Y + 2 < length P)%nat ->
  proc_anon_server_kx E (server_kx_message P G Y)
    (Z.of_nat (length (server_kx_message P G Y))) w
  = (Err GNUTLS_E_UNEXPECTED_PACKET_LENGTH, w).
Proof.
  intros Hsmall. unfold proc_anon_server_kx. cbv zeta.
  rewrite length_server_kx_message.
  rewrite bind_DECR_LEN_ok by lia.
  rewrite READ_n_p, bind_ret.
  rewrite bind_DECR_LEN_ok by lia.
  destruct (_ >? _) eqn:Hgt; [reflexivity|].
  rewrite Z.gtb_ltb in Hgt. apply Z.ltb_ge in Hgt. lia.
Qed.

Lemma READuint16_agree (data : list opaque) (s : nat) (i : Z) :
  take s data = take s (server_kx_message P G Y) ->
  0 <= i -> i + 2 <= Z.of_nat s ->
  READuint16 data i = READuint16 (server_kx_message P G Y) i.
Proof.
  intros Hagree Hi Hs.
  rewrite <- (READuint16_take data s), Hagree by lia.
  apply READuint16_take; lia.
Qed.

(** A buffer that holds only the first [s] bytes of the message, followed
    by anything or by nothing, is refused at the length checks: before any
    big integer is scanned, and without a read at an offset of [s] or
    more. *)
Lemma truncated_rejected (E : Env) (w : world) (s : nat) (data : list opaque) :
  (s < length (server_kx_message P G Y))%nat ->
  take s data = take s (server_kx_message P G Y) ->
  proc_anon_server_kx E data (Z.of_nat s) w
  = (Err GNUTLS_E_UNEXPECTED_PACKET_LENGTH, w).
Proof.
  intros Hs Hagree. rewrite length_server_kx_message in Hs.
  unfold proc_anon_server_kx. cbv zeta.
  destruct (Z_lt_dec (Z.of_nat s - 2) 0) as [H1|H1];
    [apply bind_DECR_LEN_fail; lia|].
  rewrite bind_DECR_LEN_ok by lia.
  rewrite (READuint16_agree data s), READ_n_p, bind_ret by (assumption || lia).
  destruct (Z_lt_dec (Z.of_nat s - 2 - Z.of_nat (length P)) 0) as [H2|H2];
    [apply bind_DECR_LEN_fail; lia|].
  rewrite bind_DECR_LEN_ok by lia.
  destruct (_ >? _) eqn:Hgt; [reflexivity|].
  destruct (Z_lt_dec (Z.of_nat s - 2 - Z.of_nat (length P) - 2) 0) as [H3|H3];
    [apply bind_DECR_LEN_fail; lia|].
  rewrite bind_DECR_LEN_ok by lia.
  rewrite (READuint16_agree data s), READ_n_g, bind_ret by (assumption || lia).
  destruct (Z_lt_dec (Z.of_nat s - 2 - Z.of_nat (length P) - 2
                      - Z.of_nat (length G)) 0) as [H4|H4];
    [apply bind_DECR_LEN_fail; lia|].
  rewrite bind_DECR_LEN_ok by lia.
  destruct (Z_lt_dec (Z.of_nat s - 2 - Z.of_nat (length P) - 2
                      - Z.of_nat (length G) - 2) 0) as [H5|H5];
    [apply bind_DECR_LEN_fail; lia|].
  rewrite bind_DECR_LEN_ok by lia.
  rewrite (READuint16_agree data s), READ_n_Y, bind_ret by (assumption || lia).
  apply bind_DECR_LEN_fail. lia.
Qed.
End ServerMessage.

(** ** A weakest-precondition calculus for the monad

    [wp m w Q] says that running [m] from [w] ends in an outcome and a world
    that satisfy [Q]. The rules below follow the constructs of the embedding;
    [wp_step] applies the one that fits. *)

Lemma wp_run {A} (m : M A) (w : world) (Q : result A -> world -> Prop) r w' :
  wp m w Q -> m w = (r, w') -> Q r w'.
Proof. unfold wp. intros H Hr. rewrite Hr in H. exact H. Qed.

Lemma wp_bind {A B} (m : M A) (f : A -> M B) (w : world) Q :
  wp m w (fun r w1 =>
            match r with
            | Ok a => wp (f a) w1 Q
            | Err e => Q (Err e) w1
            | Fault => Q Fault w1
            end) ->
  wp (m ≫= f) w Q.
Proof.
  unfold wp, mbind, M_bind. destruct (m w) as [[a|e|] w1]; simpl; auto.
Qed.

Lemma wp_ret {A} (a : A) (w : world) (Q : result A -> world -> Prop) :
  Q (Ok a) w -> wp (mret a) w Q.
Proof. auto. Qed.

Lemma wp_throw {A} (e : gnutls_error) (w : world) (Q : result A -> world -> Prop) :
  Q (Err e) w -> wp (throw e) w Q.
Proof. auto. Qed.

Lemma wp_fault {A} (w : world) (Q : result A -> world -> Prop) :
  Q Fault w -> wp fault w Q.
Proof. auto. Qed.

Lemma wp_gets {A} (g : GNUTLS_STATE_INT -> A) (w : world) Q :
  Q (Ok (g (state w))) w -> wp (gets g) w Q.
Proof. auto. Qed.

Lemma wp_modify (g : GNUTLS_STATE_INT -> GNUTLS_STATE_INT) (w : world) Q :
  Q (Ok tt) (set_state (g (state w)) w) -> wp (modify g) w Q.
Proof. auto. Qed.

(** [DECR_LEN] where the subtraction stays in the range of [int]. *)
Lemma wp_DECR_LEN (len x : Z) (w : world) Q :
  INT_MIN <= len - x ->
  (len - x < 0 -> Q (Err GNUTLS_E_UNEXPECTED_PACKET_LENGTH) w) ->
  (0 <= len - x -> Q (Ok (len - x)) w) ->
  wp (DECR_LEN len x) w Q.
Proof.
  intros Hint Hf Hs. unfold wp, DECR_LEN.
  rewrite int_sub_in_range by exact Hint.
  destruct (len - x <? 0) eqn:Hlt; simpl.
  - apply Hf. apply Z.ltb_lt. exact Hlt.
  - apply Hs. apply Z.ltb_ge. exact Hlt.
Qed.

(** [DECR_LEN] on any [len]: what remains is not negative, and it is the
    difference unless the subtraction wrapped around. *)
Lemma wp_DECR_LEN_int (len x : Z) (w : world) Q :
  (INT_MIN <= len - x < 0 \/
   len - x < INT_MIN /\ len - x + 4294967296 < 0 ->
   Q (Err GNUTLS_E_UNEXPECTED_PACKET_LENGTH) w) ->
  (forall len',
      0 <= len' ->
      len' = len - x /\ INT_MIN <= len - x \/
      len' = len - x + 4294967296 /\ len - x < INT_MIN ->
      Q (Ok len') w) ->
  wp (DECR_LEN len x) w Q.
Proof.
  intros Hf Hs. unfold wp, DECR_LEN.
  destruct (Z_lt_dec (len - x) (-2147483648)) as [Hw|Hw].
  - rewrite int_sub_wraps by exact Hw.
    destruct (len - x + 4294967296 <? 0) eqn:Hlt; simpl.
    + apply Hf. right. split; [exact Hw | apply Z.ltb_lt; exact Hlt].
    + apply Z.ltb_ge in Hlt. apply Hs; [exact Hlt | right; split; [reflexivity | exact Hw]].
  - rewrite int_sub_in_range by lia.
    destruct (len - x <? 0) eqn:Hlt; simpl.
    + apply Hf. left. apply Z.ltb_lt in Hlt. lia.
    + apply Z.ltb_ge in Hlt. apply Hs; [exact Hlt | left; split; [reflexivity | lia]].
Qed.

Lemma wp_READuint16 (data : list opaque) (i : Z) (w : world) Q :
  ((length data < Z.to_nat i + 2)%nat -> Q Fault w) ->
  (forall v, 0 <= v < 65536 -> (Z.to_nat i + 2 <= length data)%nat -> Q (Ok v) w) ->
  wp (READuint16 data i) w Q.
Proof.
  intros Hf Hs. unfold READuint16.
  destruct (data !! Z.to_nat i) as [hi|] eqn:Hhi;
    [|apply Hf; apply lookup_ge_None in Hhi; lia].
  destruct (data !! S (Z.to_nat i)) as [lo|] eqn:Hlo;
    [|apply Hf; apply lookup_ge_None in Hlo; lia].
  apply wp_ret, Hs.
  - pose proof (Z_of_byte_range hi). pose proof (Z_of_byte_range lo). lia.
  - apply lookup_lt_Some in Hlo. lia.
Qed.

Lemma wp_mpi_new (v : Z) (w : world) Q :
  (forall h, mpis w !! h = None -> Q (Ok h) (set_mpis (<[h:=v]> (mpis w)) w)) ->
  wp (mpi_new v) w Q.
Proof.
  intros H. unfold wp, mpi_new. simpl. apply H.
  apply not_elem_of_dom, is_fresh.
Qed.

Lemma wp_mpi_val (a : option MPI) (w : world) Q :
  ((forall h, a = Some h -> mpis w !! h = None) -> Q Fault w) ->
  (forall h v, a = Some h -> mpis w !! h = Some v -> Q (Ok v) w) ->
  wp (mpi_val a) w Q.
Proof.
  intros Hf Hs. unfold wp, mpi_val.
  destruct a as [h|]; [|apply Hf; discriminate].
  destruct (mpis w !! h) as [v|] eqn:Hv; [|apply Hf; congruence].
  simpl. eapply Hs; eauto.
Qed.

Lemma wp_mpi_release (x : option MPI) (w : world) Q :
  ((forall h, x = Some h -> mpis w !! h = None) -> Q Fault w) ->
  (x = None -> Q (Ok tt) w) ->
  (forall h, x = Some h -> is_Some (mpis w !! h) ->
             Q (Ok tt) (set_mpis (delete h (mpis w)) w)) ->
  wp (_gnutls_mpi_release x) w Q.
Proof.
  intros Hf Hn Hs. unfold wp, _gnutls_mpi_release.
  destruct x as [h|]; [|apply Hn; reflexivity].
  destruct (mpis w !! h) as [v|] eqn:Hv; [|apply Hf; congruence].
  simpl. apply Hs; eauto.
Qed.

Lemma wp_mpi_scan (E : Env) (data : list opaque) (off n : Z) (w : world) Q :
  ((length data < Z.to_nat off + Z.to_nat n)%nat -> Q Fault w) ->
  ((mpi_scan_limit E < Z.to_nat n)%nat -> Q (Ok None) w) ->
  (forall h, mpis w !! h = None ->
     (Z.to_nat off + Z.to_nat n <= length data)%nat ->
     (Z.to_nat n <= mpi_scan_limit E)%nat ->
     Q (Ok (Some h))
       (set_mpis (<[h:=be_value (take (Z.to_nat n) (drop (Z.to_nat off) data))]>
                    (mpis w)) w)) ->
  wp (_gnutls_mpi_scan E data off n) w Q.
Proof.
  intros Hf Hn Hs. unfold _gnutls_mpi_scan.
  destruct (decide _) as [Hin|Hout]; [|apply Hf; lia].
  assert (Hlen : length (take (Z.to_nat n) (drop (Z.to_nat off) data)) = Z.to_nat n)
    by (rewrite length_take, length_drop; lia).
  destruct (decide _) as [Hok|Hbig]; [|apply Hn; lia].
  apply wp_bind, wp_mpi_new. intros h Hh. apply wp_ret, Hs; (assumption || lia).
Qed.

Lemma wp_scan_field set (E : Env) (data : list opaque) (off n : Z) (w : world) Q :
  ((length data < Z.to_nat off + Z.to_nat n)%nat -> Q Fault w) ->
  ((mpi_scan_limit E < Z.to_nat n)%nat -> Q (Err GNUTLS_E_MPI_SCAN_FAILED) w) ->
  (forall h, mpis w !! h = None ->
     (Z.to_nat off + Z.to_nat n <= length data)%nat ->
     (Z.to_nat n <= mpi_scan_limit E)%nat ->
     Q (Ok tt)
       (set_state (set (Some h) (state w))
          (set_mpis (<[h:=be_value (take (Z.to_nat n) (drop (Z.to_nat off) data))]>
                       (mpis w)) w))) ->
  wp (scan_field set E data off n) w Q.
Proof.
  intros Hf He Hs. unfold scan_field.
  apply wp_bind, wp_mpi_scan; [exact Hf | exact He |].
  intros h Hh Hin Hok. apply wp_modify. simpl. apply Hs; assumption.
Qed.

Lemma wp_put_data_out (v : option (list opaque)) (w : world) Q :
  Q (Ok tt) (set_data_out v w) -> wp (put_data_out v) w Q.
Proof. auto. Qed.

Lemma wp_get_data_out (w : world) Q :
  Q (Ok (data_out w)) w -> wp get_data_out w Q.
Proof. auto. Qed.

Lemma wp_store_out (off : Z) (bs : list opaque) (w : world) Q :
  Q Fault w ->
  (forall buf, data_out w = Some buf ->
     (Z.to_nat off + length bs <= length buf)%nat ->
     Q (Ok tt)
       (set_data_out
          (Some (take (Z.to_nat off) buf ++ bs
                 ++ drop (Z.to_nat off + length bs) buf)) w)) ->
  wp (store_out off bs) w Q.
Proof.
  intros Hf Hs. unfold wp, store_out, store_bytes.
  destruct (data_out w) as [buf|]; [|exact Hf].
  destruct (decide _); [|exact Hf].
  simpl. apply Hs; [reflexivity | assumption].
Qed.

Lemma wp_call {A} (m : M A) (w : world) Q :
  wp m w (fun r w1 =>
            match r with
            | Ok a => Q (Ok (inr a)) w1
            | Err e => Q (Ok (inl e)) w1
            | Fault => Q Fault w1
            end) ->
  wp (call m) w Q.
Proof.
  unfold wp, call. destruct (m w) as [[a|e|] w1]; simpl; auto.
Qed.

Lemma wp_if {A} (b : bool) (m1 m2 : M A) (w : world) Q :
  (b = true -> wp m1 w Q) -> (b = false -> wp m2 w Q) ->
  wp (if b then m1 else m2) w Q.
Proof. destruct b; auto. Qed.

Ltac wp_step :=
  lazymatch goal with
  | |- wp (mbind _ _) _ _ => apply wp_bind
  | |- wp (mret _) _ _ => apply wp_ret
  | |- wp (throw _) _ _ => apply wp_throw
  | |- wp fault _ _ => apply wp_fault
  | |- wp (gets _) _ _ => apply wp_gets
  | |- wp gnutls_auth_get_type _ _ => apply wp_gets
  | |- wp (modify _) _ _ => apply wp_modify
  | |- wp (DECR_LEN _ _) _ _ =>
      first [apply wp_DECR_LEN; [lia | | ] | apply wp_DECR_LEN_int]
  | |- wp (READuint16 _ _) _ _ => apply wp_READuint16
  | |- wp (scan_field _ _ _ _ _) _ _ => apply wp_scan_field
  | |- wp (mpi_new _) _ _ => apply wp_mpi_new
  | |- wp (mpi_val _) _ _ => apply wp_mpi_val
  | |- wp (_gnutls_mpi_release _) _ _ => apply wp_mpi_release
  | |- wp (put_data_out _) _ _ => apply wp_put_data_out
  | |- wp get_data_out _ _ => apply wp_get_data_out
  | |- wp (store_out _ _) _ _ => apply wp_store_out
  | |- wp (call _) _ _ => apply wp_call
  | |- wp (if _ then _ else _) _ _ => apply wp_if
  end.

Ltac wp_unfold :=
  lazymatch goal with
  | |- wp (set_dh_bits _) _ _ => unfold set_dh_bits
  | |- wp (mpi_print_out _ _) _ _ => unfold mpi_print_out
  | |- wp (WRITEuint16 _ _) _ _ => unfold WRITEuint16
  | |- wp (_gnutls_generate_key _) _ _ => unfold _gnutls_generate_key
  | |- wp (release_field _ _) _ _ => unfold release_field
  | |- wp (configured_bits _) _ _ => unfold configured_bits
  | |- wp (mpi_print_size _) _ _ => unfold mpi_print_size
  | |- wp (mpi_new_opt _) _ _ => unfold mpi_new_opt
  | |- wp (gnutls_get_dh_params _ _) _ _ => unfold gnutls_get_dh_params
  | |- wp (gnutls_calc_dh_secret _ _ _) _ _ => unfold gnutls_calc_dh_secret
  | |- wp (gnutls_calc_dh_key _ _ _ _) _ _ => unfold gnutls_calc_dh_key
  | |- wp (null_operand _ _) _ _ => unfold null_operand
  | |- wp (match ?x with _ => _ end) _ _ => destruct x eqn:?
  | |- wp (let '(_, _) := ?x in _) _ _ => destruct x eqn:?
  end.

(** Projections of updated records, and nothing else, are computed. *)
Ltac world_simpl :=
  cbn [state mpis data_out set_state set_mpis set_data_out
       key KEY client_Y client_g client_p dh_secret auth_info auth_info_type
       auth_info_size anon_cred kx_cred_type
       set_key set_KEY set_client_Y set_client_g set_client_p set_dh_secret
       set_auth_info set_auth_info_type set_auth_info_size
       data size fst snd].

Ltac wp_go := repeat (first [wp_step | wp_unfold]; world_simpl; intros).

Ltac bool_hyps :=
  repeat match goal with
    | H : bool_decide _ = true |- _ => apply bool_decide_eq_true in H
    | H : bool_decide _ = false |- _ => apply bool_decide_eq_false in H
    | H : ~ (_ <> _) |- _ => apply dec_stable in H
    | H : _ || _ = true |- _ => apply orb_true_iff in H; destruct H
    | H : _ || _ = false |- _ => apply orb_false_iff in H; destruct H
    end.

(** ** Failures of [proc_anon_server_kx] and the session state *)

Lemma proc_anon_server_kx_failure_wp (E : Env) (data : list opaque) (ds : Z) (w : world) :
  wp (proc_anon_server_kx E data ds) w (fun r w' =>
    forall e, r = Err e ->
      auth_info (state w') = auth_info (state w) /\
      auth_info_type (state w') = auth_info_type (state w) /\
      auth_info_size (state w') = auth_info_size (state w) /\
      (e = GNUTLS_E_UNEXPECTED_PACKET_LENGTH -> w' = w)).
Proof.
  unfold proc_anon_server_kx. cbv zeta. wp_go.
  all: try discriminate.
  all: simplify_eq; bool_hyps;
    repeat split; try reflexivity; try discriminate; congruence.
Qed.

(** ** The extra check of [proc_anon_server_kx] *)

(** C10. After the modulus field, [proc_anon_server_kx] compares the offset
    reached, i = 2 + n_p, with [data_size] as left by the two [DECR_LEN], that
    is with the number of bytes that follow the modulus field. A complete,
    well-formed server exchange message whose modulus field with its prefix
    (2 + n_p bytes) is longer than the rest of the message (4 + n_g + n_Y
    bytes) is therefore refused with [GNUTLS_E_UNEXPECTED_PACKET_LENGTH], and
    the session is not touched. *)
Theorem proc_anon_server_kx_extra_check
    (E : Env) (P G Y : list opaque) (w : world) :
  Z.of_nat (length P) < 65536 ->
  Z.of_nat (length G) < 65536 ->
  Z.of_nat (length Y) < 65536 ->
  4 + Z.of_nat (length G) + Z.of_nat (length Y) < 2 + Z.of_nat (length P) ->
  proc_anon_server_kx E (server_kx_message P G Y)
    (Z.of_nat (length (server_kx_message P G Y))) w
  = (Err GNUTLS_E_UNEXPECTED_PACKET_LENGTH, w).
Proof.
  intros HP HG HY Hsmall. apply extra_check_rejects; lia.
Qed.

Lemma proc_anon_server_kx_extra_check_witness :
  proc_anon_server_kx (example_env 2 M61 65) short_Y_message
    (Z.of_nat (length short_Y_message)) fresh_world
  = (Err GNUTLS_E_UNEXPECTED_PACKET_LENGTH, fresh_world).
Proof.
  apply (proc_anon_server_kx_extra_check (example_env 2 M61 65)
           (mpi_bytes M61) (mpi_bytes 2) (mpi_bytes 16) fresh_world);
    vm_compute; reflexivity.
Defined.

(** ** Truncated server exchange messages *)

(** C3. For a well-formed server exchange message and a cut at [s] bytes
    before its end, [proc_anon_server_kx] with [data_size = s] fails with
    [GNUTLS_E_UNEXPECTED_PACKET_LENGTH] and leaves the session as it was.
    It does so on the buffer that ends at the cut, where a read at an offset
    of [s] or more would be the outcome [Fault], and on every buffer that has
    the same first [s] bytes: no byte at or beyond [data_size] is read. *)
Theorem proc_anon_server_kx_truncated
    (E : Env) (P G Y : list opaque) (w : world) (s : nat) :
  Z.of_nat (length P) < 65536 ->
  Z.of_nat (length G) < 65536 ->
  Z.of_nat (length Y) < 65536 ->
  Z.of_nat s < Z.of_nat (length (server_kx_message P G Y)) ->
  proc_anon_server_kx E (take s (server_kx_message P G Y)) (Z.of_nat s) w
  = (Err GNUTLS_E_UNEXPECTED_PACKET_LENGTH, w)
  /\ forall data : list opaque,
       take s data = take s (server_kx_message P G Y) ->
       proc_anon_server_kx E data (Z.of_nat s) w
       = (Err GNUTLS_E_UNEXPECTED_PACKET_LENGTH, w).
Proof.
  intros HP HG HY Hs. split.
  - apply (truncated_rejected P G Y); try assumption; [lia|].
    apply take_idemp.
  - intros data Hagree. apply (truncated_rejected P G Y); try assumption. lia.
Qed.

Lemma proc_anon_server_kx_truncated_witness :
  proc_anon_server_kx (example_env 2 M61 65) (take 15 short_Y_message) 15
    fresh_world
  = (Err GNUTLS_E_UNEXPECTED_PACKET_LENGTH, fresh_world)
  /\ forall data : list opaque,
       take 15 data = take 15 short_Y_message ->
       proc_anon_server_kx (example_env 2 M61 65) data 15 fresh_world
       = (Err GNUTLS_E_UNEXPECTED_PACKET_LENGTH, fresh_world).
Proof.
  apply (proc_anon_server_kx_truncated (example_env 2 M61 65)
           (mpi_bytes M61) (mpi_bytes 2) (mpi_bytes 16) fresh_world 15);
    vm_compute; reflexivity.
Defined.

(** C4, as stated, fails: on the session [x509_bound_world] the well-formed
    message [small_message] passes the length checks and the three scans, the
    type check then returns [GNUTLS_E_INVALID_REQUEST], and the three scanned
    integers stay in [client_Y], [client_g] and [client_p]. *)
Lemma proc_anon_server_kx_failure_keeps_scanned_fields :
  ~ (forall (E : Env) (data : list opaque) (ds : Z) (w w' : world) (e : gnutls_error),
        proc_anon_server_kx E data ds w = (Err e, w') ->
        client_Y (state w') = client_Y (state w) /\
        client_g (state w') = client_g (state w) /\
        client_p (state w') = client_p (state w) /\
        auth_info (state w') = auth_info (state w) /\
        auth_info_type (state w') = auth_info_type (state w)).
Proof.
  intros H.
  specialize (H (example_env 5 23 3) small_message 9 x509_bound_world
                (proc_anon_server_kx (example_env 5 23 3) small_message 9
                   x509_bound_world).2
                GNUTLS_E_INVALID_REQUEST).
  assert (Hrun : proc_anon_server_kx (example_env 5 23 3) small_message 9
                   x509_bound_world
                 = (Err GNUTLS_E_INVALID_REQUEST,
                    (proc_anon_server_kx (example_env 5 23 3) small_message 9
                       x509_bound_world).2))
    by (vm_compute; reflexivity).
  destruct (H Hrun) as [HY _]. vm_compute in HY. discriminate HY.
Qed.

(** C4, amended. When [proc_anon_server_kx] fails on a length check
    ([GNUTLS_E_UNEXPECTED_PACKET_LENGTH]) the session, the store of big
    integers and the caller's buffer are exactly as before the call; on every
    failure [auth_info], [auth_info_type] and [auth_info_size] are as
    before. *)
Theorem proc_anon_server_kx_failure_state
    (E : Env) (data : list opaque) (ds : Z) (w w' : world) (e : gnutls_error) :
  proc_anon_server_kx E data ds w = (Err e, w') ->
  auth_info (state w') = auth_info (state w) /\
  auth_info_type (state w') = auth_info_type (state w) /\
  auth_info_size (state w') = auth_info_size (state w) /\
  (e = GNUTLS_E_UNEXPECTED_PACKET_LENGTH -> w' = w).
Proof.
  intros Hrun.
  exact (wp_run _ _ _ _ _ (proc_anon_server_kx_failure_wp E data ds w) Hrun
           e eq_refl).
Qed.

Lemma proc_anon_server_kx_failure_state_witness :
  let w' := (proc_anon_server_kx (example_env 5 23 3) small_message 9
               x509_bound_world).2 in
  auth_info (state w') = auth_info (state x509_bound_world) /\
  auth_info_type (state w') = auth_info_type (state x509_bound_world) /\
  auth_info_size (state w') = auth_info_size (state x509_bound_world) /\
  (GNUTLS_E_INVALID_REQUEST = GNUTLS_E_UNEXPECTED_PACKET_LENGTH ->
   w' = x509_bound_world).
Proof.
  intros w'.
  apply (proc_anon_server_kx_failure_state (example_env 5 23 3) small_message 9
           x509_bound_world w' GNUTLS_E_INVALID_REQUEST).
  vm_compute. reflexivity.
Defined.

Ltac wp_prune := try solve [exfalso; bool_hyps; congruence].
Ltac wp_run_all :=
  repeat (first [wp_step | wp_unfold]; world_simpl; intros; wp_prune).

(** ** Big integers on the failure paths of the client-side derivation *)

(** C5: the code at a failing input. When [gnutls_calc_dh_key] returns [NULL],
    [proc_anon_client_kx] returns [GNUTLS_E_MEMORY_ERROR] before its release
    calls: the scanned peer value (handle 1) and the stored exponent
    (handle 0) are still allocated and still in the session, and the
    regenerated p and g (handles 2 and 3) are still allocated with no pointer
    to them left. [gen_anon_client_kx] returns the same error with the stored
    p, g and peer value (handles 2, 1, 0) unreleased and the fresh private
    exponent (handle 3) allocated with no pointer to it left. *)
Theorem client_kx_failure_keeps_big_integers :
  let server := proc_anon_client_kx (no_dh_key_env 5 23 4) small_client_message 3
                  awaiting_peer_world in
  let client := gen_anon_client_kx (no_dh_key_env 5 23 4) have_params_world in
  server.1 = Err GNUTLS_E_MEMORY_ERROR
  /\ mpis server.2 = {[ 0%nat := 3; 1%nat := 8; 2%nat := 23; 3%nat := 5 ]}
  /\ client_Y (state server.2) = Some 1%nat
  /\ dh_secret (state server.2) = Some 0%nat
  /\ client.1 = Err GNUTLS_E_MEMORY_ERROR
  /\ mpis client.2 = {[ 0%nat := 8; 1%nat := 5; 2%nat := 23; 3%nat := 4 ]}
  /\ client_Y (state client.2) = Some 0%nat
  /\ client_g (state client.2) = Some 1%nat
  /\ client_p (state client.2) = Some 2%nat.
Proof. vm_compute. repeat split; reflexivity. Qed.

(** ** The server exchange message through encoder and decoder *)

(** C2: the code at a failing input. For the prime modulus p = 2^61 - 1, the
    generator 2 and the exponent 65, [gen_anon_server_kx] encodes p, g and the
    public value 2^65 mod p = 16 in 16 bytes; [proc_anon_server_kx] on these
    16 bytes returns [GNUTLS_E_UNEXPECTED_PACKET_LENGTH] and stores nothing:
    after the modulus field the offset 2 + 8 exceeds the 6 bytes that
    remain. *)
Theorem server_kx_round_trip_rejected :
  let E := example_env 2 M61 65 in
  let server := gen_anon_server_kx E fresh_world in
  server.1 = Ok 16
  /\ data_out server.2 = Some short_Y_message
  /\ proc_anon_server_kx E short_Y_message 16 fresh_world
     = (Err GNUTLS_E_UNEXPECTED_PACKET_LENGTH, fresh_world).
Proof. vm_compute. repeat split; reflexivity. Qed.

(** ** The four operations in protocol order *)

(** C1: the code at a failing input. With p = 2^61 - 1 and g = 2 from the
    parameter source and the server exponent 65, server-generate succeeds and
    sends [short_Y_message]; client-process refuses it with
    [GNUTLS_E_UNEXPECTED_PACKET_LENGTH] and stores no parameters;
    client-generate then fails with [GNUTLS_E_MEMORY_ERROR]. The client has no
    key material, and no client message exists for server-process. *)
Theorem anon_kx_agreement_not_reached :
  let server := gen_anon_server_kx (example_env 2 M61 65) fresh_world in
  let client_proc :=
    proc_anon_server_kx (example_env 2 M61 7) short_Y_message 16 fresh_world in
  let client_gen := gen_anon_client_kx (example_env 2 M61 7) client_proc.2 in
  server.1 = Ok 16
  /\ data_out server.2 = Some short_Y_message
  /\ client_proc.1 = Err GNUTLS_E_UNEXPECTED_PACKET_LENGTH
  /\ client_gen.1 = Err GNUTLS_E_MEMORY_ERROR
  /\ data (key (state client_gen.2)) = None
  /\ data_out client_gen.2 = None.
Proof. vm_compute. repeat split; reflexivity. Qed.

(** ** The client exchange message *)

(** A two-byte store at the start of a buffer hides a one-byte store made
    there just before. *)
Lemma store_bytes_overwrite (buf : list opaque) (b : opaque) (n : Z) :
  (2 <= length buf)%nat ->
  store_bytes buf 0 [b] ≫= (fun buf' => store_bytes buf' 0 (uint16_bytes n))
  = store_bytes buf 0 (uint16_bytes n).
Proof.
  intros Hlen. destruct buf as [|b0 [|b1 buf]]; simpl in Hlen; try lia.
  reflexivity.
Qed.

Lemma malloc_buffer (E : Env) (n : nat) (buf : list opaque) :
  gnutls_malloc E (Z.of_nat n + 2) = Some buf ->
  buf = junk E :: junk E :: replicate n (junk E).
Proof.
  unfold gnutls_malloc. destruct (malloc_data_ok E); [|discriminate].
  intros [= <-]. replace (Z.to_nat (Z.of_nat n + 2)) with (S (S n)) by lia.
  reflexivity.
Qed.

Lemma gen_anon_client_kx_message_wp (E : Env) (w : world) :
  wp (gen_anon_client_kx E) w (fun r w' =>
    forall n, r = Ok n ->
    exists hg hp gv pv xv,
      client_g (state w) = Some hg /\ client_p (state w) = Some hp /\
      mpis w !! hg = Some gv /\ mpis w !! hp = Some pv /\
      rand_x E = Some xv /\
      let X := gv ^ xv mod pv in
      let n_X := Z.of_nat (length (mpi_bytes X)) in
      n = n_X + 2 /\
      data_out w' = Some (uint16_bytes n_X ++ mpi_bytes X)).
Proof.
  unfold gen_anon_client_kx. cbv zeta. wp_run_all.
  all: try discriminate.
  simplify_eq.
  match goal with
  | H : <[?h:=?X]> _ !! ?h = Some ?v |- _ =>
      rewrite lookup_insert_eq in H; injection H as <-
  end.
  match goal with
  | H : gnutls_malloc _ _ = Some _ |- _ => apply malloc_buffer in H; subst
  end.
  match goal with
  | Hgv : mpis w !! ?hg = Some ?gv, Hpv : mpis w !! ?hp = Some ?pv,
    Hx : rand_x E = Some ?xv |- _ => exists hg, hp, gv, pv, xv
  end.
  repeat (split; [assumption || reflexivity|]).
  rewrite (length_mpi_bytes _). split; [reflexivity|].
  simpl. rewrite drop_0, drop_ge by (rewrite length_replicate; lia).
  rewrite app_nil_r. reflexivity.
Qed.

(** C8. A successful call of [gen_anon_client_kx] has computed the public
    value X = g^x mod p from the stored parameters; with n_X the number of
    bytes of the minimal big-endian form of X, the value returned is n_X + 2
    and the buffer returned is, in n_X + 2 bytes, the two bytes that
    [WRITEuint16] stores for n_X followed by the n_X bytes of X. They read back
    as n_X when n_X fits 16 bits. The constant 1 written to byte 0 in between
    is not in the buffer: the two-byte store of the length at the same place
    comes after it, and a one-byte store followed by that store is that store
    alone. *)
Theorem gen_anon_client_kx_message
    (E : Env) (w w' : world) (n : Z) :
  gen_anon_client_kx E w = (Ok n, w') ->
  (exists hg hp gv pv xv,
      client_g (state w) = Some hg /\ client_p (state w) = Some hp /\
      mpis w !! hg = Some gv /\ mpis w !! hp = Some pv /\
      rand_x E = Some xv /\
      let X := gv ^ xv mod pv in
      let n_X := Z.of_nat (length (mpi_bytes X)) in
      n = n_X + 2 /\
      data_out w' = Some (uint16_bytes n_X ++ mpi_bytes X) /\
      Z.of_nat (length (uint16_bytes n_X ++ mpi_bytes X)) = n_X + 2 /\
      (n_X < 65536 ->
       READuint16 (uint16_bytes n_X ++ mpi_bytes X) 0 = mret n_X))
  /\ (forall (buf : list opaque) (b : opaque) (num : Z),
        (2 <= length buf)%nat ->
        store_bytes buf 0 [b] ≫= (fun buf' => store_bytes buf' 0 (uint16_bytes num))
        = store_bytes buf 0 (uint16_bytes num)).
Proof.
  intros Hrun. split; [|apply store_bytes_overwrite].
  destruct (wp_run _ _ _ _ _ (gen_anon_client_kx_message_wp E w) Hrun n eq_refl)
    as (hg & hp & gv & pv & xv & Hg & Hp & Hgv & Hpv & Hx & Hn & Hout).
  exists hg, hp, gv, pv, xv. repeat (split; [assumption|]).
  split; [|intros Hfit].
  - rewrite length_app, length_uint16_bytes. lia.
  - pose proof (READuint16_field [] (mpi_bytes (gv ^ xv mod pv)) [] 0
                  eq_refl Hfit) as Hread.
    unfold wire_field in Hread. rewrite app_nil_l, app_nil_r in Hread.
    exact Hread.
Qed.

Lemma gen_anon_client_kx_message_witness :
  let E := example_env 5 23 4 in
  let w := have_params_world in
  let w' := (gen_anon_client_kx E w).2 in
  (exists hg hp gv pv xv,
      client_g (state w) = Some hg /\ client_p (state w) = Some hp /\
      mpis w !! hg = Some gv /\ mpis w !! hp = Some pv /\
      rand_x E = Some xv /\
      let X := gv ^ xv mod pv in
      let n_X := Z.of_nat (length (mpi_bytes X)) in
      3 = n_X + 2 /\
      data_out w' = Some (uint16_bytes n_X ++ mpi_bytes X) /\
      Z.of_nat (length (uint16_bytes n_X ++ mpi_bytes X)) = n_X + 2 /\
      (n_X < 65536 ->
       READuint16 (uint16_bytes n_X ++ mpi_bytes X) 0 = mret n_X))
  /\ (forall (buf : list opaque) (b : opaque) (num : Z),
        (2 <= length buf)%nat ->
        store_bytes buf 0 [b] ≫= (fun buf' => store_bytes buf' 0 (uint16_bytes num))
        = store_bytes buf 0 (uint16_bytes num)).
Proof.
  intros E w w'.
  apply (gen_anon_client_kx_message E w w' 3).
  vm_compute. reflexivity.
Defined.

(** ** Well-formed server exchange messages, trailing bytes allowed *)

Lemma wp_eq {A} (m m' : M A) (w : world) Q :
  m w = m' w -> wp m' w Q -> wp m w Q.
Proof. unfold wp. intros ->. auto. Qed.

Section ServerBuffer.
Variables P G Y tl : list opaque.
Hypothesis HP : Z.of_nat (length P) < 65536.
Hypothesis HG : Z.of_nat (length G) < 65536.
Hypothesis HY : Z.of_nat (length Y) < 65536.

Lemma READ_n_p_app :
  READuint16 (server_kx_message P G Y ++ tl) 0 = mret (Z.of_nat (length P)).
Proof.
  unfold server_kx_message. rewrite <- !app_assoc.
  apply (READuint16_field [] P); simpl; lia.
Qed.

Lemma READ_n_g_app :
  READuint16 (server_kx_message P G Y ++ tl) (0 + 2 + Z.of_nat (length P))
  = mret (Z.of_nat (length G)).
Proof.
  unfold server_kx_message. rewrite <- !app_assoc.
  apply (READuint16_field (wire_field P) G); rewrite ?length_wire_field; lia.
Qed.

Lemma READ_n_Y_app :
  READuint16 (server_kx_message P G Y ++ tl)
    (0 + 2 + Z.of_nat (length P) + 2 + Z.of_nat (length G))
  = mret (Z.of_nat (length Y)).
Proof.
  unfold server_kx_message. rewrite <- !app_assoc.
  rewrite (app_assoc (wire_field P)).
  apply (READuint16_field (wire_field P ++ wire_field G) Y);
    rewrite ?length_app, ?length_wire_field; lia.
Qed.

(** The byte runs that the three scans read. *)
Lemma slice_P :
  take (Z.to_nat (Z.of_nat (length P)))
    (drop (Z.to_nat (0 + 2)) (server_kx_message P G Y ++ tl)) = P.
Proof.
  rewrite Nat2Z.id. change (Z.to_nat (0 + 2)) with 2%nat.
  unfold server_kx_message, wire_field. rewrite <- !app_assoc.
  rewrite drop_app_length' by reflexivity.
  rewrite take_app_length' by reflexivity. reflexivity.
Qed.

Lemma slice_G :
  take (Z.to_nat (Z.of_nat (length G)))
    (drop (Z.to_nat (0 + 2 + Z.of_nat (length P) + 2))
       (server_kx_message P G Y ++ tl)) = G.
Proof.
  rewrite Nat2Z.id.
  unfold server_kx_message, wire_field. rewrite <- !app_assoc.
  rewrite (app_assoc (uint16_bytes _) P), (app_assoc _ (uint16_bytes _)).
  rewrite drop_app_length' by (rewrite !length_app, !length_uint16_bytes; lia).
  rewrite take_app_length' by reflexivity. reflexivity.
Qed.

Lemma slice_Y :
  take (Z.to_nat (Z.of_nat (length Y)))
    (drop (Z.to_nat (0 + 2 + Z.of_nat (length P) + 2 + Z.of_nat (length G) + 2))
       (server_kx_message P G Y ++ tl)) = Y.
Proof.
  rewrite Nat2Z.id.
  unfold server_kx_message, wire_field. rewrite <- !app_assoc.
  rewrite (app_assoc (uint16_bytes _) P), (app_assoc _ (uint16_bytes _)),
    (app_assoc _ G), (app_assoc _ (uint16_bytes _)).
  rewrite drop_app_length' by (rewrite !length_app, !length_uint16_bytes; lia).
  rewrite take_app_length' by reflexivity. reflexivity.
Qed.
End ServerBuffer.

(** The length checks of [proc_anon_server_kx] on a buffer that starts with a
    well-formed message: each [DECR_LEN] passes, each [READuint16] gives the
    length of its field, and the extra check passes by the hypothesis in the
    context. What is left is the scans and the negotiated info. *)
Ltac pass_server_length_checks :=
  unfold proc_anon_server_kx; cbv zeta;
  rewrite bind_DECR_LEN_ok by lia;
  rewrite READ_n_p_app, bind_ret by assumption;
  rewrite bind_DECR_LEN_ok by lia;
  match goal with
  | |- context [?a >? ?b] =>
      replace (a >? b) with false
        by (symmetry; rewrite Z.gtb_ltb; apply Z.ltb_ge; lia)
  end;
  rewrite bind_DECR_LEN_ok by lia;
  rewrite READ_n_g_app, bind_ret by assumption;
  rewrite bind_DECR_LEN_ok by lia;
  rewrite bind_DECR_LEN_ok by lia;
  rewrite READ_n_Y_app, bind_ret by assumption;
  rewrite bind_DECR_LEN_ok by lia.

(** What freshness of a handle says about the handles allocated before. *)
Ltac fresh_facts :=
  repeat match goal with
    | H : <[_:=_]> _ !! _ = None |- _ =>
        apply lookup_insert_None in H; destruct H
    end.

(** A [Fault] that needs a big integer just allocated to be missing. *)
Ltac dead_fault :=
  match goal with
  | H : forall h, Some ?x = Some h -> _ !! h = None |- _ =>
      specialize (H x eq_refl);
      rewrite ?lookup_insert_eq in H; discriminate H
  end.

(** ** What the decoder stores for a message it accepts *)

(** Equal pointers, from [Some x = Some y]. *)
Ltac some_eqs :=
  repeat match goal with
    | H : Some ?x = Some ?y |- _ =>
        injection H as H; first [subst y | subst x]
    end.

Lemma proc_anon_server_kx_accepts_wp
    (E : Env) (P G Y tl : list opaque) (ds : Z) (w : world) :
  Z.of_nat (length P) < 65536 ->
  Z.of_nat (length G) < 65536 ->
  Z.of_nat (length Y) < 65536 ->
  Z.of_nat (length (server_kx_message P G Y)) <= ds ->
  ds <= Z.of_nat (length (server_kx_message P G Y ++ tl)) ->
  2 + Z.of_nat (length P) <= ds - 2 - Z.of_nat (length P) ->
  (length P <= mpi_scan_limit E)%nat ->
  (length G <= mpi_scan_limit E)%nat ->
  (length Y <= mpi_scan_limit E)%nat ->
  (auth_info (state w) = None -> malloc_info_ok E = true) ->
  (auth_info (state w) <> None ->
   auth_info_type (state w) = Some (kx_cred_type (state w))) ->
  wp (proc_anon_server_kx E (server_kx_message P G Y ++ tl) ds) w (fun r w' =>
    r = Ok 0 /\
    exists hY hg hp,
      client_Y (state w') = Some hY /\
      client_g (state w') = Some hg /\
      client_p (state w') = Some hp /\
      mpis w !! hY = None /\ mpis w !! hg = None /\ mpis w !! hp = None /\
      hY <> hg /\ hY <> hp /\ hg <> hp /\
      mpis w'
      = <[hp:=be_value P]> (<[hg:=be_value G]> (<[hY:=be_value Y]> (mpis w))) /\
      auth_info (state w')
      = Some {| dh_bits := gcry_mpi_get_nbits (be_value P) |} /\
      auth_info_type (state w') = Some GNUTLS_ANON /\
      data_out w' = data_out w).
Proof.
  intros HP HG HY Hlo Hhi Hextra HlP HlG HlY Hmalloc Htype.
  rewrite length_app in Hhi. rewrite length_server_kx_message in *.
  eapply wp_eq; [pass_server_length_checks; reflexivity|].
  pose proof (slice_P P G Y tl) as HsP.
  pose proof (slice_G P G Y tl) as HsG.
  pose proof (slice_Y P G Y tl) as HsY.
  assert (Hlen : length (server_kx_message P G Y ++ tl)
                 = (6 + length P + length G + length Y + length tl)%nat)
    by (rewrite length_app, length_server_kx_message; reflexivity).
  generalize dependent (server_kx_message P G Y ++ tl).
  intros buf HsP HsG HsY Hlen.
  wp_run_all.
  all: rewrite ?HsP, ?HsG, ?HsY in *.
  all: try (exfalso; lia).
  all: try dead_fault.
  all: fresh_facts.
  all: try (exfalso; bool_hyps;
            match goal with
            | H : Some _ <> auth_info_type _ |- _ =>
                apply H; symmetry; apply Htype; discriminate
            | H : gnutls_malloc_info _ = None |- _ =>
                unfold gnutls_malloc_info in H;
                rewrite Hmalloc in H by reflexivity; discriminate H
            end).
  all: some_eqs.
  all: match goal with
       | H : <[?h:=?v]> _ !! ?h = Some ?v' |- _ =>
           rewrite lookup_insert_eq in H; injection H as <-
       end.
  all: split; [reflexivity|]; eexists _, _, _;
    repeat (split; [first [reflexivity | eassumption | congruence]|]);
    reflexivity.
Qed.

(** X1. The server exchange message through the decoder, when the extra
    check lets it pass: for a modulus p, a generator g and a public value Y
    whose minimal forms are at most 65535 bytes and within the scan limit,
    with n_p <= n_g + n_Y + 2, on a session whose negotiated info is unset
    (and can be allocated) or of the negotiated type, [proc_anon_server_kx]
    at the exact size of the message returns 0 and stores three fresh big
    integers equal to Y, g and p. *)
Theorem server_kx_round_trip_when_accepted
    (E : Env) (p g Y : Z) (w : world) :
  0 <= p -> 0 <= g -> 0 <= Y ->
  Z.of_nat (mpi_nbytes p) < 65536 ->
  Z.of_nat (mpi_nbytes g) < 65536 ->
  Z.of_nat (mpi_nbytes Y) < 65536 ->
  (mpi_nbytes p <= mpi_nbytes g + mpi_nbytes Y + 2)%nat ->
  (mpi_nbytes p <= mpi_scan_limit E)%nat ->
  (mpi_nbytes g <= mpi_scan_limit E)%nat ->
  (mpi_nbytes Y <= mpi_scan_limit E)%nat ->
  (auth_info (state w) = None -> malloc_info_ok E = true) ->
  (auth_info (state w) <> None ->
   auth_info_type (state w) = Some (kx_cred_type (state w))) ->
  let msg := server_kx_message (mpi_bytes p) (mpi_bytes g) (mpi_bytes Y) in
  let out := proc_anon_server_kx E msg (Z.of_nat (length msg)) w in
  out.1 = Ok 0 /\
  exists hY hg hp,
    client_Y (state out.2) = Some hY /\
    client_g (state out.2) = Some hg /\
    client_p (state out.2) = Some hp /\
    mpis out.2 !! hY = Some Y /\
    mpis out.2 !! hg = Some g /\
    mpis out.2 !! hp = Some p /\
    auth_info (state out.2) = Some {| dh_bits := gcry_mpi_get_nbits p |}.
Proof.
  intros Hp Hg HY Hnp Hng HnY Hcheck Hlp Hlg HlY Hmalloc Htype msg out.
  assert (Hlen : length msg
                 = (6 + mpi_nbytes p + mpi_nbytes g + mpi_nbytes Y)%nat)
    by (unfold msg; rewrite length_server_kx_message, !length_mpi_bytes;
        reflexivity).
  pose proof (proc_anon_server_kx_accepts_wp E (mpi_bytes p) (mpi_bytes g)
                (mpi_bytes Y) [] (Z.of_nat (length msg)) w) as Hwp.
  rewrite app_nil_r, !length_mpi_bytes in Hwp. fold msg in Hwp.
  unfold wp in Hwp. fold out in Hwp.
  destruct Hwp as (Hok & hY & hg & hp & HcY & Hcg & Hcp & HfY & Hfg & Hfp
                   & Hne1 & Hne2 & Hne3 & Hm & Hinfo & _);
    try assumption; try lia.
  rewrite !be_value_mpi_bytes in * by assumption.
  split; [exact Hok|]. exists hY, hg, hp.
  repeat (split; [assumption|]). rewrite Hm.
  split; [|split; [|split]].
  - rewrite !lookup_insert_ne by congruence. apply lookup_insert_eq.
  - rewrite lookup_insert_ne by congruence. apply lookup_insert_eq.
  - apply lookup_insert_eq.
  - exact Hinfo.
Qed.

Lemma server_kx_round_trip_when_accepted_witness :
  let E := example_env 5 23 6 in
  let msg := server_kx_message (mpi_bytes 23) (mpi_bytes 5) (mpi_bytes 8) in
  let out := proc_anon_server_kx E msg (Z.of_nat (length msg)) fresh_world in
  out.1 = Ok 0 /\
  exists hY hg hp,
    client_Y (state out.2) = Some hY /\
    client_g (state out.2) = Some hg /\
    client_p (state out.2) = Some hp /\
    mpis out.2 !! hY = Some 8 /\
    mpis out.2 !! hg = Some 5 /\
    mpis out.2 !! hp = Some 23 /\
    auth_info (state out.2) = Some {| dh_bits := gcry_mpi_get_nbits 23 |}.
Proof.
  intros E.
  apply (server_kx_round_trip_when_accepted E 23 5 8 fresh_world);
    first [ reflexivity
          | vm_compute; first [reflexivity | discriminate | lia]
          | intros H; exfalso; apply H; reflexivity ].
Defined.

(** ** The success paths

    What each operation leaves behind when nothing fails: the message, the key
    bytes, the fields of the session and the store of big integers. The runs
    below are strict: every [Fault] and every error branch is shown dead from
    the hypotheses. *)

Lemma store_bytes_segment (buf pre old post bs : list opaque) (off : nat) :
  buf = pre ++ old ++ post ->
  off = length pre ->
  length old = length bs ->
  store_bytes buf off bs = Some (pre ++ bs ++ post).
Proof.
  intros -> -> Hlen. unfold store_bytes.
  destruct (decide _) as [_|Hbad].
  - rewrite take_app_length, <- Hlen, (app_assoc pre old post).
    rewrite drop_app_length' by (rewrite length_app; reflexivity).
    reflexivity.
  - exfalso. apply Hbad. rewrite !length_app. lia.
Qed.

Lemma server_buffer_layout (j : opaque) (P G X b1 b2 b3 b4 b5 b6 : list opaque)
    (nP nG nX : nat) :
  length P = nP -> length G = nG -> length X = nX ->
  store_bytes
    (replicate (Z.to_nat (Z.of_nat nG + Z.of_nat nP + Z.of_nat nX + 6)) j)
    (Z.to_nat (0 + 2)) P = Some b1 ->
  store_bytes b1 (Z.to_nat 0) (uint16_bytes (Z.of_nat nP)) = Some b2 ->
  store_bytes b2 (Z.to_nat (0 + (2 + Z.of_nat nP) + 2)) G = Some b3 ->
  store_bytes b3 (Z.to_nat (0 + (2 + Z.of_nat nP)))
    (uint16_bytes (Z.of_nat nG)) = Some b4 ->
  store_bytes b4 (Z.to_nat (0 + (2 + Z.of_nat nP) + (2 + Z.of_nat nG) + 2)) X
  = Some b5 ->
  store_bytes b5 (Z.to_nat (0 + (2 + Z.of_nat nP) + (2 + Z.of_nat nG)))
    (uint16_bytes (Z.of_nat nX)) = Some b6 ->
  b6 = server_kx_message P G X.
Proof.
  intros HnP HnG HnX H1 H2 H3 H4 H5 H6.
  unfold server_kx_message, wire_field. rewrite HnP, HnG, HnX.
  replace (Z.to_nat (Z.of_nat nG + Z.of_nat nP + Z.of_nat nX + 6))
    with (2 + (nP + (2 + (nG + (2 + nX)))))%nat in H1 by lia.
  rewrite !replicate_add in H1.
  pose proof (length_uint16_bytes (Z.of_nat nP)) as HuP.
  pose proof (length_uint16_bytes (Z.of_nat nG)) as HuG.
  pose proof (length_uint16_bytes (Z.of_nat nX)) as HuX.
  assert (Hr2 : length (replicate 2 j) = 2%nat) by apply length_replicate.
  remember (uint16_bytes (Z.of_nat nP)) as uP eqn:EuP. clear EuP.
  remember (uint16_bytes (Z.of_nat nG)) as uG eqn:EuG. clear EuG.
  remember (uint16_bytes (Z.of_nat nX)) as uX eqn:EuX. clear EuX.
  remember (replicate 2 j) as r2 eqn:Er2. clear Er2.
  rewrite (store_bytes_segment _ r2 (replicate nP j)
             (r2 ++ replicate nG j ++ r2 ++ replicate nX j) P) in H1;
    [|reflexivity|lia|rewrite length_replicate; lia].
  injection H1 as <-.
  rewrite (store_bytes_segment _ [] r2
             (P ++ r2 ++ replicate nG j ++ r2 ++ replicate nX j)) in H2;
    [|reflexivity|reflexivity|lia].
  injection H2 as <-.
  rewrite (store_bytes_segment _ (uP ++ P ++ r2)
             (replicate nG j) (r2 ++ replicate nX j) G) in H3;
    [|rewrite <- !app_assoc; reflexivity
     |rewrite !length_app; lia
     |rewrite length_replicate; lia].
  injection H3 as <-.
  rewrite (store_bytes_segment _ (uP ++ P) r2
             (G ++ r2 ++ replicate nX j)) in H4;
    [|rewrite <- !app_assoc; reflexivity
     |rewrite !length_app; lia
     |lia].
  injection H4 as <-.
  rewrite (store_bytes_segment _
             (uP ++ P ++ uG ++ G ++ r2)
             (replicate nX j) [] X) in H5;
    [|rewrite <- !app_assoc, app_nil_r; reflexivity
     |rewrite !length_app; lia
     |rewrite length_replicate; lia].
  injection H5 as <-.
  rewrite (store_bytes_segment _
             (uP ++ P ++ uG ++ G) r2 (X ++ [])) in H6;
    [|rewrite <- !app_assoc; reflexivity
     |rewrite !length_app; lia
     |lia].
  injection H6 as <-.
  rewrite <- !app_assoc, app_nil_r. reflexivity.
Qed.

Lemma store_after_server (m : gmap nat Z) (h h0 h1 h2 : nat) (p g x X : Z) :
  m !! h = None -> m !! h0 = None -> m !! h2 = None ->
  h <> h0 -> h <> h1 -> h <> h2 -> h0 <> h1 -> h0 <> h2 -> h1 <> h2 ->
  delete h2 (delete h0 (delete h
    (<[h2:=X]> (<[h1:=x]> (<[h0:=g]> (<[h:=p]> m))))))
  = <[h1:=x]> m.
Proof.
  intros. apply map_eq. intros i.
  destruct (decide (i = h)), (decide (i = h0)), (decide (i = h1)),
    (decide (i = h2)); simplify_map_eq; done.
Qed.

Lemma wp_store_out_strict (off : Z) (bs : list opaque) (w : world) Q :
  ((forall buf, data_out w = Some buf ->
      store_bytes buf (Z.to_nat off) bs = None) -> Q Fault w) ->
  (forall buf buf', data_out w = Some buf ->
     store_bytes buf (Z.to_nat off) bs = Some buf' ->
     length buf' = length buf ->
     Q (Ok tt) (set_data_out (Some buf') w)) ->
  wp (store_out off bs) w Q.
Proof.
  intros Hf Hs. unfold wp, store_out.
  destruct (data_out w) as [buf|]; [|apply Hf; discriminate].
  destruct (store_bytes buf (Z.to_nat off) bs) as [buf'|] eqn:Hst.
  - simpl. apply (Hs buf buf'); [reflexivity | assumption |].
    unfold store_bytes in Hst. destruct (decide _); [|discriminate].
    injection Hst as <-. rewrite !length_app, length_take, length_drop. lia.
  - apply Hf. intros ? [= <-]. assumption.
Qed.

Ltac map_lookup_in H :=
  repeat first
    [ rewrite lookup_insert_eq in H
    | rewrite lookup_insert_ne in H by congruence
    | rewrite lookup_delete_eq in H
    | rewrite lookup_delete_ne in H by congruence ].

Ltac lengths :=
  rewrite ?length_mpi_bytes, ?length_uint16_bytes, ?length_replicate in *.

Ltac dead_branch :=
  solve
    [ exfalso; bool_hyps; congruence
    | match goal with
      | H : forall h, Some ?x = Some h -> _ !! h = None |- _ =>
          specialize (H x eq_refl); map_lookup_in H;
          first [discriminate H | congruence]
      | H : forall buf, Some ?b = Some buf -> store_bytes buf _ _ = None |- _ =>
          specialize (H b eq_refl); unfold store_bytes in H;
          destruct (decide _) as [|Hbad] in H; [discriminate H|];
          exfalso; apply Hbad; lengths; cbn [length]; lia
      end ].

Ltac wp_step_ok :=
  lazymatch goal with
  | |- wp (store_out _ _) _ _ => apply wp_store_out_strict
  | _ => first [wp_step | wp_unfold]
  end.

Ltac resolve_lookups :=
  repeat match goal with
    | H : <[_:=_]> _ !! _ = Some _ |- _ => progress map_lookup_in H
    | H : delete _ _ !! _ = Some _ |- _ => progress map_lookup_in H
    end;
  some_eqs;
  repeat match goal with
    | H1 : ?m !! ?k = Some ?a, H2 : ?m !! ?k = Some ?b |- _ =>
        rewrite H1 in H2; injection H2 as H2;
        first [subst b | subst a | clear H2]
    end.

Ltac fresh_facts_all :=
  repeat match goal with
    | H : <[_:=_]> _ !! _ = None |- _ =>
        apply lookup_insert_None in H; destruct H
    | H : delete _ _ !! _ = None |- _ =>
        apply lookup_delete_None in H; destruct H as [H|H]; [subst|]
    end.

Ltac wp_run_ok tac prune :=
  repeat (tac; wp_step_ok; world_simpl; intros; some_eqs; fresh_facts_all;
          resolve_lookups; try dead_branch; try (solve [prune])).

Lemma gen_anon_server_kx_ok_wp (E : Env) (w : world) (gv pv xv : Z) :
  dh_params E (bits_of E w) = (Some gv, Some pv) ->
  rand_x E = Some xv ->
  malloc_data_ok E = true ->
  (auth_info (state w) = None -> malloc_info_ok E = true) ->
  (auth_info (state w) <> None ->
   auth_info_type (state w) = Some (kx_cred_type (state w))) ->
  wp (gen_anon_server_kx E) w (fun r w' =>
    let msg := server_kx_message (mpi_bytes pv) (mpi_bytes gv)
                 (mpi_bytes (gv ^ xv mod pv)) in
    r = Ok (Z.of_nat (length msg)) /\
    data_out w' = Some msg /\
    anon_cred (state w') = anon_cred (state w) /\
    exists hx,
      dh_secret (state w') = Some hx /\
      mpis w !! hx = None /\
      mpis w' = <[hx:=xv]> (mpis w)).
Proof.
  intros Hparams Hrand Hmalloc Hinfo Htype.
  unfold gen_anon_server_kx. unfold bits_of in Hparams. cbv zeta.
  wp_run_ok
    ltac:(try rewrite Hparams; try rewrite Hrand;
          unfold gnutls_malloc, gnutls_malloc_info; try rewrite Hmalloc)
    ltac:(exfalso; bool_hyps;
          first [ match goal with
                  | H : Some _ <> auth_info_type _ |- _ =>
                      apply H; symmetry; apply Htype; discriminate
                  end
                | match goal with
                  | H : context [malloc_info_ok] |- _ =>
                      rewrite Hinfo in H by reflexivity; congruence
                  end ]).
  all: split;
    [rewrite length_server_kx_message, !length_mpi_bytes; f_equal; lia|].
  all: split;
    [f_equal; eapply server_buffer_layout; try eassumption;
     apply length_mpi_bytes|].
  all: split; [first [reflexivity | assumption | congruence]|].
  all: eexists; split; [reflexivity|]; split; [assumption|].
  all: apply store_after_server; assumption || congruence.
Qed.

Lemma store_bytes_whole (j : opaque) (bs : list opaque) (n : nat) :
  length bs = n ->
  store_bytes (replicate n j) 0 bs = Some bs.
Proof.
  intros <-.
  rewrite (store_bytes_segment _ [] (replicate (length bs) j) [] bs);
    [rewrite app_nil_r; reflexivity | rewrite app_nil_r; reflexivity
    | reflexivity | apply length_replicate].
Qed.

Lemma client_buffer_layout (j b : opaque) (X b1 b2 b3 : list opaque) (nX : nat) :
  length X = nX ->
  store_bytes (replicate (Z.to_nat (Z.of_nat nX + 2)) j) (Z.to_nat 2) X
  = Some b1 ->
  store_bytes b1 (Z.to_nat 0) [b] = Some b2 ->
  store_bytes b2 (Z.to_nat 0) (uint16_bytes (Z.of_nat nX)) = Some b3 ->
  b3 = client_kx_message X.
Proof.
  intros HnX H1 H2 H3.
  unfold client_kx_message, wire_field. rewrite HnX.
  replace (Z.to_nat (Z.of_nat nX + 2)) with (1 + (1 + nX))%nat in H1 by lia.
  rewrite !replicate_add in H1.
  pose proof (length_uint16_bytes (Z.of_nat nX)) as HuX.
  remember (uint16_bytes (Z.of_nat nX)) as uX eqn:EuX. clear EuX.
  assert (Hr1 : length (replicate 1 j) = 1%nat) by apply length_replicate.
  remember (replicate 1 j) as r1 eqn:Er1. clear Er1.
  rewrite (store_bytes_segment _ (r1 ++ r1) (replicate nX j) [] X) in H1;
    [|rewrite <- !app_assoc, app_nil_r; reflexivity
     |rewrite length_app; change (Z.to_nat 2) with 2%nat; lia
     |rewrite length_replicate; lia].
  injection H1 as <-.
  rewrite (store_bytes_segment _ [] r1 (r1 ++ X ++ []) [b]) in H2;
    [|rewrite <- !app_assoc; reflexivity|reflexivity|simpl; lia].
  injection H2 as <-.
  rewrite (store_bytes_segment _ [] ([b] ++ r1) (X ++ []) uX) in H3;
    [|rewrite <- !app_assoc; reflexivity|reflexivity
     |rewrite length_app; simpl; lia].
  injection H3 as <-.
  rewrite app_nil_r. reflexivity.
Qed.

Lemma store_after_client (m : gmap nat Z) (hg hp hY h1 h2 h3 : nat) (x X K : Z) :
  is_Some (m !! hg) -> is_Some (m !! hp) -> is_Some (m !! hY) ->
  m !! h1 = None -> m !! h2 = None -> h1 <> h2 ->
  m !! h3 = None -> h3 <> h1 ->
  delete h3 (delete hg (delete hp (delete hY
    (<[h3:=K]> (delete h2 (<[h2:=X]> (<[h1:=x]> m)))))))
  = <[h1:=x]> (delete hg (delete hp (delete hY m))).
Proof.
  intros [? ?] [? ?] [? ?] ? ? ? ? ?.
  apply map_eq. intros i.
  destruct (decide (i = hg)), (decide (i = hp)), (decide (i = hY)),
    (decide (i = h1)), (decide (i = h2)), (decide (i = h3));
    simplify_map_eq; done.
Qed.

Lemma gen_anon_client_kx_ok_wp
    (E : Env) (w : world) (hg hp hY : MPI) (gv pv Yv xv : Z) :
  client_g (state w) = Some hg ->
  client_p (state w) = Some hp ->
  client_Y (state w) = Some hY ->
  mpis w !! hg = Some gv ->
  mpis w !! hp = Some pv ->
  mpis w !! hY = Some Yv ->
  hg <> hp -> hg <> hY -> hp <> hY ->
  rand_x E = Some xv ->
  dh_key_ok E = true ->
  malloc_data_ok E = true ->
  secure_malloc_ok E = true ->
  wp (gen_anon_client_kx E) w (fun r w' =>
    let msg := client_kx_message (mpi_bytes (gv ^ xv mod pv)) in
    let K := mpi_bytes (Yv ^ xv mod pv) in
    r = Ok (Z.of_nat (length msg)) /\
    data_out w' = Some msg /\
    key (state w') = {| data := Some K; size := Z.of_nat (length K) |} /\
    client_Y (state w') = None /\
    client_g (state w') = None /\
    client_p (state w') = None /\
    KEY (state w') = None /\
    exists hx,
      mpis w !! hx = None /\
      mpis w' = <[hx:=xv]> (delete hg (delete hp (delete hY (mpis w))))).
Proof.
  intros Hg Hp HY Hgv Hpv HYv Hne1 Hne2 Hne3 Hrand Hkey Hmalloc Hsec.
  unfold gen_anon_client_kx. cbv zeta.
  wp_run_ok
    ltac:(try rewrite Hg; try rewrite Hp; try rewrite HY; try rewrite Hrand;
          try rewrite Hkey;
          unfold gnutls_malloc, gnutls_secure_malloc;
          try rewrite Hmalloc; try rewrite Hsec)
    ltac:(idtac;
          match goal with
          | H : store_bytes (replicate _ _) 0 _ = None |- _ =>
              rewrite Nat2Z.id, store_bytes_whole in H
                by apply length_mpi_bytes;
              discriminate H
          end).
  all: match goal with
       | H : store_bytes (replicate _ _) 0 _ = Some _ |- _ =>
           rewrite Nat2Z.id, store_bytes_whole in H by apply length_mpi_bytes;
           injection H as <-
       end.
  all: split;
    [unfold client_kx_message;
     rewrite length_wire_field, length_mpi_bytes; f_equal; lia|].
  all: split;
    [f_equal; eapply client_buffer_layout; try eassumption;
     apply length_mpi_bytes|].
  all: repeat (split; [reflexivity|]).
  all: eexists; split;
    [|apply store_after_client; eauto; congruence]; assumption.
Qed.

Lemma READ_client (Y tl : list opaque) :
  Z.of_nat (length Y) < 65536 ->
  READuint16 (client_kx_message Y ++ tl) 0 = mret (Z.of_nat (length Y)).
Proof.
  intros HY. unfold client_kx_message.
  apply (READuint16_field [] Y tl); [reflexivity | assumption].
Qed.

Lemma slice_client (Y tl : list opaque) :
  take (Z.to_nat (Z.of_nat (length Y)))
    (drop (Z.to_nat 2) (client_kx_message Y ++ tl)) = Y.
Proof.
  rewrite Nat2Z.id. change (Z.to_nat 2) with 2%nat.
  unfold client_kx_message, wire_field. rewrite <- !app_assoc.
  rewrite drop_app_length' by reflexivity.
  rewrite take_app_length' by reflexivity. reflexivity.
Qed.

Lemma store_after_server_proc (m : gmap nat Z) (hx h1 h2 h3 h4 : nat)
    (Y p g K : Z) :
  is_Some (m !! hx) ->
  m !! h1 = None -> m !! h2 = None -> m !! h3 = None -> m !! h4 = None ->
  h1 <> h2 -> h1 <> h3 -> h2 <> h3 ->
  delete h4 (delete h3 (delete h2 (delete hx (delete h1
    (<[h4:=K]> (<[h3:=g]> (<[h2:=p]> (<[h1:=Y]> m))))))))
  = delete hx m.
Proof.
  intros [? ?] ? ? ? ? ? ? ?. apply map_eq. intros i.
  destruct (decide (i = hx)), (decide (i = h1)), (decide (i = h2)),
    (decide (i = h3)), (decide (i = h4)); simplify_map_eq; done.
Qed.

Lemma proc_anon_client_kx_ok_wp
    (E : Env) (Y tl : list opaque) (ds : Z) (w : world)
    (hx : MPI) (xv gv pv : Z) :
  dh_secret (state w) = Some hx ->
  mpis w !! hx = Some xv ->
  dh_params E (bits_of E w) = (Some gv, Some pv) ->
  dh_key_ok E = true ->
  secure_malloc_ok E = true ->
  Z.of_nat (length Y) < 65536 ->
  (length Y <= mpi_scan_limit E)%nat ->
  Z.of_nat (length (client_kx_message Y)) <= ds ->
  ds <= Z.of_nat (length (client_kx_message Y ++ tl)) ->
  wp (proc_anon_client_kx E (client_kx_message Y ++ tl) ds) w (fun r w' =>
    let K := mpi_bytes (be_value Y ^ xv mod pv) in
    r = Ok 0 /\
    key (state w') = {| data := Some K; size := Z.of_nat (length K) |} /\
    dh_secret (state w') = None /\
    client_Y (state w') = None /\
    KEY (state w') = None /\
    mpis w' = delete hx (mpis w)).
Proof.
  intros Hsec Hxv Hparams Hkey Hsmalloc HY HlY Hlo Hhi.
  unfold client_kx_message in Hlo, Hhi.
  rewrite length_app in Hhi. rewrite length_wire_field in Hlo, Hhi.
  pose proof (READ_client Y tl HY) as Hread.
  pose proof (slice_client Y tl) as Hslice.
  assert (Hlen : length (client_kx_message Y ++ tl) = (2 + length Y + length tl)%nat)
    by (unfold client_kx_message; rewrite length_app, length_wire_field; reflexivity).
  generalize dependent (client_kx_message Y ++ tl). intros buf Hread Hslice Hlen.
  unfold proc_anon_client_kx. unfold bits_of in Hparams. cbv zeta.
  wp_run_ok
    ltac:(try rewrite Hread; try rewrite Hparams; try rewrite Hsec;
          try rewrite Hkey; try rewrite Hslice;
          unfold gnutls_secure_malloc; try rewrite Hsmalloc)
    ltac:(first
            [ exfalso; lia
            | match goal with
              | H : store_bytes (replicate _ _) 0 _ = None |- _ =>
                  rewrite Nat2Z.id, store_bytes_whole in H
                    by apply length_mpi_bytes;
                  discriminate H
              end ]).
  all: match goal with
       | H : store_bytes (replicate _ _) 0 _ = Some _ |- _ =>
           rewrite Nat2Z.id, store_bytes_whole in H by apply length_mpi_bytes;
           injection H as <-
       end.
  all: repeat (split; [reflexivity|]).
  all: apply store_after_server_proc; eauto; congruence.
Qed.

(** ** Zero-length fields *)

Lemma proc_anon_server_kx_zero_length_wp
    (E : Env) (P G Y tl : list opaque) (ds : Z) (w : world) :
  Z.of_nat (length P) < 65536 ->
  Z.of_nat (length G) < 65536 ->
  Z.of_nat (length Y) < 65536 ->
  Z.of_nat (length (server_kx_message P G Y)) <= ds ->
  ds <= Z.of_nat (length (server_kx_message P G Y ++ tl)) ->
  2 + Z.of_nat (length P) <= ds - 2 - Z.of_nat (length P) ->
  wp (proc_anon_server_kx E (server_kx_message P G Y ++ tl) ds) w (fun r w' =>
    (Y = [] ->
     exists h, client_Y (state w') = Some h /\ mpis w' !! h = Some 0) /\
    (G = [] -> (length Y <= mpi_scan_limit E)%nat ->
     exists h, client_g (state w') = Some h /\ mpis w' !! h = Some 0) /\
    (P = [] -> (length Y <= mpi_scan_limit E)%nat ->
     (length G <= mpi_scan_limit E)%nat ->
     exists h, client_p (state w') = Some h /\ mpis w' !! h = Some 0) /\
    ((length P <= mpi_scan_limit E)%nat ->
     (length G <= mpi_scan_limit E)%nat ->
     (length Y <= mpi_scan_limit E)%nat ->
     r <> Err GNUTLS_E_MPI_SCAN_FAILED /\
     r <> Err GNUTLS_E_UNEXPECTED_PACKET_LENGTH /\
     r <> Fault)).
Proof.
  intros HP HG HY Hlo Hhi Hextra.
  rewrite length_app in Hhi. rewrite length_server_kx_message in *.
  eapply wp_eq; [pass_server_length_checks; reflexivity|].
  pose proof (slice_P P G Y tl) as HsP.
  pose proof (slice_G P G Y tl) as HsG.
  pose proof (slice_Y P G Y tl) as HsY.
  assert (Hlen : length (server_kx_message P G Y ++ tl)
                 = (6 + length P + length G + length Y + length tl)%nat)
    by (rewrite length_app, length_server_kx_message; reflexivity).
  generalize dependent (server_kx_message P G Y ++ tl).
  intros data HsP HsG HsY Hlen.
  wp_run_all.
  all: rewrite ?HsP, ?HsG, ?HsY in *.
  all: try (exfalso; lia).
  all: try dead_fault.
  all: fresh_facts.
  all: repeat split; intros; subst; simpl in *; try lia; try discriminate.
  all: eexists; split; [reflexivity|];
    rewrite ?lookup_insert_ne by congruence; rewrite lookup_insert_eq;
    reflexivity.
Qed.

Lemma proc_anon_client_kx_zero_length_wp
    (E : Env) (tl : list opaque) (ds : Z) (w : world) :
  2 <= ds ->
  wp (proc_anon_client_kx E (client_kx_message [] ++ tl) ds) w (fun r w' =>
    r <> Err GNUTLS_E_MPI_SCAN_FAILED /\
    r <> Err GNUTLS_E_UNEXPECTED_PACKET_LENGTH /\
    ((dh_params E (bits_of E w)).1 = None ->
     r = Err GNUTLS_E_MEMORY_ERROR /\
     exists h, client_Y (state w') = Some h /\ mpis w' !! h = Some 0)).
Proof.
  intros Hds. unfold proc_anon_client_kx, bits_of. cbv zeta.
  apply wp_bind. unfold configured_bits. apply wp_bind, wp_gets.
  assert (Hread : READuint16 (client_kx_message [] ++ tl) 0 = mret 0)
    by (apply (READuint16_field [] [] tl); simpl; lia).
  pose proof (slice_client [] tl) as Hslice.
  assert (Hlen : (2 <= length (client_kx_message [] ++ tl))%nat)
    by (rewrite length_app; simpl; lia).
  generalize dependent (client_kx_message [] ++ tl).
  intros buf Hread Hslice Hlen.
  destruct (anon_cred (state w)); apply wp_ret.
  all: eapply wp_eq;
    [rewrite bind_DECR_LEN_ok by lia; rewrite Hread, bind_ret;
     rewrite bind_DECR_LEN_ok by lia; reflexivity|].
  all: wp_run_all.
  all: try (exfalso; simpl in *; lia).
  all: rewrite ?Hslice in *; fresh_facts.
  all: split; [discriminate|]; split; [discriminate|].
  all: intros Hg; try (exfalso; simpl in *; congruence).
  all: split; [reflexivity|]; eexists; split; [reflexivity|].
  all: rewrite ?lookup_insert_ne by congruence; apply lookup_insert_eq.
Qed.

(** C9. A field whose declared length is 0 is decoded to the big integer 0
    and is no cause of [GNUTLS_E_MPI_SCAN_FAILED].
    - [proc_anon_server_kx], on a buffer that starts with a well-formed
      message and passes the length checks: a zero-length public value is
      stored in [client_Y] as 0; a zero-length generator, once the public
      value has been scanned, is stored in [client_g] as 0; a zero-length
      modulus, once the two others have been scanned, is stored in
      [client_p] as 0; when no field exceeds the limit of the big-integer
      library the call does not fail with [GNUTLS_E_MPI_SCAN_FAILED] (nor on a
      length check, nor by a read outside the buffer); and when moreover the
      negotiated info can be recorded (it is unset and can be allocated, or
      it has the negotiated type), the call returns 0.
    - [proc_anon_client_kx], on a buffer that starts with a zero-length
      public value and with [data_size] >= 2, does not fail with
      [GNUTLS_E_MPI_SCAN_FAILED] nor on a length check. The value it decoded
      is 0: when the parameter source then delivers no generator, the call
      returns [GNUTLS_E_MEMORY_ERROR] with [client_Y] pointing to a big
      integer 0; when the private exponent x is stored, the parameter
      source delivers (g, p), the derivation and the allocation of the key
      succeed and the buffer holds [data_size] bytes, the call returns 0
      and the key is the minimal big-endian form of 0^x mod p. *)
Theorem zero_length_field_scans
    (E : Env) (P G Y tl : list opaque) (ds : Z) (w : world) :
  Z.of_nat (length P) < 65536 ->
  Z.of_nat (length G) < 65536 ->
  Z.of_nat (length Y) < 65536 ->
  Z.of_nat (length (server_kx_message P G Y)) <= ds ->
  ds <= Z.of_nat (length (server_kx_message P G Y ++ tl)) ->
  2 + Z.of_nat (length P) <= ds - 2 - Z.of_nat (length P) ->
  (let out := proc_anon_server_kx E (server_kx_message P G Y ++ tl) ds w in
   (Y = [] ->
    exists h, client_Y (state out.2) = Some h /\ mpis out.2 !! h = Some 0) /\
   (G = [] -> (length Y <= mpi_scan_limit E)%nat ->
    exists h, client_g (state out.2) = Some h /\ mpis out.2 !! h = Some 0) /\
   (P = [] -> (length Y <= mpi_scan_limit E)%nat ->
    (length G <= mpi_scan_limit E)%nat ->
    exists h, client_p (state out.2) = Some h /\ mpis out.2 !! h = Some 0) /\
   ((length P <= mpi_scan_limit E)%nat ->
    (length G <= mpi_scan_limit E)%nat ->
    (length Y <= mpi_scan_limit E)%nat ->
    out.1 <> Err GNUTLS_E_MPI_SCAN_FAILED /\
    out.1 <> Err GNUTLS_E_UNEXPECTED_PACKET_LENGTH /\
    out.1 <> Fault /\
    ((auth_info (state w) = None -> malloc_info_ok E = true) ->
     (auth_info (state w) <> None ->
      auth_info_type (state w) = Some (kx_cred_type (state w))) ->
     out.1 = Ok 0)))
  /\ (forall (tl' : list opaque) (ds' : Z),
        2 <= ds' ->
        let out := proc_anon_client_kx E (client_kx_message [] ++ tl') ds' w in
        out.1 <> Err GNUTLS_E_MPI_SCAN_FAILED /\
        out.1 <> Err GNUTLS_E_UNEXPECTED_PACKET_LENGTH /\
        ((dh_params E (bits_of E w)).1 = None ->
         out.1 = Err GNUTLS_E_MEMORY_ERROR /\
         exists h,
           client_Y (state out.2) = Some h /\ mpis out.2 !! h = Some 0) /\
        (forall (hx : MPI) (xv gv pv : Z),
            dh_secret (state w) = Some hx ->
            mpis w !! hx = Some xv ->
            dh_params E (bits_of E w) = (Some gv, Some pv) ->
            dh_key_ok E = true ->
            secure_malloc_ok E = true ->
            ds' <= Z.of_nat (length (client_kx_message [] ++ tl')) ->
            let K := mpi_bytes (0 ^ xv mod pv) in
            out.1 = Ok 0 /\
            key (state out.2)
            = {| data := Some K; size := Z.of_nat (length K) |})).
Proof.
  intros HP HG HY Hlo Hhi Hextra. split.
  - pose proof (proc_anon_server_kx_zero_length_wp E P G Y tl ds w
                  HP HG HY Hlo Hhi Hextra) as (HzY & HzG & HzP & Hno).
    cbv zeta. repeat (split; [assumption|]).
    intros HlP HlG HlY.
    destruct (Hno HlP HlG HlY) as (H1 & H2 & H3).
    repeat (split; [assumption|]).
    intros Hmalloc Htype.
    exact (proj1 (proc_anon_server_kx_accepts_wp E P G Y tl ds w
                    HP HG HY Hlo Hhi Hextra HlP HlG HlY Hmalloc Htype)).
  - intros tl' ds' Hds'. cbv zeta.
    pose proof (proc_anon_client_kx_zero_length_wp E tl' ds' w Hds')
      as (H1 & H2 & H3).
    repeat (split; [assumption|]).
    intros hx xv gv pv Hsec Hxv Hparams Hkey Hsmalloc Hhi'.
    pose proof (proc_anon_client_kx_ok_wp E [] tl' ds' w hx xv gv pv
                  Hsec Hxv Hparams Hkey Hsmalloc) as Hok.
    destruct Hok as (Hr & Hk & _);
      [simpl; lia | simpl; lia | simpl; lia | exact Hhi' |].
    split; [exact Hr | exact Hk].
Qed.

Lemma zero_length_field_scans_witness :
  let E := example_env 5 23 3 in
  let server := proc_anon_server_kx E (empty_fields_message ++ []) 7 fresh_world in
  let client :=
    proc_anon_client_kx E (client_kx_message [] ++ []) 2 awaiting_peer_world in
  let refused :=
    proc_anon_client_kx no_params_env (client_kx_message [] ++ []) 2
      fresh_world in
  server.1 = Ok 0
  /\ (exists h, client_Y (state server.2) = Some h /\
                mpis server.2 !! h = Some 0)
  /\ (exists h, client_g (state server.2) = Some h /\
                mpis server.2 !! h = Some 0)
  /\ client.1 = Ok 0
  /\ key (state client.2)
     = {| data := Some (mpi_bytes (0 ^ 3 mod 23));
          size := Z.of_nat (length (mpi_bytes (0 ^ 3 mod 23))) |}
  /\ refused.1 = Err GNUTLS_E_MEMORY_ERROR
  /\ (exists h, client_Y (state refused.2) = Some h /\
                mpis refused.2 !! h = Some 0).
Proof.
  intros E.
  assert (H1 : Z.of_nat (length (mpi_bytes 23)) < 65536)
    by (vm_compute; reflexivity).
  assert (H2 : Z.of_nat (length (@nil opaque)) < 65536)
    by (vm_compute; reflexivity).
  assert (H4 : Z.of_nat (length (server_kx_message (mpi_bytes 23) [] [])) <= 7)
    by (vm_compute; discriminate).
  assert (H5 : 7 <= Z.of_nat (length (server_kx_message (mpi_bytes 23) [] []
                                        ++ [])))
    by (vm_compute; discriminate).
  assert (H6 : 2 + Z.of_nat (length (mpi_bytes 23))
               <= 7 - 2 - Z.of_nat (length (mpi_bytes 23)))
    by (vm_compute; discriminate).
  pose proof (fun E' w => zero_length_field_scans E' (mpi_bytes 23) [] [] [] 7 w
                            H1 H2 H2 H4 H5 H6) as Hthm.
  destruct (Hthm E fresh_world) as ((HzY & HzG & _ & Hno) & _).
  destruct (Hthm E awaiting_peer_world) as (_ & Hclient).
  destruct (Hclient [] 2 ltac:(lia)) as (_ & _ & _ & Hkey).
  destruct (Hkey 0%nat 3 5 23) as (Hcr & Hck);
    [reflexivity | reflexivity | reflexivity | reflexivity | reflexivity
    | vm_compute; discriminate |].
  destruct (Hthm no_params_env fresh_world) as (_ & Hrefused).
  destruct (Hrefused [] 2 ltac:(lia)) as (_ & _ & Hnone & _).
  destruct (Hnone eq_refl) as (Hrr & HrY).
  destruct Hno as (_ & _ & _ & Hok);
    [vm_compute; lia | vm_compute; lia | vm_compute; lia |].
  split; [apply Hok; [reflexivity | intros H; exfalso; apply H; reflexivity]|].
  split; [apply HzY; reflexivity|].
  split; [apply HzG; [reflexivity | vm_compute; lia]|].
  split; [exact Hcr|]. split; [exact Hck|].
  split; [exact Hrr | exact HrY].
Defined.

(** ** The negotiated info and its type tag *)

Lemma gen_anon_server_kx_conflict_wp (E : Env) (w : world) (a : ANON_AUTH_INFO_INT) :
  auth_info (state w) = Some a ->
  auth_info_type (state w) <> Some GNUTLS_ANON ->
  kx_cred_type (state w) = GNUTLS_ANON ->
  wp (gen_anon_server_kx E) w (fun r w' =>
    ((exists g p, dh_params E (bits_of E w) = (Some g, Some p)) ->
     r = Err GNUTLS_E_INVALID_REQUEST) /\
    ((dh_params E (bits_of E w)).1 = None \/
     (dh_params E (bits_of E w)).2 = None ->
     r = Err GNUTLS_E_MEMORY_ERROR) /\
    auth_info (state w') = Some a /\
    auth_info_type (state w') = auth_info_type (state w)).
Proof.
  intros Ha Ht Hk. unfold gen_anon_server_kx, bits_of. cbv zeta.
  wp_run_all.
  all: repeat split; auto; try congruence.
  all: try (intros (g & p & Hgp); rewrite Hgp in *; simpl in *; bool_hyps;
            try discriminate; congruence).
  all: intros [Hn | Hn]; simpl in *; bool_hyps; congruence.
Qed.

Lemma gen_anon_server_kx_records_wp (E : Env) (w : world) (gv pv : Z) :
  auth_info (state w) = None ->
  dh_params E (bits_of E w) = (Some gv, Some pv) ->
  malloc_info_ok E = true ->
  wp (gen_anon_server_kx E) w (fun r w' =>
    auth_info (state w') = Some {| dh_bits := gcry_mpi_get_nbits pv |} /\
    auth_info_type (state w') = Some GNUTLS_ANON /\
    auth_info_size (state w') = sizeof_ANON_AUTH_INFO_INT).
Proof.
  intros Ha Hparams Hmalloc. unfold gen_anon_server_kx. unfold bits_of in Hparams.
  cbv zeta.
  wp_run_ok
    ltac:(try rewrite Hparams; try rewrite Ha;
          unfold gnutls_malloc_info; try rewrite Hmalloc)
    ltac:(fail).
  all: repeat split; reflexivity.
Qed.

Lemma gen_anon_server_kx_unset_wp (E : Env) (w : world) :
  auth_info (state w) = None ->
  wp (gen_anon_server_kx E) w (fun r w' =>
    forall n, r = Ok n ->
    exists pv,
      (dh_params E (bits_of E w)).2 = Some pv /\
      auth_info (state w') = Some {| dh_bits := gcry_mpi_get_nbits pv |} /\
      auth_info_type (state w') = Some GNUTLS_ANON).
Proof.
  intros Ha. unfold gen_anon_server_kx, bits_of. cbv zeta.
  wp_run_all.
  all: try discriminate.
  all: simplify_eq; fresh_facts.
  all: eexists; split; [first [eassumption | reflexivity]|].
  all: match goal with
       | H : <[_:=_]> (<[?h:=?pv]> _) !! ?h = Some ?v |- _ =>
           rewrite lookup_insert_ne, lookup_insert_eq in H by congruence;
           injection H as <-
       end.
  all: split; reflexivity.
Qed.

Lemma proc_anon_server_kx_conflict_wp
    (E : Env) (buf : list opaque) (ds : Z) (w : world) (a : ANON_AUTH_INFO_INT) :
  auth_info (state w) = Some a ->
  auth_info_type (state w) <> Some GNUTLS_ANON ->
  kx_cred_type (state w) = GNUTLS_ANON ->
  wp (proc_anon_server_kx E buf ds) w (fun r w' =>
    (forall n, r <> Ok n) /\
    auth_info (state w') = Some a /\
    auth_info_type (state w') = auth_info_type (state w)).
Proof.
  intros Ha Ht Hk. unfold proc_anon_server_kx. cbv zeta.
  wp_run_all.
  all: repeat split; auto; try congruence.
Qed.

Lemma proc_anon_server_kx_conflict_invalid_request_wp
    (E : Env) (P G Y tl : list opaque) (ds : Z) (w : world) (a : ANON_AUTH_INFO_INT) :
  auth_info (state w) = Some a ->
  auth_info_type (state w) <> Some GNUTLS_ANON ->
  kx_cred_type (state w) = GNUTLS_ANON ->
  Z.of_nat (length P) < 65536 ->
  Z.of_nat (length G) < 65536 ->
  Z.of_nat (length Y) < 65536 ->
  Z.of_nat (length (server_kx_message P G Y)) <= ds ->
  ds <= Z.of_nat (length (server_kx_message P G Y ++ tl)) ->
  2 + Z.of_nat (length P) <= ds - 2 - Z.of_nat (length P) ->
  (length P <= mpi_scan_limit E)%nat ->
  (length G <= mpi_scan_limit E)%nat ->
  (length Y <= mpi_scan_limit E)%nat ->
  wp (proc_anon_server_kx E (server_kx_message P G Y ++ tl) ds) w (fun r _ =>
    r = Err GNUTLS_E_INVALID_REQUEST).
Proof.
  intros Ha Ht Hk HP HG HY Hlo Hhi Hextra HlP HlG HlY.
  rewrite length_app in Hhi. rewrite length_server_kx_message in *.
  eapply wp_eq; [pass_server_length_checks; reflexivity|].
  assert (Hlen : length (server_kx_message P G Y ++ tl)
                 = (6 + length P + length G + length Y + length tl)%nat)
    by (rewrite length_app, length_server_kx_message; reflexivity).
  generalize dependent (server_kx_message P G Y ++ tl). intros buf Hlen.
  wp_run_all.
  all: try (exfalso; lia).
  all: reflexivity.
Qed.

Lemma proc_anon_server_kx_unset_wp
    (E : Env) (buf : list opaque) (ds : Z) (w : world) :
  auth_info (state w) = None ->
  wp (proc_anon_server_kx E buf ds) w (fun r w' =>
    forall n, r = Ok n ->
    exists h pv,
      client_p (state w') = Some h /\ mpis w' !! h = Some pv /\
      auth_info (state w') = Some {| dh_bits := gcry_mpi_get_nbits pv |} /\
      auth_info_type (state w') = Some GNUTLS_ANON).
Proof.
  intros Ha. unfold proc_anon_server_kx. cbv zeta.
  wp_run_all.
  all: try discriminate.
  all: simplify_eq.
  all: eexists _, _; repeat split; eauto.
Qed.

(** The type check is reached once the steps before it have succeeded: the
    parameter lookup in [gen_anon_server_kx], the decoding and the three scans
    in [proc_anon_server_kx]. When one of those fails, its error code is the
    one returned, also on a session bound to another exchange type. *)
Example earlier_failures_precede_type_check :
  proc_anon_server_kx (example_env 5 23 3) [] 0 x509_bound_world
  = (Err GNUTLS_E_UNEXPECTED_PACKET_LENGTH, x509_bound_world)
  /\ gen_anon_server_kx no_params_env x509_bound_world
     = (Err GNUTLS_E_MEMORY_ERROR, x509_bound_world).
Proof. vm_compute. split; reflexivity. Qed.

(** C7. The negotiated info and its type tag, at the type check of
    [gen_anon_server_kx] and of [proc_anon_server_kx]. The check is reached
    once the steps before it have succeeded: in [gen_anon_server_kx] the
    parameter source has delivered g and p; in [proc_anon_server_kx] the
    buffer starts with a well-formed message that passes the length checks
    and has no field above the scan limit.
    - On a session that negotiated the anonymous exchange and whose
      [auth_info] is set with an [auth_info_type] other than [GNUTLS_ANON],
      both functions, once they reach the check, fail with
      [GNUTLS_E_INVALID_REQUEST]; [gen_anon_server_kx] fails with
      [GNUTLS_E_MEMORY_ERROR] when the parameter source does not deliver both
      parameters, and [proc_anon_server_kx] succeeds on no buffer. Whatever
      they return, [auth_info] and its type tag are as they were.
    - On a session whose [auth_info] is unset, and when the record can be
      allocated, both functions, once they reach that point, leave
      [auth_info] allocated, with the type tag [GNUTLS_ANON] and with
      [dh_bits] equal to the bit length of the modulus - the p of the
      parameter source, respectively the value of the modulus field of the
      message -, and [proc_anon_server_kx] returns 0. Also, on any buffer and
      with any collaborators, a call of either function that succeeds has
      allocated [auth_info], set the tag to [GNUTLS_ANON] and recorded the
      bit length of the modulus. *)
Theorem auth_info_type_check
    (E : Env) (buf : list opaque) (ds : Z) (w : world) :
  let server := gen_anon_server_kx E w in
  let client := proc_anon_server_kx E buf ds w in
  (forall a : ANON_AUTH_INFO_INT,
      auth_info (state w) = Some a ->
      auth_info_type (state w) <> Some GNUTLS_ANON ->
      kx_cred_type (state w) = GNUTLS_ANON ->
      ((exists g p, dh_params E (bits_of E w) = (Some g, Some p)) ->
       server.1 = Err GNUTLS_E_INVALID_REQUEST) /\
      ((dh_params E (bits_of E w)).1 = None \/
       (dh_params E (bits_of E w)).2 = None ->
       server.1 = Err GNUTLS_E_MEMORY_ERROR) /\
      auth_info (state server.2) = Some a /\
      auth_info_type (state server.2) = auth_info_type (state w) /\
      (forall P G Y tl : list opaque,
          buf = server_kx_message P G Y ++ tl ->
          Z.of_nat (length P) < 65536 ->
          Z.of_nat (length G) < 65536 ->
          Z.of_nat (length Y) < 65536 ->
          Z.of_nat (length (server_kx_message P G Y)) <= ds ->
          ds <= Z.of_nat (length buf) ->
          2 + Z.of_nat (length P) <= ds - 2 - Z.of_nat (length P) ->
          (length P <= mpi_scan_limit E)%nat ->
          (length G <= mpi_scan_limit E)%nat ->
          (length Y <= mpi_scan_limit E)%nat ->
          client.1 = Err GNUTLS_E_INVALID_REQUEST) /\
      (forall n, client.1 <> Ok n) /\
      auth_info (state client.2) = Some a /\
      auth_info_type (state client.2) = auth_info_type (state w))
  /\ (auth_info (state w) = None ->
      (forall gv pv : Z,
          dh_params E (bits_of E w) = (Some gv, Some pv) ->
          malloc_info_ok E = true ->
          auth_info (state server.2)
          = Some {| dh_bits := gcry_mpi_get_nbits pv |} /\
          auth_info_type (state server.2) = Some GNUTLS_ANON) /\
      (forall P G Y tl : list opaque,
          buf = server_kx_message P G Y ++ tl ->
          Z.of_nat (length P) < 65536 ->
          Z.of_nat (length G) < 65536 ->
          Z.of_nat (length Y) < 65536 ->
          Z.of_nat (length (server_kx_message P G Y)) <= ds ->
          ds <= Z.of_nat (length buf) ->
          2 + Z.of_nat (length P) <= ds - 2 - Z.of_nat (length P) ->
          (length P <= mpi_scan_limit E)%nat ->
          (length G <= mpi_scan_limit E)%nat ->
          (length Y <= mpi_scan_limit E)%nat ->
          malloc_info_ok E = true ->
          client.1 = Ok 0 /\
          auth_info (state client.2)
          = Some {| dh_bits := gcry_mpi_get_nbits (be_value P) |} /\
          auth_info_type (state client.2) = Some GNUTLS_ANON) /\
      (forall n, server.1 = Ok n ->
          exists pv,
            (dh_params E (bits_of E w)).2 = Some pv /\
            auth_info (state server.2)
            = Some {| dh_bits := gcry_mpi_get_nbits pv |} /\
            auth_info_type (state server.2) = Some GNUTLS_ANON) /\
      (forall n, client.1 = Ok n ->
          exists h pv,
            client_p (state client.2) = Some h /\
            mpis client.2 !! h = Some pv /\
            auth_info (state client.2)
            = Some {| dh_bits := gcry_mpi_get_nbits pv |} /\
            auth_info_type (state client.2) = Some GNUTLS_ANON)).
Proof.
  cbv zeta. split.
  - intros a Ha Ht Hk.
    pose proof (gen_anon_server_kx_conflict_wp E w a Ha Ht Hk)
      as (Hinv & Hmem & Hsinfo & Hstype).
    pose proof (proc_anon_server_kx_conflict_wp E buf ds w a Ha Ht Hk)
      as (Hfail & Hinfo & Htype).
    repeat (split; [assumption|]).
    split; [|repeat split; assumption].
    intros P G Y tl -> HP HG HY Hlo Hhi Hextra HlP HlG HlY.
    exact (proc_anon_server_kx_conflict_invalid_request_wp E P G Y tl ds w a
             Ha Ht Hk HP HG HY Hlo Hhi Hextra HlP HlG HlY).
  - intros Hnone. split; [|split; [|split]].
    + intros gv pv Hparams Hmalloc.
      pose proof (gen_anon_server_kx_records_wp E w gv pv Hnone Hparams Hmalloc)
        as (Hinfo & Htype & _).
      split; assumption.
    + intros P G Y tl -> HP HG HY Hlo Hhi Hextra HlP HlG HlY Hmalloc.
      pose proof (proc_anon_server_kx_accepts_wp E P G Y tl ds w
                    HP HG HY Hlo Hhi Hextra HlP HlG HlY) as Hwp.
      destruct Hwp as (Hr & hY & hg & hp & _ & _ & _ & _ & _ & _ & _ & _ & _
                       & _ & Hinfo & Htype & _).
      * intros _. exact Hmalloc.
      * intros Hset. exfalso. apply Hset. exact Hnone.
      * repeat split; assumption.
    + intros n Hrun.
      exact (gen_anon_server_kx_unset_wp E w Hnone n Hrun).
    + intros n Hrun.
      exact (proc_anon_server_kx_unset_wp E buf ds w Hnone n Hrun).
Qed.

Lemma auth_info_type_check_witness :
  let E := example_env 5 23 3 in
  (gen_anon_server_kx E x509_bound_world).1 = Err GNUTLS_E_INVALID_REQUEST
  /\ (proc_anon_server_kx E small_message 9 x509_bound_world).1
     = Err GNUTLS_E_INVALID_REQUEST
  /\ auth_info (state (gen_anon_server_kx E x509_bound_world).2)
     = Some {| dh_bits := 0 |}
  /\ auth_info (state (proc_anon_server_kx E small_message 9 x509_bound_world).2)
     = Some {| dh_bits := 0 |}
  /\ auth_info (state (gen_anon_server_kx E fresh_world).2)
     = Some {| dh_bits := gcry_mpi_get_nbits 23 |}
  /\ (proc_anon_server_kx E small_message 9 fresh_world).1 = Ok 0
  /\ auth_info (state (proc_anon_server_kx E small_message 9 fresh_world).2)
     = Some {| dh_bits := gcry_mpi_get_nbits (be_value (mpi_bytes 23)) |}.
Proof.
  intros E.
  destruct (auth_info_type_check E small_message 9 x509_bound_world)
    as (Hset & _).
  destruct (Hset {| dh_bits := 0 |}) as (Hsrv & _ & Hsrv_info & _ & Hcli & _
                                         & Hcli_info & _);
    [reflexivity | vm_compute; discriminate | reflexivity |].
  destruct (auth_info_type_check E small_message 9 fresh_world)
    as (_ & Hunset).
  destruct (Hunset eq_refl) as (Hgen & Hproc & _).
  destruct (Hgen 5 23 eq_refl eq_refl) as (Hgen_info & _).
  destruct (Hproc (mpi_bytes 23) (mpi_bytes 5) (mpi_bytes 8) [])
    as (Hproc_r & Hproc_info & _);
    try (vm_compute; first [reflexivity | discriminate | lia]).
  split; [apply Hsrv; exists 5, 23; reflexivity|].
  split; [apply (Hcli (mpi_bytes 23) (mpi_bytes 5) (mpi_bytes 8) []);
          vm_compute; first [reflexivity | discriminate | lia]|].
  repeat split; assumption.
Defined.

(** On a session without negotiated info both functions succeed and record
    the 5 bits of the modulus 23. *)
Example auth_info_recorded :
  let E := example_env 5 23 3 in
  let server := gen_anon_server_kx E fresh_world in
  let client := proc_anon_server_kx E small_message 9 fresh_world in
  server.1 = Ok 9
  /\ auth_info (state server.2) = Some {| dh_bits := 5 |}
  /\ auth_info_type (state server.2) = Some GNUTLS_ANON
  /\ client.1 = Ok 0
  /\ auth_info (state client.2) = Some {| dh_bits := 5 |}
  /\ auth_info_type (state client.2) = Some GNUTLS_ANON.
Proof. vm_compute. repeat split; reflexivity. Qed.

(** ** Agreement *)

Lemma mpi_nbytes_mono (a b : Z) :
  0 <= a <= b -> (mpi_nbytes a <= mpi_nbytes b)%nat.
Proof.
  intros [Ha Hab]. unfold mpi_nbytes, gcry_mpi_get_nbits.
  apply Z2Nat.inj_le; try (apply Z.div_pos; [|lia]).
  - destruct (a <=? 0); [lia | pose proof (Z.log2_nonneg a); lia].
  - destruct (b <=? 0); [lia | pose proof (Z.log2_nonneg b); lia].
  - apply Z.div_le_mono; [lia|].
    destruct (a <=? 0) eqn:Ea, (b <=? 0) eqn:Eb.
    + lia.
    + pose proof (Z.log2_nonneg b). lia.
    + apply Z.leb_gt in Ea. apply Z.leb_le in Eb. lia.
    + pose proof (Z.log2_le_mono a b Hab). lia.
Qed.

(** Both sides reach g^(x_s * x_c) mod p. *)
Lemma dh_agreement (g p xs xc : Z) :
  0 < p -> 0 <= xs -> 0 <= xc ->
  (g ^ xs mod p) ^ xc mod p = (g ^ xc mod p) ^ xs mod p.
Proof.
  intros Hp Hxs Hxc.
  rewrite <- !Zpower_mod by assumption.
  rewrite <- !Z.pow_mul_r by assumption.
  rewrite (Z.mul_comm xs xc). reflexivity.
Qed.

(** X2. Agreement, when the client accepts the server message. For a modulus p,
    a generator g and exponents x_s, x_c, with a parameter source that returns
    (g, p) for the configured bit size, no failing allocation, fields within
    16 bits and within the scan limits, sessions whose negotiated info is
    unset or of the negotiated type, and the server message passing the extra
    check (n_p <= n_g + n_X + 2): the four operations in protocol order
    succeed and leave the same key bytes on both sides, the minimal
    big-endian form of (g^x_s mod p)^x_c mod p. *)
Theorem anon_kx_agreement_when_accepted
    (Es Ec : Env) (ws wc : world) (g p xs xc : Z) :
  0 < p -> 0 <= g -> 0 <= xs -> 0 <= xc ->
  dh_params Es (bits_of Es ws) = (Some g, Some p) ->
  rand_x Es = Some xs ->
  rand_x Ec = Some xc ->
  malloc_data_ok Es = true -> dh_key_ok Es = true -> secure_malloc_ok Es = true ->
  malloc_data_ok Ec = true -> dh_key_ok Ec = true -> secure_malloc_ok Ec = true ->
  (auth_info (state ws) = None -> malloc_info_ok Es = true) ->
  (auth_info (state ws) <> None ->
   auth_info_type (state ws) = Some (kx_cred_type (state ws))) ->
  (auth_info (state wc) = None -> malloc_info_ok Ec = true) ->
  (auth_info (state wc) <> None ->
   auth_info_type (state wc) = Some (kx_cred_type (state wc))) ->
  Z.of_nat (mpi_nbytes p) < 65536 ->
  Z.of_nat (mpi_nbytes g) < 65536 ->
  (mpi_nbytes p <= mpi_scan_limit Ec)%nat ->
  (mpi_nbytes g <= mpi_scan_limit Ec)%nat ->
  (mpi_nbytes p <= mpi_scan_limit Es)%nat ->
  (mpi_nbytes p <= mpi_nbytes g + mpi_nbytes (g ^ xs mod p) + 2)%nat ->
  let K := mpi_bytes ((g ^ xs mod p) ^ xc mod p) in
  let k := {| data := Some K; size := Z.of_nat (length K) |} in
  anon_kx_exchange Es Ec ws wc = Some (k, k).
Proof.
  intros Hp Hg Hxs Hxc Hparams Hrs Hrc HmdS HkS HsS HmdC HkC HsC
    HinfoS HtypeS HinfoC HtypeC HnP HnG HlPc HlGc HlPs Hcheck K k.
  set (Xs := g ^ xs mod p) in *. set (Xc := g ^ xc mod p).
  assert (HXs : 0 <= Xs < p) by (apply Z.mod_pos_bound; assumption).
  assert (HXc : 0 <= Xc < p) by (apply Z.mod_pos_bound; assumption).
  assert (HnXs : (mpi_nbytes Xs <= mpi_nbytes p)%nat)
    by (apply mpi_nbytes_mono; lia).
  assert (HnXc : (mpi_nbytes Xc <= mpi_nbytes p)%nat)
    by (apply mpi_nbytes_mono; lia).
  unfold anon_kx_exchange.
  (* server-generate *)
  pose proof (gen_anon_server_kx_ok_wp Es ws g p xs Hparams Hrs HmdS
                HinfoS HtypeS) as H1.
  unfold wp in H1. fold Xs in H1.
  destruct (gen_anon_server_kx Es ws) as [r1 ws1]. cbn [fst snd] in H1.
  destruct H1 as (-> & Hout1 & Hcred & hx & Hsec & Hfx & Hm1).
  rewrite Hout1.
  (* client-process *)
  pose proof (proc_anon_server_kx_accepts_wp Ec (mpi_bytes p) (mpi_bytes g)
                (mpi_bytes Xs) []
                (Z.of_nat (length (server_kx_message (mpi_bytes p) (mpi_bytes g)
                                     (mpi_bytes Xs)))) wc) as H2.
  rewrite app_nil_r, !length_server_kx_message, !length_mpi_bytes in H2.
  rewrite length_server_kx_message, !length_mpi_bytes.
  unfold wp in H2.
  destruct (proc_anon_server_kx Ec _ _ wc) as [r2 wc1]. cbn [fst snd] in H2.
  destruct H2 as (-> & hY & hg & hp & HcY & Hcg & Hcp & HfY & Hfg & Hfp
                  & Hne1 & Hne2 & Hne3 & Hm2 & _);
    try assumption; try lia.
  rewrite !be_value_mpi_bytes in Hm2 by lia.
  (* client-generate *)
  pose proof (gen_anon_client_kx_ok_wp Ec wc1 hg hp hY g p Xs xc
                Hcg Hcp HcY) as H3.
  unfold wp in H3. fold Xc in H3.
  destruct (gen_anon_client_kx Ec wc1) as [r3 wc2]. cbn [fst snd] in H3.
  destruct H3 as (-> & Hout3 & Hkey3 & _);
    try assumption; try congruence.
  { rewrite Hm2. rewrite lookup_insert_ne by congruence. apply lookup_insert_eq. }
  { rewrite Hm2. apply lookup_insert_eq. }
  { rewrite Hm2. rewrite !lookup_insert_ne by congruence. apply lookup_insert_eq. }
  rewrite Hout3.
  (* server-process *)
  pose proof (proc_anon_client_kx_ok_wp Es (mpi_bytes Xc) []
                (Z.of_nat (length (client_kx_message (mpi_bytes Xc)))) ws1
                hx xs g p Hsec) as H4.
  rewrite app_nil_r in H4. unfold wp in H4.
  destruct (proc_anon_client_kx Es _ _ ws1) as [r4 ws2]. cbn [fst snd] in H4.
  destruct H4 as (-> & Hkey4 & _);
    try assumption; try lia.
  { rewrite Hm1. apply lookup_insert_eq. }
  { unfold bits_of in *. rewrite Hcred. exact Hparams. }
  { rewrite length_mpi_bytes. lia. }
  { rewrite length_mpi_bytes. lia. }
  rewrite Hkey3, Hkey4. rewrite be_value_mpi_bytes by lia.
  subst K k Xs Xc. rewrite (dh_agreement g p xs xc) by assumption.
  reflexivity.
Qed.

Lemma anon_kx_agreement_when_accepted_witness :
  let K := mpi_bytes ((5 ^ 6 mod 23) ^ 15 mod 23) in
  let k := {| data := Some K; size := Z.of_nat (length K) |} in
  anon_kx_exchange (example_env 5 23 6) (example_env 5 23 15)
    fresh_world fresh_world
  = Some (k, k).
Proof.
  apply (anon_kx_agreement_when_accepted (example_env 5 23 6)
           (example_env 5 23 15) fresh_world fresh_world 5 23 6 15);
    first [ reflexivity
          | lia
          | vm_compute; first [reflexivity | discriminate | lia]
          | intros H; exfalso; apply H; reflexivity ].
Defined.

(** The exchange for p = 23, g = 5 and the exponents 6 and 15: both sides
    hold the key byte 2. *)
Example anon_kx_exchange_23 :
  anon_kx_exchange (example_env 5 23 6) (example_env 5 23 15)
    fresh_world fresh_world
  = Some ({| data := Some [x02]; size := 1 |},
          {| data := Some [x02]; size := 1 |}).
Proof. vm_compute. reflexivity. Qed.

(** The exchange of C1's failing input stops at client-process. *)
Example anon_kx_exchange_M61 :
  anon_kx_exchange (example_env 2 M61 65) (example_env 2 M61 7)
    fresh_world fresh_world = None.
Proof. vm_compute. reflexivity. Qed.

(** ** No undefined behaviour

    The four operations on a session without dangling pointers, the decoders
    with a [data_size] that counts bytes of their buffer, the
    Diffie-Hellman helpers with operands they accept: none of them reads or
    writes outside a buffer, uses a released big integer or releases one
    twice, and each leaves the session without dangling pointers, whatever
    it returns. *)

Lemma live_not_fresh (m : gmap nat Z) (h k : nat) :
  is_Some (m !! h) -> m !! k = None -> h <> k.
Proof. intros [v Hv] Hk ->. congruence. Qed.

Lemma wp_mpi_release_strict (x : option MPI) (w : world) Q :
  (forall h, x = Some h -> mpis w !! h = None -> Q Fault w) ->
  (x = None -> Q (Ok tt) w) ->
  (forall h, x = Some h -> is_Some (mpis w !! h) ->
             Q (Ok tt) (set_mpis (delete h (mpis w)) w)) ->
  wp (_gnutls_mpi_release x) w Q.
Proof.
  intros Hf Hn Hs. unfold wp, _gnutls_mpi_release.
  destruct x as [h|]; [|apply Hn; reflexivity].
  destruct (mpis w !! h) as [v|] eqn:Hv; [|eapply Hf; eauto].
  simpl. apply Hs; eauto.
Qed.

(** Every handle known to be live differs from every handle known to be
    fresh. *)
Ltac live_vs_fresh :=
  repeat match goal with
    | Hl : is_Some (?m !! ?h), Hf : ?m !! ?k = None |- _ =>
        lazymatch goal with
        | _ : h <> k |- _ => fail
        | _ => pose proof (live_not_fresh m h k Hl Hf)
        end
    end.

Ltac map_lookup_goal :=
  repeat first
    [ rewrite lookup_insert_eq
    | rewrite lookup_insert_ne by congruence
    | rewrite lookup_delete_ne by congruence ].

(** The hypotheses on the pointers the session held before, by field. *)
Ltac by_field :=
  repeat match goal with
    | H : KEY (state ?w) = Some ?h |- _ =>
        change (field_of f_KEY (state w) = Some h) in H
    | H : client_Y (state ?w) = Some ?h |- _ =>
        change (field_of f_client_Y (state w) = Some h) in H
    | H : client_g (state ?w) = Some ?h |- _ =>
        change (field_of f_client_g (state w) = Some h) in H
    | H : client_p (state ?w) = Some ?h |- _ =>
        change (field_of f_client_p (state w) = Some h) in H
    | H : dh_secret (state ?w) = Some ?h |- _ =>
        change (field_of f_dh_secret (state w) = Some h) in H
    end.

(** Two readings of one field give one pointer. *)
Ltac same_field :=
  by_field;
  repeat match goal with
    | H1 : field_of ?f ?s = Some ?a, H2 : field_of ?f ?s = Some ?b |- _ =>
        first
          [ constr_eq a b; clear H2
          | rewrite H1 in H2; injection H2 as H2; first [subst b | subst a] ]
    end.

(** What the invariant says about them: each is live, no two are equal. *)
Ltac old_pointers Hlive :=
  same_field;
  repeat match goal with
    | H : field_of ?f (state ?w) = Some ?h |- _ =>
        lazymatch goal with
        | _ : is_Some (mpis w !! h) |- _ => fail
        | _ => pose proof (Hlive f h H)
        end
    end.

Ltac no_alias Hinj :=
  same_field;
  match goal with
  | H1 : field_of ?f1 (state ?w) = Some ?h,
    H2 : field_of ?f2 (state ?w) = Some ?h |- _ =>
      discriminate (Hinj f1 f2 h H1 H2)
  end.

Ltac old_distinct Hinj :=
  same_field;
  repeat match goal with
    | H1 : field_of ?f1 (state ?w) = Some ?h1,
      H2 : field_of ?f2 (state ?w) = Some ?h2 |- _ =>
        lazymatch f1 with f2 => fail | _ => idtac end;
        lazymatch goal with
        | _ : h1 <> h2 |- _ => fail
        | _ => idtac
        end;
        assert (h1 <> h2)
          by (let Heq := fresh in
              intros Heq; try rewrite <- Heq in H2;
              discriminate (Hinj f1 f2 _ H1 H2))
    end.

(** The invariant after the call, field by field. *)
Ltac nd_solve Hlive Hinj :=
  split;
  [ let f := fresh "f" in let h := fresh "h" in let Hf := fresh "Hf" in
    intros f h; destruct f; cbn [field_of]; world_simpl; intros Hf;
    try discriminate Hf; some_eqs;
    try (no_alias Hinj);
    old_pointers Hlive; old_distinct Hinj; live_vs_fresh; map_lookup_goal;
    solve [eauto]
  | let f1 := fresh "f" in let f2 := fresh "f" in let h := fresh "h" in
    let H1 := fresh "Hf" in let H2 := fresh "Hf" in
    intros f1 f2 h; destruct f1, f2; cbn [field_of]; world_simpl;
    intros H1 H2; try reflexivity; try discriminate;
    first
      [ match goal with |- ?a = ?b => exact (Hinj a b _ H1 H2) end
      | exfalso; some_eqs;
        first [no_alias Hinj | old_pointers Hlive; live_vs_fresh; congruence] ] ].

Ltac wp_step_safe :=
  lazymatch goal with
  | |- wp (_gnutls_mpi_release _) _ _ => apply wp_mpi_release_strict
  | _ => wp_step_ok
  end.

Ltac wp_run_safe tac prune :=
  repeat (tac; wp_step_safe; world_simpl; intros; try discriminate;
          some_eqs; fresh_facts_all;
          resolve_lookups; try dead_branch; try (solve [prune])).

(** Both outcomes of each allocation. *)
Ltac case_malloc E :=
  unfold gnutls_malloc, gnutls_malloc_info, gnutls_secure_malloc;
  try match goal with
    | |- context [malloc_data_ok E] => destruct (malloc_data_ok E) eqn:?
    | |- context [secure_malloc_ok E] => destruct (secure_malloc_ok E) eqn:?
    end.

(** A [Fault] that needs a pointer of the session to dangle, or two of them
    to be equal. *)
Ltac dead_pointer Hlive Hinj :=
  exfalso; try (no_alias Hinj); old_pointers Hlive; old_distinct Hinj;
  live_vs_fresh;
  repeat match goal with
    | H : forall h, Some ?x = Some h -> _ !! h = None |- _ =>
        specialize (H x eq_refl)
    end;
  repeat match goal with
    | H : _ !! _ = None |- _ => progress map_lookup_in H
    end;
  try discriminate;
  repeat match goal with
    | H1 : is_Some (?m !! ?h), H2 : ?m !! ?h = None |- _ =>
        rewrite H2 in H1; destruct H1; discriminate
    end;
  congruence.

(** A [Fault] that needs the key bytes not to fit the buffer allocated for
    them. *)
Ltac dead_store :=
  match goal with
  | H : store_bytes (replicate _ _) 0 _ = None |- _ =>
      rewrite Nat2Z.id, store_bytes_whole in H by apply length_mpi_bytes;
      discriminate H
  end.

(** A [Fault] that needs a collaborator to be handed a [NULL] operand it
    does not report. *)
Ltac dead_operand Hops :=
  exfalso; unfold bits_of in Hops;
  repeat match goal with
    | H : anon_cred _ = _ |- _ => rewrite H in Hops
    end;
  destruct Hops as [Hops | Hops]; [congruence|];
  lazymatch type of Hops with
  | _ /\ _ /\ _ => destruct Hops as (? & ? & ?); congruence
  | _ /\ (_ -> _) =>
      destruct Hops as [? Hops]; first [congruence | apply Hops; congruence]
  end.

Lemma gen_anon_server_kx_safe_wp (E : Env) (w : world) :
  no_dangling w ->
  wp (gen_anon_server_kx E) w (fun r w' => r <> Fault /\ no_dangling w').
Proof.
  intros [Hlive Hinj].
  unfold gen_anon_server_kx. cbv zeta.
  wp_run_safe ltac:(case_malloc E) ltac:(dead_pointer Hlive Hinj).
  all: split; [discriminate|].
  all: unfold no_dangling; world_simpl; nd_solve Hlive Hinj.
Qed.

Lemma gen_anon_client_kx_safe_wp (E : Env) (w : world) :
  no_dangling w ->
  dh_null_is_failure E = true \/ operands_present E call_gen_anon_client_kx w ->
  wp (gen_anon_client_kx E) w (fun r w' => r <> Fault /\ no_dangling w').
Proof.
  intros [Hlive Hinj] Hops. cbn [operands_present] in Hops.
  unfold gen_anon_client_kx. cbv zeta.
  wp_run_safe ltac:(case_malloc E)
              ltac:(first [dead_operand Hops | dead_store
                          | dead_pointer Hlive Hinj]).
  all: split; [discriminate|].
  all: unfold no_dangling; world_simpl; nd_solve Hlive Hinj.
Qed.

Lemma proc_anon_client_kx_safe_wp
    (E : Env) (data : list opaque) (ds : Z) (w : world) :
  no_dangling w ->
  INT_MIN + 2 <= ds <= INT_MAX ->
  ds <= Z.of_nat (length data) ->
  dh_null_is_failure E = true
  \/ operands_present E (call_proc_anon_client_kx data ds) w ->
  wp (proc_anon_client_kx E data ds) w (fun r w' => r <> Fault /\ no_dangling w').
Proof.
  intros [Hlive Hinj] Hint Hds Hops. cbn [operands_present] in Hops.
  unfold proc_anon_client_kx. cbv zeta.
  wp_run_safe ltac:(case_malloc E)
              ltac:(first [exfalso; lia | dead_operand Hops | dead_store
                          | dead_pointer Hlive Hinj]).
  all: split; [discriminate|].
  all: unfold no_dangling; world_simpl; nd_solve Hlive Hinj.
Qed.

Lemma proc_anon_server_kx_safe_wp
    (E : Env) (data : list opaque) (ds : Z) (w : world) :
  no_dangling w ->
  INT_MIN + 2 <= ds <= INT_MAX ->
  ds <= Z.of_nat (length data) ->
  wp (proc_anon_server_kx E data ds) w (fun r w' => r <> Fault /\ no_dangling w').
Proof.
  intros [Hlive Hinj] Hint Hds.
  unfold proc_anon_server_kx. cbv zeta.
  wp_run_safe ltac:(case_malloc E)
              ltac:(first [exfalso; lia | dead_store | dead_pointer Hlive Hinj]).
  all: split; [discriminate|].
  all: unfold no_dangling; world_simpl; nd_solve Hlive Hinj.
Qed.

Lemma run_call_safe_wp (E : Env) (c : kx_call) (w : world) :
  no_dangling w -> sized c ->
  dh_null_is_failure E = true \/ operands_present E c w ->
  wp (run_call E c) w (fun r w' => r <> Fault /\ no_dangling w').
Proof.
  intros Hw Hc Hops. destruct c; cbn [run_call sized] in *.
  - apply gen_anon_server_kx_safe_wp; assumption.
  - apply gen_anon_client_kx_safe_wp; assumption.
  - destruct Hc. apply proc_anon_server_kx_safe_wp; assumption.
  - destruct Hc. apply proc_anon_client_kx_safe_wp; assumption.
Qed.

Lemma no_dangling_fresh_world : no_dangling fresh_world.
Proof.
  split.
  - intros f h H. destruct f; discriminate H.
  - intros f1 f2 h H. destruct f1; discriminate H.
Defined.

(** X3. Memory safety of the four operations, in any order. On a session in
    which no pointer dangles (every big-integer field is [NULL] or points to
    a live big integer, and no two fields share one), a sequence of calls of
    [gen_anon_server_kx], [gen_anon_client_kx], [proc_anon_server_kx] and
    [proc_anon_client_kx] runs without undefined behaviour (no read or write
    outside a buffer, no use of a released big integer, no double release)
    and ends on a session in which no pointer dangles, whatever each call
    returns, provided that
    - each decoder call has a [data_size] from [INT_MIN + 2] to [INT_MAX],
      on which the first length check does not overflow, and a buffer of at
      least [data_size] bytes, and
    - each call finds the operands it hands to [gnutls_calc_dh_secret] and
      [gnutls_calc_dh_key] (for [gen_anon_client_kx]: [client_g], [client_p]
      and [client_Y] are set; for [proc_anon_client_kx]: [dh_secret] is set
      and the parameter source delivers a modulus with the generator), or
      else the collaborators of that call report a [NULL] operand as a
      failure. *)
Theorem anon_kx_calls_safe (cs : list (Env * kx_call)) (w : world) :
  no_dangling w ->
  supplied cs w ->
  (run_calls cs w).1 = Ok tt /\ no_dangling (run_calls cs w).2.
Proof.
  revert w. induction cs as [|[E c] cs IH]; intros w Hw Hcs.
  - split; [reflexivity | exact Hw].
  - destruct Hcs as (Hc & Hops & Hcs).
    pose proof (run_call_safe_wp E c w Hw Hc Hops) as H.
    unfold wp in H. cbn [run_calls]. unfold mbind, M_bind, call.
    destruct (run_call E c w) as [[n|e|] w1]; cbn [fst snd] in H, Hcs;
      destruct H as [Hr Hw1].
    + apply IH; assumption.
    + apply IH; assumption.
    + congruence.
Qed.

Lemma anon_kx_calls_safe_witness :
  let E := example_env 5 23 6 in
  let S := strict_env 5 23 6 in
  let cs := [(E, call_proc_anon_client_kx small_client_message 3);
             (S, call_gen_anon_server_kx);
             (S, call_proc_anon_server_kx small_message 9);
             (S, call_gen_anon_client_kx);
             (no_dh_key_env 5 23 4, call_gen_anon_client_kx);
             (S, call_proc_anon_server_kx short_Y_message 16);
             (S, call_proc_anon_client_kx small_client_message 3);
             (E, call_gen_anon_client_kx)] in
  (run_calls cs fresh_world).1 = Ok tt /\ no_dangling (run_calls cs fresh_world).2.
Proof.
  intros E S cs.
  apply (anon_kx_calls_safe cs fresh_world).
  - exact no_dangling_fresh_world.
  - vm_compute.
    repeat split; first [discriminate | auto; right; repeat split; discriminate].
Defined.

(** ** [gen_anon_server_kx]: the message and the failure paths *)

(** X4. [gen_anon_server_kx] when nothing fails. With a parameter source that
    returns g >= 0 and p > 0 for the configured bit size, an exponent x,
    the allocations succeeding and the negotiated info unset or of the
    negotiated type, the call returns the length of the message it leaves in
    [*data]: the three fields [len | bytes] of p, g and X = g^x mod p, in
    this order, each in its minimal big-endian form, which reads back as the
    value. The private exponent x is the one big integer the call leaves
    allocated, and [dh_secret] points to it: g, p and X have been
    released. *)
Theorem gen_anon_server_kx_success (E : Env) (w : world) (g p x : Z) :
  0 < p -> 0 <= g ->
  dh_params E (bits_of E w) = (Some g, Some p) ->
  rand_x E = Some x ->
  malloc_data_ok E = true ->
  (auth_info (state w) = None -> malloc_info_ok E = true) ->
  (auth_info (state w) <> None ->
   auth_info_type (state w) = Some (kx_cred_type (state w))) ->
  let X := g ^ x mod p in
  let msg := server_kx_message (mpi_bytes p) (mpi_bytes g) (mpi_bytes X) in
  let out := gen_anon_server_kx E w in
  out.1 = Ok (Z.of_nat (length msg)) /\
  data_out out.2 = Some msg /\
  Z.of_nat (length msg)
  = Z.of_nat (mpi_nbytes p) + Z.of_nat (mpi_nbytes g) + Z.of_nat (mpi_nbytes X) + 6 /\
  be_value (mpi_bytes p) = p /\
  be_value (mpi_bytes g) = g /\
  be_value (mpi_bytes X) = X /\
  exists hx,
    dh_secret (state out.2) = Some hx /\
    mpis w !! hx = None /\
    mpis out.2 = <[hx:=x]> (mpis w).
Proof.
  intros Hp Hg Hparams Hrand Hmalloc Hinfo Htype X msg out.
  pose proof (gen_anon_server_kx_ok_wp E w g p x Hparams Hrand Hmalloc
                Hinfo Htype) as H.
  unfold wp in H. fold out in H. cbv zeta in H. fold X in H. fold msg in H.
  destruct H as (Hr & Hout & _ & Hx).
  assert (HX : 0 <= X) by (apply Z.mod_pos_bound; exact Hp).
  repeat split; try assumption.
  - unfold msg. rewrite length_server_kx_message, !length_mpi_bytes. lia.
  - apply be_value_mpi_bytes. lia.
  - apply be_value_mpi_bytes. exact Hg.
  - apply be_value_mpi_bytes. exact HX.
Qed.

Lemma gen_anon_server_kx_success_witness :
  let E := example_env 5 23 6 in
  let w := fresh_world in
  let X := 5 ^ 6 mod 23 in
  let msg := server_kx_message (mpi_bytes 23) (mpi_bytes 5) (mpi_bytes X) in
  let out := gen_anon_server_kx E w in
  out.1 = Ok (Z.of_nat (length msg)) /\
  data_out out.2 = Some msg /\
  Z.of_nat (length msg)
  = Z.of_nat (mpi_nbytes 23) + Z.of_nat (mpi_nbytes 5) + Z.of_nat (mpi_nbytes X) + 6 /\
  be_value (mpi_bytes 23) = 23 /\
  be_value (mpi_bytes 5) = 5 /\
  be_value (mpi_bytes X) = X /\
  exists hx,
    dh_secret (state out.2) = Some hx /\
    mpis w !! hx = None /\
    mpis out.2 = <[hx:=6]> (mpis w).
Proof.
  intros E w.
  apply (gen_anon_server_kx_success E w 5 23 6);
    first [reflexivity | lia | intros H; exfalso; apply H; reflexivity].
Defined.

(** Two stores of big integers are equal: by cases on the handle looked
    up. *)
Ltac store_eq :=
  let i := fresh "i" in
  apply map_eq; intros i;
  repeat match goal with
    | h : MPI |- _ =>
        lazymatch goal with
        | _ : i = h |- _ => fail
        | _ : i <> h |- _ => fail
        | _ => destruct (decide (i = h))
        end
    end;
  simplify_map_eq; done.

(** The branches that the hypotheses on the negotiated info exclude. *)
Ltac dead_info Hinfo Htype :=
  exfalso; bool_hyps;
  first [ match goal with
          | H : Some _ <> auth_info_type _ |- _ =>
              apply H; symmetry; apply Htype; discriminate
          end
        | match goal with
          | H : context [malloc_info_ok] |- _ =>
              rewrite Hinfo in H by reflexivity; congruence
          end ].

Lemma gen_anon_server_kx_no_keypair_wp (E : Env) (w : world) (gv pv : Z) :
  dh_params E (bits_of E w) = (Some gv, Some pv) ->
  rand_x E = None ->
  (auth_info (state w) = None -> malloc_info_ok E = true) ->
  (auth_info (state w) <> None ->
   auth_info_type (state w) = Some (kx_cred_type (state w))) ->
  wp (gen_anon_server_kx E) w (fun r w' =>
    r = Err GNUTLS_E_MEMORY_ERROR /\
    mpis w' = mpis w /\
    dh_secret (state w') = dh_secret (state w) /\
    data_out w' = data_out w /\
    auth_info (state w') = Some {| dh_bits := gcry_mpi_get_nbits pv |}).
Proof.
  intros Hparams Hrand Hinfo Htype.
  unfold gen_anon_server_kx. unfold bits_of in Hparams. cbv zeta.
  wp_run_safe
    ltac:(try rewrite Hparams; try rewrite Hrand;
          unfold gnutls_malloc, gnutls_malloc_info)
    ltac:(dead_info Hinfo Htype).
  all: split; [reflexivity|]; split; [store_eq|]; repeat split.
Qed.

Lemma gen_anon_server_kx_no_buffer_wp (E : Env) (w : world) (gv pv xv : Z) :
  dh_params E (bits_of E w) = (Some gv, Some pv) ->
  rand_x E = Some xv ->
  malloc_data_ok E = false ->
  (auth_info (state w) = None -> malloc_info_ok E = true) ->
  (auth_info (state w) <> None ->
   auth_info_type (state w) = Some (kx_cred_type (state w))) ->
  wp (gen_anon_server_kx E) w (fun r w' =>
    r = Err GNUTLS_E_MEMORY_ERROR /\
    data_out w' = None /\
    exists hx,
      dh_secret (state w') = Some hx /\
      mpis w !! hx = None /\
      mpis w' = <[hx:=xv]> (mpis w)).
Proof.
  intros Hparams Hrand Hmalloc Hinfo Htype.
  unfold gen_anon_server_kx. unfold bits_of in Hparams. cbv zeta.
  wp_run_safe
    ltac:(try rewrite Hparams; try rewrite Hrand;
          unfold gnutls_malloc, gnutls_malloc_info; try rewrite Hmalloc)
    ltac:(dead_info Hinfo Htype).
  all: split; [reflexivity|]; split; [reflexivity|].
  all: eexists; split; [reflexivity|]; split; [assumption|store_eq].
Qed.

(** X5. [gen_anon_server_kx] failing after the parameters are in hand. With
    both parameters from the source and the negotiated info unset or of the
    negotiated type:
    - when the key pair cannot be generated (X or x is [NULL]), the call
      returns [GNUTLS_E_MEMORY_ERROR] with g and p released: the store of big
      integers, [dh_secret] and the caller's pointer are as before the call,
      while the negotiated info already records the bit length of p;
    - when the message buffer cannot be allocated, the call returns
      [GNUTLS_E_MEMORY_ERROR] with X, g and p released and [*data] set to
      [NULL]; the private exponent stays allocated, in [dh_secret]. *)
Theorem gen_anon_server_kx_late_failures (E : Env) (w : world) (g p : Z) :
  dh_params E (bits_of E w) = (Some g, Some p) ->
  (auth_info (state w) = None -> malloc_info_ok E = true) ->
  (auth_info (state w) <> None ->
   auth_info_type (state w) = Some (kx_cred_type (state w))) ->
  let out := gen_anon_server_kx E w in
  (rand_x E = None ->
   out.1 = Err GNUTLS_E_MEMORY_ERROR /\
   mpis out.2 = mpis w /\
   dh_secret (state out.2) = dh_secret (state w) /\
   data_out out.2 = data_out w /\
   auth_info (state out.2) = Some {| dh_bits := gcry_mpi_get_nbits p |})
  /\ (forall x, rand_x E = Some x -> malloc_data_ok E = false ->
      out.1 = Err GNUTLS_E_MEMORY_ERROR /\
      data_out out.2 = None /\
      exists hx,
        dh_secret (state out.2) = Some hx /\
        mpis w !! hx = None /\
        mpis out.2 = <[hx:=x]> (mpis w)).
Proof.
  intros Hparams Hinfo Htype out. split.
  - intros Hrand.
    exact (gen_anon_server_kx_no_keypair_wp E w g p Hparams Hrand Hinfo Htype).
  - intros x Hrand Hmalloc.
    exact (gen_anon_server_kx_no_buffer_wp E w g p x Hparams Hrand Hmalloc
             Hinfo Htype).
Qed.

Lemma gen_anon_server_kx_early_wp (E : Env) (w : world) (gv pv : Z) :
  dh_params E (bits_of E w) = (Some gv, Some pv) ->
  (auth_info (state w) = None /\ malloc_info_ok E = false) \/
  (auth_info (state w) <> None /\
   auth_info_type (state w) <> Some (kx_cred_type (state w))) ->
  wp (gen_anon_server_kx E) w (fun r w' =>
    (auth_info (state w) = None -> r = Err GNUTLS_E_MEMORY_ERROR) /\
    (auth_info (state w) <> None -> r = Err GNUTLS_E_INVALID_REQUEST) /\
    state w' = state w /\
    data_out w' = data_out w /\
    exists hg hp,
      hg <> hp /\ mpis w !! hg = None /\ mpis w !! hp = None /\
      mpis w' = <[hg:=gv]> (<[hp:=pv]> (mpis w))).
Proof.
  intros Hparams Hcase.
  unfold gen_anon_server_kx. unfold bits_of in Hparams. cbv zeta.
  wp_run_safe
    ltac:(try rewrite Hparams; unfold gnutls_malloc, gnutls_malloc_info)
    ltac:(exfalso; bool_hyps; destruct Hcase as [[? Hc]|[? Hc]];
          first [congruence | rewrite Hc in *; congruence]).
  all: destruct Hcase as [[Ha Hc]|[Ha Hc]]; try congruence.
  all: split; [intros; first [reflexivity | congruence]|].
  all: split; [intros; first [reflexivity | congruence]|].
  all: split;
    [first [reflexivity
           | rewrite Hc;
             match goal with
             | H : auth_info (state ?w0) = None |- _ =>
                 revert H; clear; destruct (state w0); cbn;
                 intros ->; reflexivity
             end]|].
  all: split; [reflexivity|].
  all: match goal with
       | |- exists hg hp, _ /\ _ /\ _ /\ <[?a:=_]> (<[?b:=_]> _) = _ =>
           exists a, b
       end.
  all: repeat split; assumption || congruence.
Qed.

(** X6. [gen_anon_server_kx] failing on the negotiated info. When both
    parameters have been obtained and the call then returns because the
    negotiated info cannot be allocated ([GNUTLS_E_MEMORY_ERROR]) or is of
    another type than the negotiated one ([GNUTLS_E_INVALID_REQUEST]), the
    session is as before the call and g and p are not released: the store
    of big integers is the one before the call plus these two, which nothing
    in the session points to. *)
Theorem gen_anon_server_kx_early_failures (E : Env) (w : world) (g p : Z) :
  dh_params E (bits_of E w) = (Some g, Some p) ->
  (auth_info (state w) = None /\ malloc_info_ok E = false) \/
  (auth_info (state w) <> None /\
   auth_info_type (state w) <> Some (kx_cred_type (state w))) ->
  let out := gen_anon_server_kx E w in
  (auth_info (state w) = None -> out.1 = Err GNUTLS_E_MEMORY_ERROR) /\
  (auth_info (state w) <> None -> out.1 = Err GNUTLS_E_INVALID_REQUEST) /\
  state out.2 = state w /\
  data_out out.2 = data_out w /\
  exists hg hp,
    hg <> hp /\ mpis w !! hg = None /\ mpis w !! hp = None /\
    mpis out.2 = <[hg:=g]> (<[hp:=p]> (mpis w)).
Proof.
  intros Hparams Hcase.
  exact (gen_anon_server_kx_early_wp E w g p Hparams Hcase).
Qed.

Lemma gen_anon_server_kx_late_failures_witness :
  (let out := gen_anon_server_kx (no_keypair_env 5 23) fresh_world in
   out.1 = Err GNUTLS_E_MEMORY_ERROR /\
   mpis out.2 = mpis fresh_world /\
   dh_secret (state out.2) = dh_secret (state fresh_world) /\
   data_out out.2 = data_out fresh_world /\
   auth_info (state out.2) = Some {| dh_bits := gcry_mpi_get_nbits 23 |})
  /\ (let out := gen_anon_server_kx (no_buffer_env 5 23 6) fresh_world in
      out.1 = Err GNUTLS_E_MEMORY_ERROR /\
      data_out out.2 = None /\
      exists hx,
        dh_secret (state out.2) = Some hx /\
        mpis fresh_world !! hx = None /\
        mpis out.2 = <[hx:=6]> (mpis fresh_world)).
Proof.
  split.
  - apply (gen_anon_server_kx_late_failures (no_keypair_env 5 23) fresh_world
             5 23);
      first [reflexivity | intros H; exfalso; apply H; reflexivity].
  - apply (gen_anon_server_kx_late_failures (no_buffer_env 5 23 6) fresh_world
             5 23);
      first [reflexivity | intros H; exfalso; apply H; reflexivity].
Defined.

Lemma gen_anon_server_kx_early_failures_witness :
  (let out := gen_anon_server_kx (no_info_env 5 23 6) fresh_world in
   out.1 = Err GNUTLS_E_MEMORY_ERROR /\
   state out.2 = state fresh_world /\
   exists hg hp,
     hg <> hp /\ mpis out.2 = <[hg:=5]> (<[hp:=23]> (mpis fresh_world)))
  /\ (let out := gen_anon_server_kx (example_env 5 23 6) x509_bound_world in
      out.1 = Err GNUTLS_E_INVALID_REQUEST /\
      state out.2 = state x509_bound_world /\
      exists hg hp,
        hg <> hp /\ mpis out.2 = <[hg:=5]> (<[hp:=23]> (mpis x509_bound_world))).
Proof.
  split.
  - destruct (gen_anon_server_kx_early_failures (no_info_env 5 23 6)
                fresh_world 5 23 eq_refl (or_introl (conj eq_refl eq_refl)))
      as (Hm & _ & Hs & _ & hg & hp & Hne & _ & _ & Hst).
    cbv zeta. split; [apply Hm; reflexivity|]. split; [exact Hs|].
    exists hg, hp. split; assumption.
  - assert (Hcase : (auth_info (state x509_bound_world) = None /\
                     malloc_info_ok (example_env 5 23 6) = false) \/
                    (auth_info (state x509_bound_world) <> None /\
                     auth_info_type (state x509_bound_world)
                     <> Some (kx_cred_type (state x509_bound_world))))
      by (right; split; discriminate).
    destruct (gen_anon_server_kx_early_failures (example_env 5 23 6)
                x509_bound_world 5 23 eq_refl Hcase)
      as (_ & Hi & Hs & _ & hg & hp & Hne & _ & _ & Hst).
    cbv zeta. split; [apply Hi; discriminate|]. split; [exact Hs|].
    exists hg, hp. split; assumption.
Defined.

(** ** [proc_anon_server_kx]: padding and the extra check *)

Lemma extra_check_rejects_app
    (E : Env) (P G Y tl : list opaque) (ds : Z) (w : world) :
  Z.of_nat (length P) < 65536 ->
  2 + Z.of_nat (length P) <= ds ->
  ds < 4 + 2 * Z.of_nat (length P) ->
  proc_anon_server_kx E (server_kx_message P G Y ++ tl) ds w
  = (Err GNUTLS_E_UNEXPECTED_PACKET_LENGTH, w).
Proof.
  intros HP Hlo Hhi. unfold proc_anon_server_kx. cbv zeta.
  rewrite bind_DECR_LEN_ok by lia.
  assert (Hread : READuint16 (server_kx_message P G Y ++ tl) 0
                  = mret (Z.of_nat (length P))).
  { unfold server_kx_message. rewrite <- !app_assoc.
    apply (READuint16_field [] P); simpl; lia. }
  rewrite Hread, bind_ret.
  rewrite bind_DECR_LEN_ok by lia.
  destruct (_ >? _) eqn:Hgt; [reflexivity|].
  rewrite Z.gtb_ltb in Hgt. apply Z.ltb_ge in Hgt. lia.
Qed.

(** X7. What [proc_anon_server_kx] accepts. Take a buffer that starts with a
    well-formed server exchange message (fields P, G, Y within 16 bits and
    within the scan limit), followed by any bytes, a [data_size] between the
    length of the message and the length of the buffer, and a session whose
    negotiated info is unset (and can be allocated) or of the negotiated
    type. The outcome is decided by [data_size] and the length n_p of the
    modulus field alone:
    - if [data_size] < 4 + 2 n_p the call returns
      [GNUTLS_E_UNEXPECTED_PACKET_LENGTH] and changes nothing;
    - otherwise it returns 0, and [client_Y], [client_g], [client_p] point to
      three new big integers with the values of Y, G and P; the bytes after
      the message are ignored.
    So a message that is refused at its own length is accepted once enough
    bytes follow it and are counted in [data_size]. *)
Theorem proc_anon_server_kx_accepts
    (E : Env) (P G Y tl : list opaque) (ds : Z) (w : world) :
  Z.of_nat (length P) < 65536 ->
  Z.of_nat (length G) < 65536 ->
  Z.of_nat (length Y) < 65536 ->
  Z.of_nat (length (server_kx_message P G Y)) <= ds ->
  ds <= Z.of_nat (length (server_kx_message P G Y ++ tl)) ->
  (length P <= mpi_scan_limit E)%nat ->
  (length G <= mpi_scan_limit E)%nat ->
  (length Y <= mpi_scan_limit E)%nat ->
  (auth_info (state w) = None -> malloc_info_ok E = true) ->
  (auth_info (state w) <> None ->
   auth_info_type (state w) = Some (kx_cred_type (state w))) ->
  let out := proc_anon_server_kx E (server_kx_message P G Y ++ tl) ds w in
  (ds < 4 + 2 * Z.of_nat (length P) ->
   out = (Err GNUTLS_E_UNEXPECTED_PACKET_LENGTH, w))
  /\ (4 + 2 * Z.of_nat (length P) <= ds ->
      out.1 = Ok 0 /\
      exists hY hg hp,
        client_Y (state out.2) = Some hY /\
        client_g (state out.2) = Some hg /\
        client_p (state out.2) = Some hp /\
        mpis w !! hY = None /\ mpis w !! hg = None /\ mpis w !! hp = None /\
        hY <> hg /\ hY <> hp /\ hg <> hp /\
        mpis out.2
        = <[hp:=be_value P]> (<[hg:=be_value G]> (<[hY:=be_value Y]> (mpis w)))).
Proof.
  intros HP HG HY Hlo Hhi HlP HlG HlY Hinfo Htype out. split.
  - intros Hsmall. apply extra_check_rejects_app; try assumption.
    rewrite length_server_kx_message in Hlo. lia.
  - intros Hbig.
    pose proof (proc_anon_server_kx_accepts_wp E P G Y tl ds w HP HG HY Hlo Hhi)
      as H.
    unfold wp in H. fold out in H.
    destruct H as (Hr & hY & hg & hp & H1 & H2 & H3 & H4 & H5 & H6 & H7 & H8
                   & H9 & H10 & _); try assumption; try lia.
    split; [exact Hr|]. exists hY, hg, hp. repeat (split; [assumption|]).
    exact H10.
Qed.

Lemma proc_anon_server_kx_accepts_witness :
  let E := example_env 2 M61 65 in
  (proc_anon_server_kx E (short_Y_message ++ [x00; x00; x00; x00]) 16 fresh_world
   = (Err GNUTLS_E_UNEXPECTED_PACKET_LENGTH, fresh_world))
  /\ (let out := proc_anon_server_kx E (short_Y_message ++ [x00; x00; x00; x00])
                   20 fresh_world in
      out.1 = Ok 0 /\
      exists hY hg hp,
        client_Y (state out.2) = Some hY /\
        client_g (state out.2) = Some hg /\
        client_p (state out.2) = Some hp /\
        mpis fresh_world !! hY = None /\ mpis fresh_world !! hg = None /\
        mpis fresh_world !! hp = None /\
        hY <> hg /\ hY <> hp /\ hg <> hp /\
        mpis out.2
        = <[hp:=be_value (mpi_bytes M61)]>
            (<[hg:=be_value (mpi_bytes 2)]>
               (<[hY:=be_value (mpi_bytes 16)]> (mpis fresh_world)))).
Proof.
  intros E. split.
  - apply (proc_anon_server_kx_accepts E (mpi_bytes M61) (mpi_bytes 2)
             (mpi_bytes 16) [x00; x00; x00; x00] 16 fresh_world);
      first [ reflexivity
            | vm_compute; first [reflexivity | discriminate | lia]
            | intros H; exfalso; apply H; reflexivity ].
  - apply (proc_anon_server_kx_accepts E (mpi_bytes M61) (mpi_bytes 2)
             (mpi_bytes 16) [x00; x00; x00; x00] 20 fresh_world);
      first [ reflexivity
            | vm_compute; first [reflexivity | discriminate | lia]
            | intros H; exfalso; apply H; reflexivity ].
Defined.

(** ** The client exchange message and the key material *)

(** X8. [gen_anon_client_kx] when nothing fails. On a session that holds the
    parameters g and p > 0 and the peer's public value Y in three different
    live big integers, with an exponent x, the allocations succeeding and
    [gnutls_calc_dh_key] delivering: the call returns the length of the
    message it leaves in [*data], the field [len | bytes] of X = g^x mod p;
    [key] holds the minimal big-endian bytes of Y^x mod p, with their number
    in [size], and they read back as that value; [client_Y], [client_p],
    [client_g] and [KEY] are released and [NULL]. The private exponent x is
    not released: it stays allocated and nothing in the session points to
    it. *)
Theorem gen_anon_client_kx_success
    (E : Env) (w : world) (hg hp hY : MPI) (g p Y x : Z) :
  client_g (state w) = Some hg ->
  client_p (state w) = Some hp ->
  client_Y (state w) = Some hY ->
  mpis w !! hg = Some g ->
  mpis w !! hp = Some p ->
  mpis w !! hY = Some Y ->
  hg <> hp -> hg <> hY -> hp <> hY ->
  0 < p ->
  rand_x E = Some x ->
  dh_key_ok E = true ->
  malloc_data_ok E = true ->
  secure_malloc_ok E = true ->
  let msg := client_kx_message (mpi_bytes (g ^ x mod p)) in
  let K := mpi_bytes (Y ^ x mod p) in
  let out := gen_anon_client_kx E w in
  out.1 = Ok (Z.of_nat (length msg)) /\
  data_out out.2 = Some msg /\
  key (state out.2) = {| data := Some K; size := Z.of_nat (length K) |} /\
  be_value K = Y ^ x mod p /\
  client_Y (state out.2) = None /\
  client_g (state out.2) = None /\
  client_p (state out.2) = None /\
  KEY (state out.2) = None /\
  exists hx,
    mpis w !! hx = None /\
    mpis out.2 = <[hx:=x]> (delete hg (delete hp (delete hY (mpis w)))).
Proof.
  intros Hg Hp HY Hgv Hpv HYv Hne1 Hne2 Hne3 Hpos Hrand Hkey Hmalloc Hsec
    msg K out.
  pose proof (gen_anon_client_kx_ok_wp E w hg hp hY g p Y x Hg Hp HY Hgv Hpv
                HYv Hne1 Hne2 Hne3 Hrand Hkey Hmalloc Hsec) as H.
  unfold wp in H. fold out in H. cbv zeta in H. fold msg in H. fold K in H.
  destruct H as (H1 & H2 & H3 & H4 & H5 & H6 & H7 & H8).
  repeat (split; [assumption|]).
  split; [|repeat (split; [assumption|]); exact H8].
  apply be_value_mpi_bytes. apply Z.mod_pos_bound. exact Hpos.
Qed.

Lemma gen_anon_client_kx_success_witness :
  let E := example_env 5 23 4 in
  let w := have_params_world in
  let msg := client_kx_message (mpi_bytes (5 ^ 4 mod 23)) in
  let K := mpi_bytes (8 ^ 4 mod 23) in
  let out := gen_anon_client_kx E w in
  out.1 = Ok (Z.of_nat (length msg)) /\
  data_out out.2 = Some msg /\
  key (state out.2) = {| data := Some K; size := Z.of_nat (length K) |} /\
  be_value K = 8 ^ 4 mod 23 /\
  client_Y (state out.2) = None /\
  client_g (state out.2) = None /\
  client_p (state out.2) = None /\
  KEY (state out.2) = None /\
  exists hx,
    mpis w !! hx = None /\
    mpis out.2 = <[hx:=4]> (delete 1%nat (delete 2%nat (delete 0%nat (mpis w)))).
Proof.
  intros E w.
  apply (gen_anon_client_kx_success E w 1%nat 2%nat 0%nat 5 23 8 4);
    first [reflexivity | lia | discriminate].
Defined.

(** X9. [proc_anon_client_kx] when nothing fails. On a session whose
    [dh_secret] points to the live exponent x, for a buffer that starts with
    a well-formed client exchange message (a field Y within 16 bits and
    within the scan limit) followed by any bytes, a [data_size] between the
    length of the message and the length of the buffer, a parameter source
    that returns g and p > 0 for the configured bit size, with
    [gnutls_calc_dh_key] and [gnutls_secure_malloc] succeeding: the call
    returns 0; [key] holds the minimal big-endian bytes of Y^x mod p, which
    read back as that value; [client_Y], [dh_secret] and [KEY] are [NULL];
    every big integer the call created is released and so is x: the store is
    the one before the call without x. *)
Theorem proc_anon_client_kx_success
    (E : Env) (Y tl : list opaque) (ds : Z) (w : world)
    (hx : MPI) (x g p : Z) :
  dh_secret (state w) = Some hx ->
  mpis w !! hx = Some x ->
  dh_params E (bits_of E w) = (Some g, Some p) ->
  0 < p ->
  dh_key_ok E = true ->
  secure_malloc_ok E = true ->
  Z.of_nat (length Y) < 65536 ->
  (length Y <= mpi_scan_limit E)%nat ->
  Z.of_nat (length (client_kx_message Y)) <= ds ->
  ds <= Z.of_nat (length (client_kx_message Y ++ tl)) ->
  let K := mpi_bytes (be_value Y ^ x mod p) in
  let out := proc_anon_client_kx E (client_kx_message Y ++ tl) ds w in
  out.1 = Ok 0 /\
  key (state out.2) = {| data := Some K; size := Z.of_nat (length K) |} /\
  be_value K = be_value Y ^ x mod p /\
  dh_secret (state out.2) = None /\
  client_Y (state out.2) = None /\
  KEY (state out.2) = None /\
  mpis out.2 = delete hx (mpis w).
Proof.
  intros Hsec Hxv Hparams Hpos Hkey Hsmalloc HY HlY Hlo Hhi K out.
  pose proof (proc_anon_client_kx_ok_wp E Y tl ds w hx x g p Hsec Hxv Hparams
                Hkey Hsmalloc HY HlY Hlo Hhi) as H.
  unfold wp in H. fold out in H. cbv zeta in H. fold K in H.
  destruct H as (H1 & H2 & H3 & H4 & H5 & H6).
  repeat (split; [assumption|]).
  split; [|repeat (split; [assumption|]); exact H6].
  apply be_value_mpi_bytes. apply Z.mod_pos_bound. exact Hpos.
Qed.

Lemma proc_anon_client_kx_success_witness :
  let E := example_env 5 23 3 in
  let w := awaiting_peer_world in
  let K := mpi_bytes (be_value (mpi_bytes 8) ^ 3 mod 23) in
  let out := proc_anon_client_kx E (client_kx_message (mpi_bytes 8) ++ [xff]) 4 w in
  out.1 = Ok 0 /\
  key (state out.2) = {| data := Some K; size := Z.of_nat (length K) |} /\
  be_value K = be_value (mpi_bytes 8) ^ 3 mod 23 /\
  dh_secret (state out.2) = None /\
  client_Y (state out.2) = None /\
  KEY (state out.2) = None /\
  mpis out.2 = delete 0%nat (mpis w).
Proof.
  intros E w.
  apply (proc_anon_client_kx_success E (mpi_bytes 8) [xff] 4 w 0%nat 3 5 23);
    first [reflexivity | lia | vm_compute; first [reflexivity | discriminate | lia]].
Defined.

(** ** Truncated and refused client exchange messages *)

Lemma READ_client_agree (Y data : list opaque) (s : nat) :
  Z.of_nat (length Y) < 65536 ->
  take s data = take s (client_kx_message Y) ->
  (2 <= s)%nat ->
  READuint16 data 0 = mret (Z.of_nat (length Y)).
Proof.
  intros HY Hagree Hs.
  rewrite <- (READuint16_take data s), Hagree by lia.
  rewrite READuint16_take by lia.
  pose proof (READ_client Y [] HY) as H. rewrite app_nil_r in H. exact H.
Qed.

(** X10. Truncated client exchange messages. For a well-formed client exchange
    message (a field Y within 16 bits) and a cut at [s] bytes before its end,
    [proc_anon_client_kx] with [data_size = s], on any buffer that has the
    same first [s] bytes - the buffer that ends at the cut among them -
    returns [GNUTLS_E_UNEXPECTED_PACKET_LENGTH] and changes nothing: no byte
    at or beyond [data_size] is read and no big integer is created. *)
Theorem proc_anon_client_kx_truncated
    (E : Env) (Y data : list opaque) (s : nat) (w : world) :
  Z.of_nat (length Y) < 65536 ->
  (s < length (client_kx_message Y))%nat ->
  take s data = take s (client_kx_message Y) ->
  proc_anon_client_kx E data (Z.of_nat s) w
  = (Err GNUTLS_E_UNEXPECTED_PACKET_LENGTH, w).
Proof.
  intros HY Hs Hagree.
  unfold client_kx_message in Hs. rewrite length_wire_field in Hs.
  unfold proc_anon_client_kx, configured_bits. cbv zeta.
  rewrite bind_assoc, bind_gets.
  destruct (Z_lt_dec (Z.of_nat s - 2) 0) as [H1|H1].
  - destruct (anon_cred (state w)); rewrite bind_ret;
      apply bind_DECR_LEN_fail; lia.
  - destruct (anon_cred (state w)); rewrite bind_ret;
      rewrite bind_DECR_LEN_ok by lia;
      rewrite (READ_client_agree Y data s), bind_ret by (assumption || lia);
      apply bind_DECR_LEN_fail; lia.
Qed.

Lemma proc_anon_client_kx_truncated_witness :
  proc_anon_client_kx (example_env 5 23 3) (take 2 small_client_message) 2
    awaiting_peer_world
  = (Err GNUTLS_E_UNEXPECTED_PACKET_LENGTH, awaiting_peer_world).
Proof.
  apply (proc_anon_client_kx_truncated (example_env 5 23 3) (mpi_bytes 8)
           (take 2 small_client_message) 2 awaiting_peer_world);
    vm_compute; first [reflexivity | lia].
Defined.




(** ** [_gnutls_generate_key] *)

(** X12. [_gnutls_generate_key] on a session whose [KEY] points to a live big
    integer v >= 0. The size that the first [_gnutls_mpi_print] reports is the
    size of the buffer allocated and the number of bytes the second one
    writes: when [gnutls_secure_malloc] succeeds the call returns 0 with
    [key] holding exactly the minimal big-endian bytes of v, which read back
    as v, and their number; when it fails the call returns
    [GNUTLS_E_MEMORY_ERROR] with [key.data] [NULL] and [key.size] already set
    to that number. In both cases [KEY], the other fields and the store of
    big integers are untouched. *)
Theorem generate_key_copies_KEY (E : Env) (w : world) (h : MPI) (v : Z) :
  KEY (state w) = Some h ->
  mpis w !! h = Some v ->
  0 <= v ->
  let n := Z.of_nat (mpi_nbytes v) in
  (secure_malloc_ok E = true ->
   _gnutls_generate_key E w
   = (Ok 0, set_state (set_key {| data := Some (mpi_bytes v); size := n |}
                         (state w)) w)
   /\ Z.of_nat (length (mpi_bytes v)) = n
   /\ be_value (mpi_bytes v) = v)
  /\ (secure_malloc_ok E = false ->
      _gnutls_generate_key E w
      = (Err GNUTLS_E_MEMORY_ERROR,
         set_state (set_key {| data := None; size := n |} (state w)) w)).
Proof.
  intros HK Hv Hpos n.
  unfold _gnutls_generate_key, mpi_print_size, gnutls_secure_malloc.
  split; intros Hs; rewrite Hs.
  - split; [|split; [rewrite length_mpi_bytes; reflexivity
                    |apply be_value_mpi_bytes; exact Hpos]].
    unfold mbind, M_bind, gets, modify, mpi_val, mret, M_ret.
    cbn [state mpis set_state set_key key KEY data size]. rewrite HK, Hv.
    rewrite Hv.
    rewrite Nat2Z.id, store_bytes_whole by apply length_mpi_bytes.
    cbn [state mpis set_state set_key key KEY data size data_out].
    rewrite length_mpi_bytes. reflexivity.
  - unfold mbind, M_bind, gets, modify, mpi_val, mret, M_ret, throw.
    cbn [state mpis set_state set_key key KEY data size]. rewrite HK, Hv.
    cbn [state mpis set_state set_key key KEY data size]. reflexivity.
Qed.

Lemma generate_key_copies_KEY_witness :
  _gnutls_generate_key (example_env 5 23 3) have_KEY_world
  = (Ok 0, set_state (set_key {| data := Some (mpi_bytes 18);
                                 size := Z.of_nat (mpi_nbytes 18) |}
                        (state have_KEY_world)) have_KEY_world)
  /\ _gnutls_generate_key (no_secure_env 5 23 3) have_KEY_world
     = (Err GNUTLS_E_MEMORY_ERROR,
        set_state (set_key {| data := None; size := Z.of_nat (mpi_nbytes 18) |}
                     (state have_KEY_world)) have_KEY_world).
Proof.
  split.
  - apply (generate_key_copies_KEY (example_env 5 23 3) have_KEY_world 0%nat 18);
      first [reflexivity | lia].
  - apply (generate_key_copies_KEY (no_secure_env 5 23 3) have_KEY_world 0%nat 18);
      first [reflexivity | lia].
Defined.

(** ** The decoders read inside [data_size] *)

Lemma bind_ext {A B} (m : M A) (f g : A -> M B) (w : world) :
  (forall a w', f a w' = g a w') -> (m ≫= f) w = (m ≫= g) w.
Proof.
  intros H. unfold mbind, M_bind. destruct (m w) as [[a| |] w']; auto.
Qed.

Lemma DECR_LEN_ext {B} (len x : Z) (f g : Z -> M B) (w : world) :
  INT_MIN <= len - x ->
  (0 <= len - x -> f (len - x) w = g (len - x) w) ->
  (DECR_LEN len x ≫= f) w = (DECR_LEN len x ≫= g) w.
Proof.
  intros Hint H. unfold DECR_LEN, mbind, M_bind. cbv zeta.
  rewrite int_sub_in_range by exact Hint.
  destruct (len - x <? 0) eqn:Hlt; [reflexivity|].
  apply Z.ltb_ge in Hlt. apply H. exact Hlt.
Qed.

Lemma READuint16_ext {B} (data : list opaque) (i : Z) (f g : Z -> M B) (w : world) :
  (forall v, 0 <= v < 65536 -> f v w = g v w) ->
  (READuint16 data i ≫= f) w = (READuint16 data i ≫= g) w.
Proof.
  intros H. unfold READuint16.
  destruct (data !! Z.to_nat i) as [hi|]; [|reflexivity].
  destruct (data !! S (Z.to_nat i)) as [lo|]; [|reflexivity].
  rewrite !bind_ret. apply H.
  pose proof (Z_of_byte_range hi). pose proof (Z_of_byte_range lo). lia.
Qed.

(** A scan inside a truncated buffer sees the bytes of the whole one. *)
Lemma scan_field_take set (E : Env) (data : list opaque) (s : nat) (off n : Z) :
  0 <= off -> 0 <= n -> off + n <= Z.of_nat s ->
  scan_field set E (take s data) off n = scan_field set E data off n.
Proof.
  intros Hoff Hn Hs. unfold scan_field, _gnutls_mpi_scan.
  assert (Hbytes : take (Z.to_nat n) (drop (Z.to_nat off) (take s data))
                   = take (Z.to_nat n) (drop (Z.to_nat off) data)).
  { apply list_eq. intros k.
    destruct (decide (k < Z.to_nat n)%nat) as [Hk|Hk].
    - rewrite !lookup_take_lt, !lookup_drop by lia.
      rewrite lookup_take_lt by lia. reflexivity.
    - rewrite !lookup_take_ge by lia. reflexivity. }
  rewrite Hbytes. rewrite length_take.
  destruct (decide (s <= length data)%nat) as [Hle|Hgt].
  - rewrite Nat.min_l by exact Hle.
    destruct (decide (Z.to_nat off + Z.to_nat n <= s)%nat) as [_|Hbad]; [|lia].
    destruct (decide (Z.to_nat off + Z.to_nat n <= length data)%nat)
      as [_|Hbad]; [|lia].
    reflexivity.
  - rewrite Nat.min_r by lia. reflexivity.
Qed.

Lemma proc_anon_server_kx_take (E : Env) (data : list opaque) (ds : Z) (w : world) :
  INT_MIN + 2 <= ds ->
  proc_anon_server_kx E (take (Z.to_nat ds) data) ds w
  = proc_anon_server_kx E data ds w.
Proof.
  intros Hint.
  unfold proc_anon_server_kx. cbv zeta.
  apply DECR_LEN_ext; [lia|]. intros H1.
  rewrite READuint16_take by lia.
  apply READuint16_ext. intros n_p Hp.
  apply DECR_LEN_ext; [lia|]. intros H2.
  destruct (_ >? _); [reflexivity|].
  apply DECR_LEN_ext; [lia|]. intros H3.
  rewrite READuint16_take by lia.
  apply READuint16_ext. intros n_g Hg.
  apply DECR_LEN_ext; [lia|]. intros H4.
  apply DECR_LEN_ext; [lia|]. intros H5.
  rewrite READuint16_take by lia.
  apply READuint16_ext. intros n_Y HY.
  apply DECR_LEN_ext; [lia|]. intros H6.
  rewrite !scan_field_take by lia.
  reflexivity.
Qed.

Lemma proc_anon_client_kx_take (E : Env) (data : list opaque) (ds : Z) (w : world) :
  INT_MIN + 2 <= ds ->
  proc_anon_client_kx E (take (Z.to_nat ds) data) ds w
  = proc_anon_client_kx E data ds w.
Proof.
  intros Hint.
  unfold proc_anon_client_kx. cbv zeta.
  apply bind_ext. intros bits w1.
  apply DECR_LEN_ext; [lia|]. intros H1.
  rewrite READuint16_take by lia.
  apply READuint16_ext. intros n_Y HY.
  apply DECR_LEN_ext; [lia|]. intros H2.
  rewrite scan_field_take by lia.
  reflexivity.
Qed.

(** X13. The decoders read inside [data_size]. For a [data_size] on which
    the first length check does not wrap around, that is from [INT_MIN + 2]
    to [INT_MAX], the outcome of [proc_anon_server_kx] and of
    [proc_anon_client_kx] - return value, session, store of big integers -
    depends on the first [data_size] bytes of the buffer only: two buffers
    with the same first [data_size] bytes give the same outcome, and so does
    the buffer cut at [data_size], on which a read at an offset of
    [data_size] or more would be undefined behaviour. This holds for every
    buffer, well-formed or not. *)
Theorem decoders_read_within_data_size
    (E : Env) (data data' : list opaque) (ds : Z) (w : world) :
  INT_MIN + 2 <= ds <= INT_MAX ->
  take (Z.to_nat ds) data = take (Z.to_nat ds) data' ->
  proc_anon_server_kx E data ds w = proc_anon_server_kx E data' ds w
  /\ proc_anon_client_kx E data ds w = proc_anon_client_kx E data' ds w
  /\ proc_anon_server_kx E data ds w
     = proc_anon_server_kx E (take (Z.to_nat ds) data) ds w
  /\ proc_anon_client_kx E data ds w
     = proc_anon_client_kx E (take (Z.to_nat ds) data) ds w.
Proof.
  intros [Hint _] Hagree. repeat split.
  - rewrite <- (proc_anon_server_kx_take E data),
      <- (proc_anon_server_kx_take E data'), Hagree by exact Hint.
    reflexivity.
  - rewrite <- (proc_anon_client_kx_take E data),
      <- (proc_anon_client_kx_take E data'), Hagree by exact Hint.
    reflexivity.
  - symmetry. apply proc_anon_server_kx_take. exact Hint.
  - symmetry. apply proc_anon_client_kx_take. exact Hint.
Qed.

Lemma decoders_read_within_data_size_witness :
  let E := example_env 5 23 3 in
  let data := small_message ++ [xff; xff] in
  let data' := small_message ++ [x00] in
  proc_anon_server_kx E data 9 fresh_world
  = proc_anon_server_kx E data' 9 fresh_world
  /\ proc_anon_client_kx E data 9 fresh_world
     = proc_anon_client_kx E data' 9 fresh_world
  /\ proc_anon_server_kx E data 9 fresh_world
     = proc_anon_server_kx E (take (Z.to_nat 9) data) 9 fresh_world
  /\ proc_anon_client_kx E data 9 fresh_world
     = proc_anon_client_kx E (take (Z.to_nat 9) data) 9 fresh_world.
Proof.
  intros E data data'.
  apply (decoders_read_within_data_size E data data' 9 fresh_world).
  - lia.
  - vm_compute. reflexivity.
Defined.

(** Outside that range the length check protects nothing: at
    [data_size = INT_MIN] the subtraction wraps around to a large positive
    number, and the decoder reads and accepts a message that lies wholly
    beyond [data_size]. *)
Lemma proc_anon_server_kx_at_INT_MIN :
  exists w',
    proc_anon_server_kx (example_env 5 23 3) small_message INT_MIN fresh_world
    = (Ok 0, w') /\
    (exists hY, client_Y (state w') = Some hY /\ mpis w' !! hY = Some 8) /\
    proc_anon_server_kx (example_env 5 23 3) [] INT_MIN fresh_world
    = (Fault, fresh_world).
Proof.
  eexists. split; [vm_compute; reflexivity|].
  split; [|vm_compute; reflexivity].
  eexists. split; vm_compute; reflexivity.
Qed.

(** ** What the operations leave alone *)

(** A big integer that was live before the call is still live, with its
    value, after the fresh ones have been created and released. *)
Ltac store_kept :=
  let i := fresh "i" in let x := fresh "x" in let Hi := fresh "Hi" in
  apply map_subseteq_spec; intros i x Hi;
  assert (is_Some (mpis _ !! i)) by (rewrite Hi; eauto);
  live_vs_fresh; map_lookup_goal; exact Hi.

Lemma gen_anon_server_kx_frame_wp (E : Env) (w : world) :
  wp (gen_anon_server_kx E) w (fun _ w' =>
    key (state w') = key (state w) /\
    KEY (state w') = KEY (state w) /\
    client_Y (state w') = client_Y (state w) /\
    client_g (state w') = client_g (state w) /\
    client_p (state w') = client_p (state w) /\
    anon_cred (state w') = anon_cred (state w) /\
    kx_cred_type (state w') = kx_cred_type (state w) /\
    mpis w ⊆ mpis w').
Proof.
  unfold gen_anon_server_kx. cbv zeta.
  wp_run_safe ltac:(idtac) ltac:(fail).
  all: repeat (split; [first [reflexivity | assumption | congruence]|]).
  all: store_kept.
Qed.

Lemma proc_anon_server_kx_frame_wp
    (E : Env) (data : list opaque) (ds : Z) (w : world) :
  wp (proc_anon_server_kx E data ds) w (fun _ w' =>
    key (state w') = key (state w) /\
    KEY (state w') = KEY (state w) /\
    dh_secret (state w') = dh_secret (state w) /\
    anon_cred (state w') = anon_cred (state w) /\
    kx_cred_type (state w') = kx_cred_type (state w) /\
    data_out w' = data_out w /\
    mpis w ⊆ mpis w').
Proof.
  unfold proc_anon_server_kx. cbv zeta.
  wp_run_safe ltac:(idtac) ltac:(fail).
  all: repeat (split; [first [reflexivity | assumption | congruence]|]).
  all: store_kept.
Qed.

Lemma gen_anon_client_kx_frame_wp (E : Env) (w : world) :
  wp (gen_anon_client_kx E) w (fun _ w' =>
    dh_secret (state w') = dh_secret (state w) /\
    auth_info (state w') = auth_info (state w) /\
    auth_info_type (state w') = auth_info_type (state w) /\
    auth_info_size (state w') = auth_info_size (state w) /\
    anon_cred (state w') = anon_cred (state w) /\
    kx_cred_type (state w') = kx_cred_type (state w)).
Proof.
  unfold gen_anon_client_kx. cbv zeta. wp_go.
  all: repeat split; first [reflexivity | assumption | congruence].
Qed.

Lemma proc_anon_client_kx_frame_wp
    (E : Env) (data : list opaque) (ds : Z) (w : world) :
  wp (proc_anon_client_kx E data ds) w (fun _ w' =>
    client_g (state w') = client_g (state w) /\
    client_p (state w') = client_p (state w) /\
    auth_info (state w') = auth_info (state w) /\
    auth_info_type (state w') = auth_info_type (state w) /\
    auth_info_size (state w') = auth_info_size (state w) /\
    anon_cred (state w') = anon_cred (state w) /\
    kx_cred_type (state w') = kx_cred_type (state w) /\
    data_out w' = data_out w).
Proof.
  unfold proc_anon_client_kx. cbv zeta. wp_go.
  all: repeat split; first [reflexivity | assumption | congruence].
Qed.

(** X14. What each operation leaves alone, whatever it returns.
    - [gen_anon_server_kx] does not touch [key], [KEY], [client_Y],
      [client_g], [client_p], and releases no big integer that was live
      before the call.
    - [proc_anon_server_kx] does not touch [key], [KEY], [dh_secret] or the
      caller's [*data], and releases no big integer that was live before the
      call: the ones that [client_Y], [client_g] and [client_p] pointed to
      stay allocated when the fields are overwritten.
    - [gen_anon_client_kx] does not touch [dh_secret] or the negotiated info
      with its type tag and size.
    - [proc_anon_client_kx] does not touch [client_g], [client_p], the
      negotiated info with its type tag and size, or the caller's [*data].
    None of them changes the configured credentials or the negotiated
    credential type. *)
Theorem anon_kx_frame (E : Env) (data : list opaque) (ds : Z) (w : world) :
  (let w' := (gen_anon_server_kx E w).2 in
   key (state w') = key (state w) /\
   KEY (state w') = KEY (state w) /\
   client_Y (state w') = client_Y (state w) /\
   client_g (state w') = client_g (state w) /\
   client_p (state w') = client_p (state w) /\
   anon_cred (state w') = anon_cred (state w) /\
   kx_cred_type (state w') = kx_cred_type (state w) /\
   mpis w ⊆ mpis w')
  /\ (let w' := (proc_anon_server_kx E data ds w).2 in
      key (state w') = key (state w) /\
      KEY (state w') = KEY (state w) /\
      dh_secret (state w') = dh_secret (state w) /\
      anon_cred (state w') = anon_cred (state w) /\
      kx_cred_type (state w') = kx_cred_type (state w) /\
      data_out w' = data_out w /\
      mpis w ⊆ mpis w')
  /\ (let w' := (gen_anon_client_kx E w).2 in
      dh_secret (state w') = dh_secret (state w) /\
      auth_info (state w') = auth_info (state w) /\
      auth_info_type (state w') = auth_info_type (state w) /\
      auth_info_size (state w') = auth_info_size (state w) /\
      anon_cred (state w') = anon_cred (state w) /\
      kx_cred_type (state w') = kx_cred_type (state w))
  /\ (let w' := (proc_anon_client_kx E data ds w).2 in
      client_g (state w') = client_g (state w) /\
      client_p (state w') = client_p (state w) /\
      auth_info (state w') = auth_info (state w) /\
      auth_info_type (state w') = auth_info_type (state w) /\
      auth_info_size (state w') = auth_info_size (state w) /\
      anon_cred (state w') = anon_cred (state w) /\
      kx_cred_type (state w') = kx_cred_type (state w) /\
      data_out w' = data_out w).
Proof.
  split; [|split; [|split]].
  - exact (gen_anon_server_kx_frame_wp E w).
  - exact (proc_anon_server_kx_frame_wp E data ds w).
  - exact (gen_anon_client_kx_frame_wp E w).
  - exact (proc_anon_client_kx_frame_wp E data ds w).
Qed.

(** ** The failure paths of the client-side operations *)

Lemma gen_anon_client_kx_no_buffer_wp
    (E : Env) (w : world) (hg hp : MPI) (gv pv xv : Z) :
  client_g (state w) = Some hg ->
  client_p (state w) = Some hp ->
  mpis w !! hg = Some gv ->
  mpis w !! hp = Some pv ->
  rand_x E = Some xv ->
  malloc_data_ok E = false ->
  wp (gen_anon_client_kx E) w (fun r w' =>
    r = Err GNUTLS_E_MEMORY_ERROR /\
    state w' = state w /\
    data_out w' = None /\
    exists hx hX,
      hx <> hX /\ mpis w !! hx = None /\ mpis w !! hX = None /\
      mpis w' = <[hX:=gv ^ xv mod pv]> (<[hx:=xv]> (mpis w))).
Proof.
  intros Hg Hp Hgv Hpv Hrand Hmalloc.
  unfold gen_anon_client_kx. cbv zeta.
  wp_run_safe
    ltac:(try rewrite Hg; try rewrite Hp; try rewrite Hrand;
          unfold gnutls_malloc; try rewrite Hmalloc)
    ltac:(fail).
  repeat (split; [reflexivity|]).
  match goal with
  | |- exists hx hX, _ /\ _ /\ _ /\ <[?a:=_]> (<[?b:=_]> _) = _ =>
      exists b, a
  end.
  repeat split; assumption || congruence.
Qed.

Lemma gen_anon_client_kx_no_key_buffer_wp
    (E : Env) (w : world) (hg hp hY : MPI) (gv pv Yv xv : Z) :
  client_g (state w) = Some hg ->
  client_p (state w) = Some hp ->
  client_Y (state w) = Some hY ->
  mpis w !! hg = Some gv ->
  mpis w !! hp = Some pv ->
  mpis w !! hY = Some Yv ->
  hg <> hp -> hg <> hY -> hp <> hY ->
  rand_x E = Some xv ->
  dh_key_ok E = true ->
  malloc_data_ok E = true ->
  secure_malloc_ok E = false ->
  wp (gen_anon_client_kx E) w (fun r w' =>
    r = Err GNUTLS_E_MEMORY_ERROR /\
    data_out w' = Some (client_kx_message (mpi_bytes (gv ^ xv mod pv))) /\
    key (state w')
    = {| data := None; size := Z.of_nat (mpi_nbytes (Yv ^ xv mod pv)) |} /\
    client_Y (state w') = None /\
    client_g (state w') = None /\
    client_p (state w') = None /\
    KEY (state w') = None /\
    exists hx,
      mpis w !! hx = None /\
      mpis w' = <[hx:=xv]> (delete hg (delete hp (delete hY (mpis w))))).
Proof.
  intros Hg Hp HY Hgv Hpv HYv Hne1 Hne2 Hne3 Hrand Hkey Hmalloc Hsec.
  unfold gen_anon_client_kx. cbv zeta.
  wp_run_ok
    ltac:(try rewrite Hg; try rewrite Hp; try rewrite HY; try rewrite Hrand;
          try rewrite Hkey;
          unfold gnutls_malloc, gnutls_secure_malloc;
          try rewrite Hmalloc; try rewrite Hsec)
    ltac:(fail).
  all: split; [reflexivity|].
  all: split;
    [f_equal; eapply client_buffer_layout; try eassumption;
     apply length_mpi_bytes|].
  all: repeat (split; [reflexivity|]).
  all: eexists; split;
    [|apply store_after_client; eauto; congruence]; assumption.
Qed.

(** X15. [gen_anon_client_kx] failing. On a session that holds g, p and the
    peer's value Y in three different live big integers:
    - when the key pair cannot be generated the call returns
      [GNUTLS_E_MEMORY_ERROR] and changes nothing;
    - when the message buffer cannot be allocated it returns
      [GNUTLS_E_MEMORY_ERROR] with the session untouched and [*data] [NULL],
      and the new X = g^x mod p and x are not released: both stay allocated;
    - when the key bytes cannot be allocated ([gnutls_secure_malloc] fails in
      [_gnutls_generate_key]) it returns [GNUTLS_E_MEMORY_ERROR] after the
      same releases as on success: [client_Y], [client_p], [client_g] and
      [KEY] are released and [NULL], the message is in [*data], [key.data]
      is [NULL] with [key.size] the size of the shared secret, and x stays
      allocated. *)
Theorem gen_anon_client_kx_failures
    (E : Env) (w : world) (hg hp hY : MPI) (g p Y : Z) :
  client_g (state w) = Some hg ->
  client_p (state w) = Some hp ->
  client_Y (state w) = Some hY ->
  mpis w !! hg = Some g ->
  mpis w !! hp = Some p ->
  mpis w !! hY = Some Y ->
  hg <> hp -> hg <> hY -> hp <> hY ->
  let out := gen_anon_client_kx E w in
  (rand_x E = None -> out = (Err GNUTLS_E_MEMORY_ERROR, w))
  /\ (forall x, rand_x E = Some x -> malloc_data_ok E = false ->
      out.1 = Err GNUTLS_E_MEMORY_ERROR /\
      state out.2 = state w /\
      data_out out.2 = None /\
      exists hx hX,
        hx <> hX /\ mpis w !! hx = None /\ mpis w !! hX = None /\
        mpis out.2 = <[hX:=g ^ x mod p]> (<[hx:=x]> (mpis w)))
  /\ (forall x, rand_x E = Some x -> malloc_data_ok E = true ->
      dh_key_ok E = true -> secure_malloc_ok E = false ->
      out.1 = Err GNUTLS_E_MEMORY_ERROR /\
      data_out out.2 = Some (client_kx_message (mpi_bytes (g ^ x mod p))) /\
      key (state out.2)
      = {| data := None; size := Z.of_nat (mpi_nbytes (Y ^ x mod p)) |} /\
      client_Y (state out.2) = None /\
      client_g (state out.2) = None /\
      client_p (state out.2) = None /\
      KEY (state out.2) = None /\
      exists hx,
        mpis w !! hx = None /\
        mpis out.2 = <[hx:=x]> (delete hg (delete hp (delete hY (mpis w))))).
Proof.
  intros Hg Hp HY Hgv Hpv HYv Hne1 Hne2 Hne3 out. split; [|split].
  - intros Hrand. unfold out, gen_anon_client_kx.
    rewrite !bind_gets. unfold gnutls_calc_dh_secret.
    rewrite Hg, Hp, Hrand. reflexivity.
  - intros x Hrand Hmalloc.
    exact (gen_anon_client_kx_no_buffer_wp E w hg hp g p x Hg Hp Hgv Hpv
             Hrand Hmalloc).
  - intros x Hrand Hmalloc Hkey Hsec.
    exact (gen_anon_client_kx_no_key_buffer_wp E w hg hp hY g p Y x Hg Hp HY
             Hgv Hpv HYv Hne1 Hne2 Hne3 Hrand Hkey Hmalloc Hsec).
Qed.

Lemma gen_anon_client_kx_failures_witness :
  gen_anon_client_kx (no_keypair_env 5 23) have_params_world
  = (Err GNUTLS_E_MEMORY_ERROR, have_params_world)
  /\ (let out := gen_anon_client_kx (no_buffer_env 5 23 4) have_params_world in
      out.1 = Err GNUTLS_E_MEMORY_ERROR /\
      state out.2 = state have_params_world /\
      data_out out.2 = None /\
      exists hx hX,
        hx <> hX /\ mpis have_params_world !! hx = None /\
        mpis have_params_world !! hX = None /\
        mpis out.2
        = <[hX:=5 ^ 4 mod 23]> (<[hx:=4]> (mpis have_params_world)))
  /\ (let out := gen_anon_client_kx (no_secure_env 5 23 4) have_params_world in
      out.1 = Err GNUTLS_E_MEMORY_ERROR /\
      data_out out.2 = Some (client_kx_message (mpi_bytes (5 ^ 4 mod 23))) /\
      key (state out.2)
      = {| data := None; size := Z.of_nat (mpi_nbytes (8 ^ 4 mod 23)) |} /\
      client_Y (state out.2) = None /\
      client_g (state out.2) = None /\
      client_p (state out.2) = None /\
      KEY (state out.2) = None /\
      exists hx,
        mpis have_params_world !! hx = None /\
        mpis out.2
        = <[hx:=4]> (delete 1%nat (delete 2%nat (delete 0%nat
                                                   (mpis have_params_world))))).
Proof.
  split; [|split].
  - apply (gen_anon_client_kx_failures (no_keypair_env 5 23) have_params_world
             1%nat 2%nat 0%nat 5 23 8);
      first [reflexivity | discriminate].
  - apply (gen_anon_client_kx_failures (no_buffer_env 5 23 4) have_params_world
             1%nat 2%nat 0%nat 5 23 8);
      first [reflexivity | discriminate].
  - apply (gen_anon_client_kx_failures (no_secure_env 5 23 4) have_params_world
             1%nat 2%nat 0%nat 5 23 8);
      first [reflexivity | discriminate].
Defined.

Lemma proc_anon_client_kx_no_key_buffer_wp
    (E : Env) (Y tl : list opaque) (ds : Z) (w : world)
    (hx : MPI) (xv gv pv : Z) :
  dh_secret (state w) = Some hx ->
  mpis w !! hx = Some xv ->
  dh_params E (bits_of E w) = (Some gv, Some pv) ->
  dh_key_ok E = true ->
  secure_malloc_ok E = false ->
  Z.of_nat (length Y) < 65536 ->
  (length Y <= mpi_scan_limit E)%nat ->
  Z.of_nat (length (client_kx_message Y)) <= ds ->
  ds <= Z.of_nat (length (client_kx_message Y ++ tl)) ->
  wp (proc_anon_client_kx E (client_kx_message Y ++ tl) ds) w (fun r w' =>
    r = Err GNUTLS_E_MEMORY_ERROR /\
    key (state w')
    = {| data := None; size := Z.of_nat (mpi_nbytes (be_value Y ^ xv mod pv)) |} /\
    dh_secret (state w') = None /\
    client_Y (state w') = None /\
    KEY (state w') = None /\
    mpis w' = delete hx (mpis w)).
Proof.
  intros Hsec Hxv Hparams Hkey Hsmalloc HY HlY Hlo Hhi.
  unfold client_kx_message in Hlo, Hhi.
  rewrite length_app in Hhi. rewrite length_wire_field in Hlo, Hhi.
  pose proof (READ_client Y tl HY) as Hread.
  pose proof (slice_client Y tl) as Hslice.
  assert (Hlen : length (client_kx_message Y ++ tl) = (2 + length Y + length tl)%nat)
    by (unfold client_kx_message; rewrite length_app, length_wire_field; reflexivity).
  generalize dependent (client_kx_message Y ++ tl). intros buf Hread Hslice Hlen.
  unfold proc_anon_client_kx. unfold bits_of in Hparams. cbv zeta.
  wp_run_ok
    ltac:(try rewrite Hread; try rewrite Hparams; try rewrite Hsec;
          try rewrite Hkey; try rewrite Hslice;
          unfold gnutls_secure_malloc; try rewrite Hsmalloc)
    ltac:(exfalso; lia).
  all: repeat (split; [reflexivity|]).
  all: apply store_after_server_proc; eauto; congruence.
Qed.

(** X16. [proc_anon_client_kx] when the key bytes cannot be allocated. With
    everything as for a successful call except that [gnutls_secure_malloc]
    fails in [_gnutls_generate_key], the call returns
    [GNUTLS_E_MEMORY_ERROR] after the same releases as on success:
    [client_Y], [dh_secret] and [KEY] are [NULL], every big integer the call
    created is released and so is x; [key.data] is [NULL] with [key.size]
    the size of the shared secret. *)
Theorem proc_anon_client_kx_key_allocation_failure
    (E : Env) (Y tl : list opaque) (ds : Z) (w : world)
    (hx : MPI) (x g p : Z) :
  dh_secret (state w) = Some hx ->
  mpis w !! hx = Some x ->
  dh_params E (bits_of E w) = (Some g, Some p) ->
  dh_key_ok E = true ->
  secure_malloc_ok E = false ->
  Z.of_nat (length Y) < 65536 ->
  (length Y <= mpi_scan_limit E)%nat ->
  Z.of_nat (length (client_kx_message Y)) <= ds ->
  ds <= Z.of_nat (length (client_kx_message Y ++ tl)) ->
  let out := proc_anon_client_kx E (client_kx_message Y ++ tl) ds w in
  out.1 = Err GNUTLS_E_MEMORY_ERROR /\
  key (state out.2)
  = {| data := None; size := Z.of_nat (mpi_nbytes (be_value Y ^ x mod p)) |} /\
  dh_secret (state out.2) = None /\
  client_Y (state out.2) = None /\
  KEY (state out.2) = None /\
  mpis out.2 = delete hx (mpis w).
Proof.
  intros Hsec Hxv Hparams Hkey Hsmalloc HY HlY Hlo Hhi.
  exact (proc_anon_client_kx_no_key_buffer_wp E Y tl ds w hx x g p Hsec Hxv
           Hparams Hkey Hsmalloc HY HlY Hlo Hhi).
Qed.

Lemma proc_anon_client_kx_key_allocation_failure_witness :
  let out := proc_anon_client_kx (no_secure_env 5 23 3)
               (client_kx_message (mpi_bytes 8) ++ []) 3 awaiting_peer_world in
  out.1 = Err GNUTLS_E_MEMORY_ERROR /\
  key (state out.2)
  = {| data := None;
       size := Z.of_nat (mpi_nbytes (be_value (mpi_bytes 8) ^ 3 mod 23)) |} /\
  dh_secret (state out.2) = None /\
  client_Y (state out.2) = None /\
  KEY (state out.2) = None /\
  mpis out.2 = delete 0%nat (mpis awaiting_peer_world).
Proof.
  apply (proc_anon_client_kx_key_allocation_failure (no_secure_env 5 23 3)
           (mpi_bytes 8) [] 3 awaiting_peer_world 0%nat 3 5 23);
    first [reflexivity | lia | vm_compute; first [reflexivity | discriminate | lia]].
Defined.

(** ** Return values *)

Ltac buffer_length :=
  eexists; split; [reflexivity|];
  repeat match goal with
    | H : length ?a = length ?b |- _ => rewrite H; clear H
    end;
  rewrite length_replicate; lia.

Lemma gen_anon_server_kx_returns_wp (E : Env) (w : world) :
  wp (gen_anon_server_kx E) w (fun r w' =>
    match r with
    | Ok n => 6 <= n /\
              exists buf, data_out w' = Some buf /\ Z.of_nat (length buf) = n
    | Err e => e = GNUTLS_E_MEMORY_ERROR \/ e = GNUTLS_E_INVALID_REQUEST
    | Fault => False
    end).
Proof.
  unfold gen_anon_server_kx. cbv zeta.
  wp_run_safe ltac:(case_malloc E) ltac:(fail).
  all: first [left; reflexivity | right; reflexivity | idtac].
  all: split; [lia | buffer_length].
Qed.

Lemma gen_anon_client_kx_returns_wp (E : Env) (w : world) :
  wp (gen_anon_client_kx E) w (fun r w' =>
    match r with
    | Ok n => 2 <= n /\
              exists buf, data_out w' = Some buf /\ Z.of_nat (length buf) = n
    | Err e => e = GNUTLS_E_MEMORY_ERROR
    | Fault => True
    end).
Proof.
  unfold gen_anon_client_kx. cbv zeta.
  wp_run_safe ltac:(case_malloc E) ltac:(fail).
  all: first [reflexivity | exact I | idtac].
  all: split; [lia | buffer_length].
Qed.

Lemma proc_anon_server_kx_returns_wp
    (E : Env) (data : list opaque) (ds : Z) (w : world) :
  wp (proc_anon_server_kx E data ds) w (fun r w' =>
    match r with
    | Ok n => n = 0 /\ (6 <= ds \/ ds <= INT_MIN + 1)
    | Err e => e = GNUTLS_E_UNEXPECTED_PACKET_LENGTH \/
               e = GNUTLS_E_MPI_SCAN_FAILED \/
               e = GNUTLS_E_INVALID_REQUEST \/
               e = GNUTLS_E_MEMORY_ERROR
    | Fault => True
    end).
Proof.
  unfold proc_anon_server_kx. cbv zeta. wp_go.
  all: first [exact I | split; [reflexivity | lia] | tauto].
Qed.

Lemma proc_anon_client_kx_returns_wp
    (E : Env) (data : list opaque) (ds : Z) (w : world) :
  wp (proc_anon_client_kx E data ds) w (fun r w' =>
    match r with
    | Ok n => n = 0 /\ (2 <= ds \/ ds <= INT_MIN + 1)
    | Err e => e = GNUTLS_E_UNEXPECTED_PACKET_LENGTH \/
               e = GNUTLS_E_MPI_SCAN_FAILED \/
               e = GNUTLS_E_MEMORY_ERROR
    | Fault => True
    end).
Proof.
  unfold proc_anon_client_kx. cbv zeta. wp_go.
  all: first [exact I | split; [reflexivity | lia] | tauto].
Qed.

(** X17. What the four operations return, on any session and any input.
    - [gen_anon_server_kx] returns the size n >= 6 of the buffer it leaves
      in [*data], or [GNUTLS_E_MEMORY_ERROR] or [GNUTLS_E_INVALID_REQUEST];
      it has no undefined behaviour, whatever the session.
    - [gen_anon_client_kx] returns the size n >= 2 of the buffer it leaves
      in [*data], or [GNUTLS_E_MEMORY_ERROR] and no other error.
    - [proc_anon_server_kx] returns 0 or one of
      [GNUTLS_E_UNEXPECTED_PACKET_LENGTH], [GNUTLS_E_MPI_SCAN_FAILED],
      [GNUTLS_E_INVALID_REQUEST], [GNUTLS_E_MEMORY_ERROR]; it returns 0 only
      when [data_size] >= 6, or when [data_size] is [INT_MIN] or
      [INT_MIN + 1], where the first length check wraps around.
    - [proc_anon_client_kx] returns 0 or one of
      [GNUTLS_E_UNEXPECTED_PACKET_LENGTH], [GNUTLS_E_MPI_SCAN_FAILED],
      [GNUTLS_E_MEMORY_ERROR], never [GNUTLS_E_INVALID_REQUEST]; it returns 0
      only when [data_size] >= 2, or when [data_size] is [INT_MIN] or
      [INT_MIN + 1]. *)
Theorem anon_kx_return_values (E : Env) (data : list opaque) (ds : Z) (w : world) :
  (let out := gen_anon_server_kx E w in
   match out.1 with
   | Ok n => 6 <= n /\
             exists buf, data_out out.2 = Some buf /\ Z.of_nat (length buf) = n
   | Err e => e = GNUTLS_E_MEMORY_ERROR \/ e = GNUTLS_E_INVALID_REQUEST
   | Fault => False
   end)
  /\ (let out := gen_anon_client_kx E w in
      match out.1 with
      | Ok n => 2 <= n /\
                exists buf, data_out out.2 = Some buf /\ Z.of_nat (length buf) = n
      | Err e => e = GNUTLS_E_MEMORY_ERROR
      | Fault => True
      end)
  /\ (let out := proc_anon_server_kx E data ds w in
      match out.1 with
      | Ok n => n = 0 /\ (6 <= ds \/ ds <= INT_MIN + 1)
      | Err e => e = GNUTLS_E_UNEXPECTED_PACKET_LENGTH \/
                 e = GNUTLS_E_MPI_SCAN_FAILED \/
                 e = GNUTLS_E_INVALID_REQUEST \/
                 e = GNUTLS_E_MEMORY_ERROR
      | Fault => True
      end)
  /\ (let out := proc_anon_client_kx E data ds w in
      match out.1 with
      | Ok n => n = 0 /\ (2 <= ds \/ ds <= INT_MIN + 1)
      | Err e => e = GNUTLS_E_UNEXPECTED_PACKET_LENGTH \/
                 e = GNUTLS_E_MPI_SCAN_FAILED \/
                 e = GNUTLS_E_MEMORY_ERROR
      | Fault => True
      end).
Proof.
  split; [|split; [|split]].
  - exact (gen_anon_server_kx_returns_wp E w).
  - exact (gen_anon_client_kx_returns_wp E w).
  - exact (proc_anon_server_kx_returns_wp E data ds w).
  - exact (proc_anon_client_kx_returns_wp E data ds w).
Qed.

(** ** The operations called before their predecessor *)

(** What a call returns when a [NULL] operand reaches a collaborator. *)
Lemma gen_anon_client_kx_unset (E : Env) (w : world) :
  client_g (state w) = None \/ client_p (state w) = None ->
  gen_anon_client_kx E w
  = (if dh_null_is_failure E then Err GNUTLS_E_MEMORY_ERROR else Fault, w).
Proof.
  intros H. unfold gen_anon_client_kx.
  rewrite !bind_gets. unfold gnutls_calc_dh_secret, null_operand.
  destruct H as [-> | ->]; [|destruct (client_g (state w))];
    destruct (dh_null_is_failure E); reflexivity.
Qed.

Lemma gen_anon_client_kx_errors_wp (E : Env) (w : world) :
  wp (gen_anon_client_kx E) w (fun r _ =>
    r <> Err GNUTLS_E_INVALID_REQUEST).
Proof.
  pose proof (gen_anon_client_kx_returns_wp E w) as H. unfold wp in *.
  destruct (gen_anon_client_kx E w).1 as [n|e|]; [discriminate| |discriminate].
  subst e. discriminate.
Qed.

Lemma proc_anon_client_kx_errors_wp
    (E : Env) (data : list opaque) (ds : Z) (w : world) :
  wp (proc_anon_client_kx E data ds) w (fun r _ =>
    r <> Err GNUTLS_E_INVALID_REQUEST).
Proof.
  pose proof (proc_anon_client_kx_returns_wp E data ds w) as H. unfold wp in *.
  destruct (proc_anon_client_kx E data ds w).1 as [n|e|];
    [discriminate| |discriminate].
  destruct H as [-> | [-> | ->]]; discriminate.
Qed.

Lemma proc_anon_client_kx_unset_wp (E : Env) (data : list opaque) (ds : Z) (w : world) :
  dh_secret (state w) = None ->
  dh_null_is_failure E = true ->
  0 <= ds ->
  ds <= Z.of_nat (length data) ->
  wp (proc_anon_client_kx E data ds) w (fun r _ =>
    r = Err GNUTLS_E_UNEXPECTED_PACKET_LENGTH \/
    r = Err GNUTLS_E_MPI_SCAN_FAILED \/
    r = Err GNUTLS_E_MEMORY_ERROR).
Proof.
  intros Hs Hnull Hlo Hds. unfold proc_anon_client_kx. cbv zeta.
  wp_run_all.
  all: try (exfalso; lia).
  all: try (exfalso; congruence).
  all: auto.
Qed.

(** C6, as stated, fails: neither function has a return of
    [GNUTLS_E_INVALID_REQUEST]. On a session on which nothing has run,
    whatever the collaborators do - the parameter source, the allocators,
    the treatment of a [NULL] operand -, [gen_anon_client_kx] does not return
    [GNUTLS_E_INVALID_REQUEST], and neither does [proc_anon_client_kx] on a
    well-formed client message. *)
Lemma client_kx_misuse_not_invalid_request :
  (forall E : Env,
      (gen_anon_client_kx E fresh_world).1 <> Err GNUTLS_E_INVALID_REQUEST)
  /\ (forall E : Env,
        (proc_anon_client_kx E small_client_message 3 fresh_world).1
        <> Err GNUTLS_E_INVALID_REQUEST).
Proof.
  split; intros E.
  - exact (gen_anon_client_kx_errors_wp E fresh_world).
  - exact (proc_anon_client_kx_errors_wp E small_client_message 3 fresh_world).
Qed.

(** C6, amended. Neither [gen_anon_client_kx] nor [proc_anon_client_kx]
    returns [GNUTLS_E_INVALID_REQUEST], on any session and any input: neither
    checks that its predecessor has run, and the unset field reaches the
    collaborator as a [NULL] operand.
    - [gen_anon_client_kx] called while [client_g] or [client_p] is unset
      hands the [NULL] operand to [gnutls_calc_dh_secret] before anything
      else: the session and the store of big integers stay as they were,
      nothing is allocated, and the call returns [GNUTLS_E_MEMORY_ERROR] when
      the collaborator reports a [NULL] operand as a failure (it is
      undefined behaviour otherwise).
    - [proc_anon_client_kx] called while [dh_secret] is unset, with a
      [data_size] from 0 to [INT_MAX] on a buffer of at least [data_size]
      bytes and a [gnutls_calc_dh_key] that reports a [NULL] operand as a
      failure, fails with [GNUTLS_E_UNEXPECTED_PACKET_LENGTH],
      [GNUTLS_E_MPI_SCAN_FAILED] or [GNUTLS_E_MEMORY_ERROR]. *)
Theorem client_kx_without_predecessor
    (E : Env) (data : list opaque) (ds : Z) (w : world) :
  (gen_anon_client_kx E w).1 <> Err GNUTLS_E_INVALID_REQUEST
  /\ (proc_anon_client_kx E data ds w).1 <> Err GNUTLS_E_INVALID_REQUEST
  /\ (client_g (state w) = None \/ client_p (state w) = None ->
      gen_anon_client_kx E w
      = (if dh_null_is_failure E then Err GNUTLS_E_MEMORY_ERROR else Fault, w))
  /\ (dh_secret (state w) = None ->
      dh_null_is_failure E = true ->
      0 <= ds <= INT_MAX ->
      ds <= Z.of_nat (length data) ->
      exists e w',
        proc_anon_client_kx E data ds w = (Err e, w') /\
        (e = GNUTLS_E_UNEXPECTED_PACKET_LENGTH \/
         e = GNUTLS_E_MPI_SCAN_FAILED \/
         e = GNUTLS_E_MEMORY_ERROR)).
Proof.
  split; [|split; [|split]].
  - exact (gen_anon_client_kx_errors_wp E w).
  - exact (proc_anon_client_kx_errors_wp E data ds w).
  - apply gen_anon_client_kx_unset.
  - intros Hs Hnull [Hlo _] Hds.
    pose proof (proc_anon_client_kx_unset_wp E data ds w Hs Hnull Hlo Hds) as H.
    unfold wp in H.
    destruct (proc_anon_client_kx E data ds w) as [r w'] eqn:Hrun. simpl in H.
    destruct H as [-> | [-> | ->]]; eexists _, w'; split; eauto.
Qed.

Lemma client_kx_without_predecessor_witness :
  (gen_anon_client_kx (example_env 5 23 3) fresh_world).1
  <> Err GNUTLS_E_INVALID_REQUEST
  /\ (proc_anon_client_kx (example_env 5 23 3) small_client_message 3
        fresh_world).1
     <> Err GNUTLS_E_INVALID_REQUEST
  /\ gen_anon_client_kx (example_env 5 23 3) fresh_world
     = (Err GNUTLS_E_MEMORY_ERROR, fresh_world)
  /\ exists e w',
       proc_anon_client_kx (example_env 5 23 3) small_client_message 3
         fresh_world = (Err e, w') /\
       (e = GNUTLS_E_UNEXPECTED_PACKET_LENGTH \/
        e = GNUTLS_E_MPI_SCAN_FAILED \/
        e = GNUTLS_E_MEMORY_ERROR).
Proof.
  destruct (client_kx_without_predecessor (example_env 5 23 3)
              small_client_message 3 fresh_world)
    as (Hgen & Hproc & Hunset & Hsecret).
  split; [exact Hgen|]. split; [exact Hproc|]. split.
  - apply Hunset. left. reflexivity.
  - apply Hsecret; first [reflexivity | lia | vm_compute; discriminate].
Defined.

(** ** From [gen_anon_server_kx] to [proc_anon_server_kx] *)

Lemma gen_anon_server_kx_info_wp (E : Env) (w : world) (gv pv xv : Z) :
  dh_params E (bits_of E w) = (Some gv, Some pv) ->
  rand_x E = Some xv ->
  malloc_data_ok E = true ->
  (auth_info (state w) = None -> malloc_info_ok E = true) ->
  (auth_info (state w) <> None ->
   auth_info_type (state w) = Some (kx_cred_type (state w))) ->
  wp (gen_anon_server_kx E) w (fun _ w' =>
    auth_info (state w') = Some {| dh_bits := gcry_mpi_get_nbits pv |}).
Proof.
  intros Hparams Hrand Hmalloc Hinfo Htype.
  unfold gen_anon_server_kx. unfold bits_of in Hparams. cbv zeta.
  wp_run_ok
    ltac:(try rewrite Hparams; try rewrite Hrand;
          unfold gnutls_malloc, gnutls_malloc_info; try rewrite Hmalloc)
    ltac:(dead_info Hinfo Htype).
  all: reflexivity.
Qed.

(** X18. The server exchange message from its encoder to its decoder. When
    [gen_anon_server_kx] succeeds on the server, with g >= 0 and p > 0 from
    the parameter source and the exponent x, and the message it returns
    passes the extra check of the decoder (n_p <= n_g + n_X + 2), then
    [proc_anon_server_kx] on the client, given the buffer and the length that
    the server call returned, returns 0 and holds in [client_p], [client_g]
    and [client_Y] the server's p, g and public value g^x mod p; both sides
    record the bit length of p in the negotiated info. (The fields are to fit
    16-bit lengths and the client's scan limit; the negotiated info of each
    side is unset, and can be allocated, or of the negotiated type.) *)
Theorem server_kx_gen_then_proc (Es Ec : Env) (ws wc : world) (g p x : Z) :
  0 < p -> 0 <= g ->
  dh_params Es (bits_of Es ws) = (Some g, Some p) ->
  rand_x Es = Some x ->
  malloc_data_ok Es = true ->
  (auth_info (state ws) = None -> malloc_info_ok Es = true) ->
  (auth_info (state ws) <> None ->
   auth_info_type (state ws) = Some (kx_cred_type (state ws))) ->
  (auth_info (state wc) = None -> malloc_info_ok Ec = true) ->
  (auth_info (state wc) <> None ->
   auth_info_type (state wc) = Some (kx_cred_type (state wc))) ->
  Z.of_nat (mpi_nbytes p) < 65536 ->
  Z.of_nat (mpi_nbytes g) < 65536 ->
  (mpi_nbytes p <= mpi_scan_limit Ec)%nat ->
  (mpi_nbytes g <= mpi_scan_limit Ec)%nat ->
  (mpi_nbytes p <= mpi_nbytes g + mpi_nbytes (g ^ x mod p) + 2)%nat ->
  let server := gen_anon_server_kx Es ws in
  exists n msg,
    server.1 = Ok n /\
    data_out server.2 = Some msg /\
    auth_info (state server.2) = Some {| dh_bits := gcry_mpi_get_nbits p |} /\
    let client := proc_anon_server_kx Ec msg n wc in
    client.1 = Ok 0 /\
    auth_info (state client.2) = Some {| dh_bits := gcry_mpi_get_nbits p |} /\
    exists hY hg hp,
      client_Y (state client.2) = Some hY /\
      client_g (state client.2) = Some hg /\
      client_p (state client.2) = Some hp /\
      mpis client.2 !! hY = Some (g ^ x mod p) /\
      mpis client.2 !! hg = Some g /\
      mpis client.2 !! hp = Some p.
Proof.
  intros Hp Hg Hparams Hrand Hmalloc HinfoS HtypeS HinfoC HtypeC HnP HnG
    HlP HlG Hcheck server.
  set (X := g ^ x mod p) in *.
  assert (HX : 0 <= X < p) by (apply Z.mod_pos_bound; exact Hp).
  assert (HnX : (mpi_nbytes X <= mpi_nbytes p)%nat)
    by (apply mpi_nbytes_mono; lia).
  pose proof (gen_anon_server_kx_ok_wp Es ws g p x Hparams Hrand Hmalloc
                HinfoS HtypeS) as H1.
  pose proof (gen_anon_server_kx_info_wp Es ws g p x Hparams Hrand Hmalloc
                HinfoS HtypeS) as H1i.
  unfold wp in H1, H1i. fold server in H1, H1i. cbv zeta in H1. fold X in H1.
  destruct H1 as (Hr & Hout & _).
  eexists _, _. split; [exact Hr|]. split; [exact Hout|]. split; [exact H1i|].
  pose proof (proc_anon_server_kx_accepts_wp Ec (mpi_bytes p) (mpi_bytes g)
                (mpi_bytes X) []
                (Z.of_nat (length (server_kx_message (mpi_bytes p) (mpi_bytes g)
                                     (mpi_bytes X)))) wc) as H2.
  rewrite app_nil_r, !length_server_kx_message, !length_mpi_bytes in H2.
  rewrite length_server_kx_message, !length_mpi_bytes.
  unfold wp in H2. cbv zeta.
  destruct H2 as (Hok & hY & hg & hp & HcY & Hcg & Hcp & HfY & Hfg & Hfp
                  & Hne1 & Hne2 & Hne3 & Hm & Hinfo & _);
    try assumption; try lia.
  rewrite !be_value_mpi_bytes in * by lia.
  split; [exact Hok|]. split; [exact Hinfo|].
  exists hY, hg, hp. repeat (split; [assumption|]). rewrite Hm.
  split; [|split].
  - rewrite !lookup_insert_ne by congruence. apply lookup_insert_eq.
  - rewrite lookup_insert_ne by congruence. apply lookup_insert_eq.
  - apply lookup_insert_eq.
Qed.

Lemma server_kx_gen_then_proc_witness :
  let server := gen_anon_server_kx (example_env 5 23 6) fresh_world in
  exists n msg,
    server.1 = Ok n /\
    data_out server.2 = Some msg /\
    auth_info (state server.2) = Some {| dh_bits := gcry_mpi_get_nbits 23 |} /\
    let client := proc_anon_server_kx (example_env 5 23 15) msg n fresh_world in
    client.1 = Ok 0 /\
    auth_info (state client.2) = Some {| dh_bits := gcry_mpi_get_nbits 23 |} /\
    exists hY hg hp,
      client_Y (state client.2) = Some hY /\
      client_g (state client.2) = Some hg /\
      client_p (state client.2) = Some hp /\
      mpis client.2 !! hY = Some (5 ^ 6 mod 23) /\
      mpis client.2 !! hg = Some 5 /\
      mpis client.2 !! hp = Some 23.
Proof.
  apply (server_kx_gen_then_proc (example_env 5 23 6) (example_env 5 23 15)
           fresh_world fresh_world 5 23 6);
    first [ reflexivity
          | lia
          | vm_compute; first [reflexivity | discriminate | lia]
          | intros H; exfalso; apply H; reflexivity ].
Defined.
